(** * Batch classification pipeline: partitioning, orchestration, parsing,
      aggregation and comparison

    A shallow embedding of the two orchestration scripts
    [MTA_multi_batch_short_only.py] (sequential mode) and
    [MTA_multi_batch_PARALLEL.py] (parallel mode) and of the analysis script
    [compare_classifications.py], followed by their properties.

    Conventions.
    - Python [int] is [Z]; [//] is [Z.div] (both round towards minus
      infinity), and a zero divisor raises, which is [None] here.
    - Python [str] is [string]; characters are the code points 0..255.
    - The float expression [int(MAX_FILE_SIZE_MB / (12.0 / 1024))] is read
      over the rationals: [12.0 / 1024] is exact in binary floating point and
      the quotient is truncated, so the value is the truncated quotient of
      [MAX_FILE_SIZE_MB * 1024] by [12] for every size a file limit can take.
    - The scripts act on a world of durable artifacts, remote calls, a clock
      and printed lines, threaded through a state monad whose outcomes are
      a return, an uncaught exception, or a polling loop still running when
      its fuel is spent.  The remote service is a record of functions from
      the arguments of a call and the time to its reply.
    - The module-level constants of the scripts are the fields of a
      configuration record; the values the scripts ship with are
      [sequential_config] and [parallel_config].

    Outline: Python arithmetic and slices; the Batch Partitioner; strings;
    the CSV reader; response parsing; the quoting convention; the world;
    the sequential script; the parallel script; sample runs; the comparison
    script; then the properties, in the same order. *)

From Stdlib Require Import ZArith QArith Qround Qabs Lia Ascii DecimalString.
From Stdlib Require DecimalZ.
From stdpp Require Import gmap strings list sorting.

Local Open Scope Z_scope.

(** ** Python arithmetic *)

Definition floordiv (a b : Z) : option Z :=
  if decide (b = 0) then None else Some (a / b).

(** [seq[start:end]] for a list: negative bounds count from the end, and
    bounds are clipped to the length. *)
Definition slice_bound (i len : Z) : Z :=
  if decide (i < 0) then Z.max (i + len) 0 else Z.min i len.

Definition iloc {A} (start_idx end_idx : Z) (df : list A) : list A :=
  let len := Z.of_nat (length df) in
  let lo := slice_bound start_idx len in
  let hi := slice_bound end_idx len in
  take (Z.to_nat (hi - lo)) (drop (Z.to_nat lo) df).

(** ** Batch Partitioner *)

Module Partitioner.

(** The module-level configuration constants of the two scripts. *)
Record Config := {
  MAX_REQUESTS_PER_BATCH : Z;
  MAX_FILE_SIZE_MB : Z;
  MAX_ENQUEUED_TOKENS_PER_DAY : Z;
  ESTIMATED_TOKENS_PER_REQUEST : Z
}.

(** The constants as they stand in [MTA_multi_batch_short_only.py]. *)
Definition sequential_config : Config := {|
  MAX_REQUESTS_PER_BATCH := 50000;
  MAX_FILE_SIZE_MB := 100;
  MAX_ENQUEUED_TOKENS_PER_DAY := 1000000000;
  ESTIMATED_TOKENS_PER_REQUEST := 3400
|}.

(** The constants as they stand in [MTA_multi_batch_PARALLEL.py]. *)
Definition parallel_config : Config := {|
  MAX_REQUESTS_PER_BATCH := 50000;
  MAX_FILE_SIZE_MB := 100;
  MAX_ENQUEUED_TOKENS_PER_DAY := 1000000000;
  ESTIMATED_TOKENS_PER_REQUEST := 3200
|}.

(** [estimated_kb_per_request = 12.0], a local of [calculate_batch_sizes]. *)
Definition estimated_kb_per_request : Z := 12.

(** [int(MAX_FILE_SIZE_MB / (estimated_kb_per_request / 1024))]. *)
Definition max_requests_for_size (cfg : Config) : Z :=
  Z.quot (MAX_FILE_SIZE_MB cfg * 1024) estimated_kb_per_request.

(** [calculate_batch_sizes] of the sequential script.  The daily-token limit
    is computed (and printed) before the minimum is taken over the other
    two limits. *)
Definition calculate_batch_sizes_sequential (cfg : Config) (total_startups : Z)
  : option (Z * Z) :=
  max_requests_for_daily_tokens ←
    floordiv (MAX_ENQUEUED_TOKENS_PER_DAY cfg) (ESTIMATED_TOKENS_PER_REQUEST cfg);
  let max_requests_per_batch :=
    Z.min (max_requests_for_size cfg) (MAX_REQUESTS_PER_BATCH cfg) in
  num_batches ←
    floordiv (total_startups + max_requests_per_batch - 1) max_requests_per_batch;
  startups_per_batch ← floordiv total_startups num_batches;
  Some (num_batches, startups_per_batch).

(** [calculate_batch_sizes] of the parallel script: the file-size limit
    alone. *)
Definition calculate_batch_sizes_parallel (cfg : Config) (total_startups : Z)
  : option (Z * Z) :=
  let max_requests_per_batch := max_requests_for_size cfg in
  num_batches ←
    floordiv (total_startups + max_requests_per_batch - 1) max_requests_per_batch;
  startups_per_batch ← floordiv total_startups num_batches;
  Some (num_batches, startups_per_batch).

(** The row range of batch [batch_num], as computed in
    [create_single_batch_file] and in the loop of [create_all_batch_files]. *)
Definition batch_bounds (batch_num num_batches startups_per_batch total_startups : Z)
  : Z * Z :=
  let start_idx := (batch_num - 1) * startups_per_batch in
  let end_idx :=
    if decide (batch_num = num_batches) then total_startups
    else start_idx + startups_per_batch in
  (start_idx, end_idx).

(** [batch_df = df.iloc[start_idx:end_idx]]. *)
Definition batch_df {A} (batch_num num_batches startups_per_batch : Z)
    (df : list A) : list A :=
  let total_startups := Z.of_nat (length df) in
  let '(start_idx, end_idx) :=
    batch_bounds batch_num num_batches startups_per_batch total_startups in
  iloc start_idx end_idx df.

(** The three per-batch request limits the constraints imply. *)
Definition token_limit (cfg : Config) : Z :=
  MAX_ENQUEUED_TOKENS_PER_DAY cfg / ESTIMATED_TOKENS_PER_REQUEST cfg.

Definition min_of_all_three (cfg : Config) : Z :=
  Z.min (Z.min (max_requests_for_size cfg) (MAX_REQUESTS_PER_BATCH cfg))
        (token_limit cfg).

(** [k] is the ceiling of [n / limit]: the least [k] with [n <= k * limit]. *)
Definition is_ceil_div (n limit k : Z) : Prop :=
  (k - 1) * limit < n <= k * limit.

(** All four constants are positive. *)
Definition positive_config (cfg : Config) : Prop :=
  0 < MAX_REQUESTS_PER_BATCH cfg /\ 0 < MAX_FILE_SIZE_MB cfg /\
  0 < MAX_ENQUEUED_TOKENS_PER_DAY cfg /\ 0 < ESTIMATED_TOKENS_PER_REQUEST cfg.

(** A configuration whose daily token quota admits only ten requests. *)
Definition tight_token_config : Config := {|
  MAX_REQUESTS_PER_BATCH := 50000;
  MAX_FILE_SIZE_MB := 100;
  MAX_ENQUEUED_TOKENS_PER_DAY := 34000;
  ESTIMATED_TOKENS_PER_REQUEST := 3400
|}.

(** A configuration with a one-megabyte file limit (85 requests per batch). *)
Definition small_file_config : Config := {|
  MAX_REQUESTS_PER_BATCH := 50000;
  MAX_FILE_SIZE_MB := 1;
  MAX_ENQUEUED_TOKENS_PER_DAY := 1000000000;
  ESTIMATED_TOKENS_PER_REQUEST := 3400
|}.

End Partitioner.

(** ** Python strings *)

Module PyStr.

(** [str.isspace] on the code points below 256. *)
Definition is_space (c : ascii) : bool :=
  match c with
  | "009" | "010" | "011" | "012" | "013"
  | "028" | "029" | "030" | "031" | " " | "133" | "160" => true
  | _ => false
  end%char.

(** [s.lstrip()]. *)
Fixpoint lstrip (s : string) : string :=
  match s with
  | "" => ""
  | String c s' => if is_space c then lstrip s' else s
  end.

(** [s.rstrip()]: a character is kept unless it is whitespace and nothing
    is kept after it. *)
Fixpoint rstrip (s : string) : string :=
  match s with
  | "" => ""
  | String c s' =>
      match rstrip s' with
      | "" => if is_space c then "" else String c ""
      | kept => String c kept
      end
  end.

(** [s.strip()]. *)
Definition strip (s : string) : string := rstrip (lstrip s).

(** Truth value of a string in a condition: non-empty. *)
Definition truthy (s : string) : bool :=
  match s with "" => false | _ => true end.

Definition is_newline (c : ascii) : bool :=
  match c with "010"%char => true | _ => false end.

(** Iterating over [io.StringIO(s)]: the text is cut after every line feed
    (the default [newline] of [StringIO] splits on line feeds only and keeps
    them). *)
Fixpoint readlines (s : string) : list string :=
  match s with
  | "" => []
  | String c s' =>
      if is_newline c then String c "" :: readlines s'
      else match readlines s' with
           | [] => [String c ""]
           | line :: lines => String c line :: lines
           end
  end.

(** The lines still to be read when reading stands inside a line whose
    remaining text is [s]: the rest of that line, then the lines after it. *)
Definition pending_lines (s : string) : list string :=
  match readlines s with [] => [""] | ls => ls end.

End PyStr.

(** ** The CSV reader

    [csv.reader] with its default dialect ([excel]: comma delimiter, double-quote
    quote character, [doublequote], no escape character, no
    [skipinitialspace], not [strict]), following the state machine of
    CPython's [_csv] module ([parse_process_char], [parse_save_field],
    [parse_add_char], [Reader_iternext]) as of Python 3.11.  The states for
    escape characters cannot be entered without an escape character and are
    left out. *)

Module Csv.

Inductive ParserState :=
  | START_RECORD | START_FIELD | IN_FIELD
  | IN_QUOTED_FIELD | QUOTE_IN_QUOTED_FIELD | EAT_CRNL.

Global Instance ParserState_eq_dec : EqDecision ParserState.
Proof. solve_decision. Defined.

Record Reader := {
  state : ParserState;
  fields : list string;   (* fields saved so far for the current record *)
  field : string          (* characters of the field being read *)
}.

(** [csv.field_size_limit()], 128 * 1024 characters. *)
Definition field_limit : Z := 131072.

Definition delimiter : ascii := ","%char.
Definition quotechar : ascii := "034"%char.

Definition is_eol_char (c : ascii) : bool :=
  match c with "010"%char | "013"%char => true | _ => false end.

(** [parse_reset]. *)
Definition parse_reset : Reader :=
  {| state := START_RECORD; fields := []; field := "" |}.

(** [parse_add_char]: raises when the field is already at the limit. *)
Definition parse_add_char (r : Reader) (c : ascii) : option Reader :=
  if decide (field_limit <= Z.of_nat (String.length (field r))) then None
  else Some {| state := state r; fields := fields r;
               field := field r +:+ String c "" |}.

(** [parse_save_field]. *)
Definition parse_save_field (r : Reader) : Reader :=
  {| state := state r; fields := fields r ++ [field r]; field := "" |}.

Definition set_state (st : ParserState) (r : Reader) : Reader :=
  {| state := st; fields := fields r; field := field r |}.

(** [parse_process_char] from state [START_FIELD] (also reached by falling
    through from [START_RECORD]).  [None] as a character is the end-of-line
    marker [EOL]; [None] as a result is a raised [csv.Error]. *)
Definition process_start_field (r : Reader) (c : option ascii) : option Reader :=
  match c with
  | None => Some (set_state START_RECORD (parse_save_field r))
  | Some ch =>
      if is_eol_char ch then Some (set_state EAT_CRNL (parse_save_field r))
      else if decide (ch = quotechar) then Some (set_state IN_QUOTED_FIELD r)
      else if decide (ch = delimiter) then Some (set_state START_FIELD (parse_save_field r))
      else set_state IN_FIELD <$> parse_add_char r ch
  end.

Definition parse_process_char (r : Reader) (c : option ascii) : option Reader :=
  match state r with
  | START_RECORD =>
      match c with
      | None => Some r                      (* empty line: the record is [] *)
      | Some ch =>
          if is_eol_char ch then Some (set_state EAT_CRNL r)
          else process_start_field r c      (* fall through *)
      end
  | START_FIELD => process_start_field r c
  | IN_FIELD =>
      match c with
      | None => Some (set_state START_RECORD (parse_save_field r))
      | Some ch =>
          if is_eol_char ch then Some (set_state EAT_CRNL (parse_save_field r))
          else if decide (ch = delimiter) then Some (set_state START_FIELD (parse_save_field r))
          else parse_add_char r ch
      end
  | IN_QUOTED_FIELD =>
      match c with
      | None => Some r
      | Some ch =>
          if decide (ch = quotechar) then Some (set_state QUOTE_IN_QUOTED_FIELD r)
          else parse_add_char r ch
      end
  | QUOTE_IN_QUOTED_FIELD =>
      match c with
      | None => Some (set_state START_RECORD (parse_save_field r))
      | Some ch =>
          if decide (ch = quotechar) then set_state IN_QUOTED_FIELD <$> parse_add_char r ch
          else if decide (ch = delimiter) then Some (set_state START_FIELD (parse_save_field r))
          else if is_eol_char ch then Some (set_state EAT_CRNL (parse_save_field r))
          else set_state IN_FIELD <$> parse_add_char r ch
      end
  | EAT_CRNL =>
      match c with
      | None => Some (set_state START_RECORD r)
      | Some ch => if is_eol_char ch then Some r else None
      end
  end.

(** The inner [while (linelen--)] loop of [Reader_iternext]. *)
Fixpoint process_line (r : Reader) (line : string) : option Reader :=
  match line with
  | "" => Some r
  | String c rest => r' ← parse_process_char r (Some c); process_line r' rest
  end.

(** [list(csv.reader(lines))]: [Reader_iternext] called until the input is
    exhausted.  Each call starts from [parse_reset] and feeds whole lines,
    each followed by [EOL], until the state is [START_RECORD] again; when
    the input ends inside a record, the pending field is saved and the
    record returned if the field is non-empty or a quote is open.  [None]
    is a raised [csv.Error]. *)
Fixpoint read_rows (r : Reader) (lines : list string) : option (list (list string)) :=
  match lines with
  | [] =>
      if decide (field r <> "" \/ state r = IN_QUOTED_FIELD)
      then Some [fields (parse_save_field r)]
      else Some []
  | line :: rest =>
      r1 ← process_line r line;
      r2 ← parse_process_char r1 None;
      if decide (state r2 = START_RECORD)
      then rows ← read_rows parse_reset rest; Some (fields r2 :: rows)
      else read_rows r2 rest
  end.

(** [list(csv.reader(io.StringIO(text)))]. *)
Definition reader_rows (text : string) : option (list (list string)) :=
  read_rows parse_reset (PyStr.readlines text).

End Csv.

(** ** Response parsing and the result lines of a downloaded batch *)

Module Response.
Import PyStr.

(** The seven columns of a parsed response, keyed as in the scripts. *)
Record ClassificationResult := {
  CompanyID : string;
  CompanyName : string;
  AI_native : string;
  Confidence_1to5 : string;
  Reasons_3_points : string;
  Sources_used : string;
  Verification_critique : string
}.

Definition empty_result : ClassificationResult := {|
  CompanyID := ""; CompanyName := ""; AI_native := ""; Confidence_1to5 := "";
  Reasons_3_points := ""; Sources_used := ""; Verification_critique := ""
|}.

(** What the scripts print while parsing; the text of a caught exception is
    not represented. *)
Inductive Printed :=
  | WARNING_Failed_to_parse_result         (* [WARNING] Failed to parse result: e *)
  | WARNING_Content (head : string)        (* [WARNING] Content: content[:200]... *)
  | WARNING_Failed_to_parse_line           (* [WARNING] Failed to parse line: e *)
  | OK_Saved_results (count : nat)         (* [OK] Saved n results to results_csv *)
  | WARNING_No_valid_results               (* [WARNING] No valid results parsed .. *)
  | Downloaded_results (count : nat)       (* [n] Downloaded (count results) *)
  | WARNING_No_valid_results_parallel.     (* [n] WARNING: No valid results *)

(** One line of a downloaded result file after [json.loads] and the lookup
    [response_obj["response"]["body"]["choices"][0]["message"]["content"]]:
    either of the two raised, or the content is JSON [null], or it is a
    string. *)
Inductive RawLine :=
  | Undecodable
  | NullContent
  | Content (ai_response : string).

(** The first seven entries of a row with at least seven, stripped. *)
Definition result_of_row (data_row : list string) : option ClassificationResult :=
  match data_row with
  | f0 :: f1 :: f2 :: f3 :: f4 :: f5 :: f6 :: _ =>
      Some {| CompanyID := strip f0; CompanyName := strip f1;
              AI_native := strip f2; Confidence_1to5 := strip f3;
              Reasons_3_points := strip f4; Sources_used := strip f5;
              Verification_critique := strip f6 |}
  | _ => None
  end.

(** [parse_classification_result] of the sequential script, with what it
    prints. *)
Definition parse_classification_result (content : string)
  : ClassificationResult * list Printed :=
  match Csv.reader_rows (strip content) with
  | Some rows =>
      match rows with
      | data_row :: _ =>
          match result_of_row data_row with     (* len(data_row) >= 7 *)
          | Some result => (result, [])
          | None => (empty_result, [])
          end
      | [] => (empty_result, [])
      end
  | None =>
      (empty_result,
       [WARNING_Failed_to_parse_result;
        WARNING_Content (String.substring 0 200 content)])
  end.

(** The body of the [for line in f] loop of [download_batch_results]
    (sequential script): the rows it appends and what it prints. *)
Definition parse_line_sequential (line : RawLine)
  : list ClassificationResult * list Printed :=
  match line with
  | Undecodable => ([], [WARNING_Failed_to_parse_line])
  | NullContent =>
      (* [content.strip()] raises inside [parse_classification_result]; its
         handler prints, then raises on [content[:200]] *)
      ([], [WARNING_Failed_to_parse_result; WARNING_Failed_to_parse_line])
  | Content ai_response =>
      let '(parsed, printed) := parse_classification_result ai_response in
      if truthy (CompanyID parsed) then ([parsed], printed) else ([], printed)
  end.

(** The body of the [for line in f] loop of [download_all_results]
    (parallel script), where every exception is swallowed by [except: pass]. *)
Definition parse_line_parallel (line : RawLine)
  : list ClassificationResult * list Printed :=
  match line with
  | Undecodable | NullContent => ([], [])
  | Content ai_response =>
      match Csv.reader_rows (strip ai_response) with
      | Some (row0 :: _) =>
          match result_of_row row0 with         (* len(rows[0]) >= 7 *)
          | Some result => ([result], [])
          | None => ([], [])
          end
      | _ => ([], [])
      end
  end.

(** The whole loop: [parsed_results] and the printed lines accumulate in
    order. *)
Fixpoint parse_lines (body : RawLine -> list ClassificationResult * list Printed)
    (lines : list RawLine)
    (parsed_results : list ClassificationResult) (printed : list Printed)
  : list ClassificationResult * list Printed :=
  match lines with
  | [] => (parsed_results, printed)
  | line :: rest =>
      let '(rows, out) := body line in
      parse_lines body rest (parsed_results ++ rows) (printed ++ out)
  end.

(** The parsing half of [download_batch_results]: the table written to
    [results_csv], if any, and everything printed. *)
Definition parse_results_sequential (lines : list RawLine)
  : option (list ClassificationResult) * list Printed :=
  let '(parsed_results, printed) := parse_lines parse_line_sequential lines [] [] in
  match parsed_results with
  | [] => (None, printed ++ [WARNING_No_valid_results])
  | _ => (Some parsed_results, printed ++ [OK_Saved_results (length parsed_results)])
  end.

(** The parsing half of one iteration of [download_all_results]. *)
Definition parse_results_parallel (lines : list RawLine)
  : option (list ClassificationResult) * list Printed :=
  let '(parsed_results, printed) := parse_lines parse_line_parallel lines [] [] in
  match parsed_results with
  | [] => (None, printed ++ [WARNING_No_valid_results_parallel])
  | _ => (Some parsed_results, printed ++ [Downloaded_results (length parsed_results)])
  end.

(** The delimiter-aware split of a response, as both scripts compute it. *)
Definition csv_split (ai_response : string) : option (list (list string)) :=
  Csv.reader_rows (strip ai_response).

(** The split succeeds and its first row, if any, has fewer than seven
    fields. *)
Definition fewer_than_seven_fields (ai_response : string) : Prop :=
  match csv_split ai_response with
  | Some [] => True
  | Some (row0 :: _) => (length row0 < 7)%nat
  | None => False
  end.

End Response.

(** ** The quoting convention of a result line

    The encoding side of the round trip, as the response format prescribes
    it: fields joined by commas, a field enclosed in double quotes when it
    contains a comma, a double quote, a carriage return or a line feed (or
    by choice), and double quotes inside a quoted field doubled. *)

Module Quoting.

Definition is_special (c : ascii) : bool :=
  bool_decide (c = Csv.delimiter) || bool_decide (c = Csv.quotechar) || Csv.is_eol_char c.

Fixpoint needs_quoting (f : string) : bool :=
  match f with
  | "" => false
  | String c f' => is_special c || needs_quoting f'
  end.

Fixpoint escape_quotes (f : string) : string :=
  match f with
  | "" => ""
  | String c f' =>
      if decide (c = Csv.quotechar) then String c (String c (escape_quotes f'))
      else String c (escape_quotes f')
  end.

Definition quote_field (f : string) : string :=
  String Csv.quotechar (escape_quotes f +:+ String Csv.quotechar "").

Definition encode_field (by_choice : bool) (f : string) : string :=
  if by_choice || needs_quoting f then quote_field f else f.

(** Fields joined by the delimiter; [quoted i] tells whether field [i] is
    quoted by choice. *)
Fixpoint join_fields (quoted : nat -> bool) (i : nat) (fs : list string) : string :=
  match fs with
  | [] => ""
  | [f] => encode_field (quoted i) f
  | f :: fs' =>
      encode_field (quoted i) f +:+ String Csv.delimiter (join_fields quoted (S i) fs')
  end.

Definition fields_of (r : Response.ClassificationResult) : list string :=
  [Response.CompanyID r; Response.CompanyName r; Response.AI_native r;
   Response.Confidence_1to5 r; Response.Reasons_3_points r;
   Response.Sources_used r; Response.Verification_critique r].

(** The result line that encodes the seven values of [r]. *)
Definition encode_result (quoted : nat -> bool) (r : Response.ClassificationResult)
  : string :=
  join_fields quoted 0 (fields_of r).

(** A value fits a CSV field. *)
Definition fits (f : string) : Prop :=
  Z.of_nat (String.length f) <= Csv.field_limit.

(** Every value of [r] fits a CSV field. *)
Definition within_field_limit (r : Response.ClassificationResult) : Prop :=
  Forall fits (fields_of r).

(** The value an encoded first field stands for once the line has been
    left-stripped, and likewise for the last field and right-stripping. *)
Definition lstripped_value (q : bool) (f : string) : string :=
  if q || needs_quoting f then f else PyStr.lstrip f.
Definition rstripped_value (q : bool) (f : string) : string :=
  if q || needs_quoting f then f else PyStr.rstrip f.

(** The values of [r], each stripped of surrounding whitespace. *)
Definition stripped (r : Response.ClassificationResult) : Response.ClassificationResult := {|
  Response.CompanyID := PyStr.strip (Response.CompanyID r);
  Response.CompanyName := PyStr.strip (Response.CompanyName r);
  Response.AI_native := PyStr.strip (Response.AI_native r);
  Response.Confidence_1to5 := PyStr.strip (Response.Confidence_1to5 r);
  Response.Reasons_3_points := PyStr.strip (Response.Reasons_3_points r);
  Response.Sources_used := PyStr.strip (Response.Sources_used r);
  Response.Verification_critique := PyStr.strip (Response.Verification_critique r)
|}.

(** No value of [r] starts or ends with whitespace. *)
Definition no_surrounding_whitespace (r : Response.ClassificationResult) : Prop :=
  Forall (fun f => PyStr.strip f = f) (fields_of r).

End Quoting.

(** ** Sample responses *)

Module Samples.
Import Response.

(** Quote a field only when it needs it. *)
Definition minimal_quoting : nat -> bool := fun _ => false.

Definition clean_result : ClassificationResult := {|
  CompanyID := "c-101";
  CompanyName := "Acme Robotics";
  AI_native := "1";
  Confidence_1to5 := "4";
  Reasons_3_points := "builds ML models, ships them, sells inference";
  Sources_used := "short description";
  Verification_critique := "none"
|}.

(** As [clean_result], with a rationale that starts with a space. *)
Definition padded_result : ClassificationResult := {|
  CompanyID := "c-101";
  CompanyName := "Acme Robotics";
  AI_native := "1";
  Confidence_1to5 := "4";
  Reasons_3_points := " builds ML models, ships them, sells inference";
  Sources_used := "short description";
  Verification_critique := "none"
|}.

(** A well-formed response of seven fields. *)
Definition good_response : string :=
  "c-103,Delta Labs,0,5,no AI in the product,short description,none".

Definition good_row : ClassificationResult := {|
  CompanyID := "c-103";
  CompanyName := "Delta Labs";
  AI_native := "0";
  Confidence_1to5 := "5";
  Reasons_3_points := "no AI in the product";
  Sources_used := "short description";
  Verification_critique := "none"
|}.

(** A response that lacks its seventh field. *)
Definition short_response : string :=
  "c-102,Beta Corp,0,3,a marketplace for used books,short description".

(** A response of seven fields whose identifier is empty. *)
Definition blank_id_response : string :=
  ",Gamma LLC,1,3,sells an AI assistant,short description,none".

End Samples.

(** ** The world of the orchestration scripts

    Durable artifacts, the remote batch service, the clock and what is
    printed.  Each artifact directory holds files of one kind, keyed by
    their path as the scripts write it.  Tables are kept as lists of rows:
    the CSV text written by [to_csv] and the type inference of [read_csv]
    are not represented.  Remote calls take no time; the clock moves only
    in [time.sleep]. *)

Module World.
Import Response.

(** [str(n)] for an integer, as in an f-string. *)
Definition str (n : Z) : string := NilZero.string_of_int (Z.to_int n).

Definition startswith (s p : string) : bool := String.prefix p s.
Definition endswith (s p : string) : bool :=
  String.prefix (String.rev p) (String.rev s).

(** [s.removeprefix(p)] when [s] starts with [p]. *)
Fixpoint after_prefix (p s : string) : option string :=
  match p, s with
  | "", _ => Some s
  | String a p', String b s' => if decide (a = b) then after_prefix p' s' else None
  | _, _ => None
  end.

Definition requests_path (batch_num : Z) : string :=
  "batch_files/batch_requests/batch_" +:+ str batch_num +:+ "_requests.jsonl".
Definition id_path (batch_num : Z) : string :=
  "batch_files/batch_ids/batch_" +:+ str batch_num +:+ "_id.txt".
Definition results_path (batch_num : Z) : string :=
  "batch_files/batch_results/batch_" +:+ str batch_num +:+ "_results.jsonl".
Definition output_path (batch_num : Z) : string :=
  "batch_files/batch_outputs/batch_" +:+ str batch_num +:+ "_output.csv".

(** The status strings of the batch API. *)
Inductive Status :=
  | validating | failed | in_progress | finalizing
  | completed | expired | cancelling | cancelled.

Global Instance Status_eq_dec : EqDecision Status.
Proof. solve_decision. Defined.

(** The terminal states of the batch lifecycle. *)
Definition terminal (s : Status) : bool :=
  match s with
  | completed | failed | expired | cancelled => true
  | _ => false
  end.

(** What [client.batches.retrieve] returns, as far as the scripts use it
    (the request counts are only printed). *)
Record Batch := { status : Status; output_file_id : option string }.

(** The remote service: what each call returns at a given time; [None] is
    a raised exception. *)
Record Remote := {
  on_files_create : string -> list string -> Z -> option string;
  on_batches_create : string -> Z -> option string;
  on_batches_retrieve : string -> Z -> option Batch;
  on_files_content : string -> Z -> option (list RawLine)
}.

Inductive Call :=
  | files_create (jsonl_filename : string)
  | batches_create (input_file_id : string)
  | batches_retrieve (batch_id : string)
  | files_content (file_id : string).

Global Instance Call_eq_dec : EqDecision Call.
Proof. solve_decision. Defined.

(** A batch whose status, whenever queried, is neither [completed] nor
    [failed] (or whose query fails). *)
Definition never_completed_or_failed (remote : Remote) (id : string) : Prop :=
  forall t, match on_batches_retrieve remote id t with
            | Some batch => status batch <> completed /\ status batch <> failed
            | None => True
            end.

(** A call that submits work to the remote service. *)
Definition is_submission (c : Call) : bool :=
  match c with files_create _ | batches_create _ => true | _ => false end.

(** A call that downloads results. *)
Definition is_download (c : Call) : bool :=
  match c with files_content _ => true | _ => false end.

(** A status query. *)
Definition is_poll (c : Call) : bool :=
  match c with batches_retrieve _ => true | _ => false end.

(** The lines the scripts print that report a skip, an outcome or a
    failure, by the batch they concern; progress lines are left out, and so
    is the text of a caught exception. *)
Inductive Report :=
  | Already_exists (batch_num : Z)          (* request file exists, creation skipped *)
  | Created (batch_num : Z)
  | File_too_large (batch_num : Z)          (* [ERROR] File size .. exceeds limit *)
  | Already_uploaded (batch_num : Z)
  | Uploaded (batch_num : Z)
  | Upload_failed (batch_num : Z)           (* [ERROR] Failed to upload batch: e *)
  | Exiting (batch_num : Z)                 (* [ERROR] Failed to upload batch n. Exiting. *)
  | Id_file_not_found (batch_num : Z)
  | No_batch_id (batch_num : Z)
  | Status_seen (batch_num : Z) (s : Status)
  | Status_check_failed (batch_num : Z)
  | Did_not_complete (batch_num : Z) (s : Status)
  | All_batches_completed
  | Skipped_no_batch_id (batch_num : Z)
  | Already_downloaded (batch_num : Z)
  | Not_completed (batch_num : Z) (s : Status)
  | No_output_file_id (batch_num : Z)
  | Download_failed (batch_num : Z)
  | Parsing (p : Printed)
  | No_batch_output_files_found
  | Loaded (batch_file : string) (rows : nat)
  | Merged (rows : nat).

Record FS := {
  batch_requests : gmap string (list string);
  batch_ids : gmap string string;
  batch_results : gmap string (list RawLine);
  batch_outputs : gmap string (list ClassificationResult);
  output_csv : option (list ClassificationResult)
}.

Record World := {
  fs : FS;
  clock : Z;
  calls : list (Z * Call);     (* remote calls made so far, with their time *)
  printed : list Report
}.

(** How a run of a script (or of a part of it) ends. *)
Inductive Outcome (A : Type) :=
  | Returned (a : A) (w : World)
  | Raised (w : World)        (* an uncaught exception ended the script *)
  | Running (w : World).      (* still in a polling loop when the fuel ran out *)
Global Arguments Returned {A} a w.
Global Arguments Raised {A} w.
Global Arguments Running {A} w.

Definition M (A : Type) : Type := World -> Outcome A.

Global Instance M_ret : MRet M := fun A a w => Returned a w.
Global Instance M_bind : MBind M := fun A B k m w =>
  match m w with
  | Returned a w' => k a w'
  | Raised w' => Raised w'
  | Running w' => Running w'
  end.

Definition pass : M unit := mret tt.
Definition raise {A} : M A := fun w => Raised w.
Definition out_of_fuel {A} : M A := fun w => Running w.
Definition get {A} (f : World -> A) : M A := fun w => Returned (f w) w.
Definition modify (f : World -> World) : M unit := fun w => Returned tt (f w).

Definition print (r : Report) : M unit :=
  modify (fun w => {| fs := fs w; clock := clock w; calls := calls w;
                      printed := printed w ++ [r] |}).

Definition sleep (seconds : Z) : M unit :=
  modify (fun w => {| fs := fs w; clock := clock w + seconds; calls := calls w;
                      printed := printed w |}).

(** Record a remote call at the current time. *)
Definition call (c : Call) : M unit :=
  modify (fun w => {| fs := fs w; clock := clock w;
                      calls := calls w ++ [(clock w, c)]; printed := printed w |}).

Definition set_fs (f : FS -> FS) : M unit :=
  modify (fun w => {| fs := f (fs w); clock := clock w; calls := calls w;
                      printed := printed w |}).

Definition write_requests (path : string) (lines : list string) : M unit :=
  set_fs (fun d => {| batch_requests := <[path := lines]> (batch_requests d);
                      batch_ids := batch_ids d; batch_results := batch_results d;
                      batch_outputs := batch_outputs d; output_csv := output_csv d |}).

Definition remove_requests (path : string) : M unit :=
  set_fs (fun d => {| batch_requests := delete path (batch_requests d);
                      batch_ids := batch_ids d; batch_results := batch_results d;
                      batch_outputs := batch_outputs d; output_csv := output_csv d |}).

Definition write_id (path : string) (batch_id : string) : M unit :=
  set_fs (fun d => {| batch_requests := batch_requests d;
                      batch_ids := <[path := batch_id]> (batch_ids d);
                      batch_results := batch_results d;
                      batch_outputs := batch_outputs d; output_csv := output_csv d |}).

Definition write_results (path : string) (lines : list RawLine) : M unit :=
  set_fs (fun d => {| batch_requests := batch_requests d; batch_ids := batch_ids d;
                      batch_results := <[path := lines]> (batch_results d);
                      batch_outputs := batch_outputs d; output_csv := output_csv d |}).

Definition write_output (path : string) (rows : list ClassificationResult) : M unit :=
  set_fs (fun d => {| batch_requests := batch_requests d; batch_ids := batch_ids d;
                      batch_results := batch_results d;
                      batch_outputs := <[path := rows]> (batch_outputs d);
                      output_csv := output_csv d |}).

Definition write_output_csv (rows : list ClassificationResult) : M unit :=
  set_fs (fun d => {| batch_requests := batch_requests d; batch_ids := batch_ids d;
                      batch_results := batch_results d;
                      batch_outputs := batch_outputs d; output_csv := Some rows |}).

(** The four artifact directories of [w'] are those of [w]. *)
Definition same_artifacts (w w' : World) : Prop :=
  batch_requests (fs w') = batch_requests (fs w) /\
  batch_ids (fs w') = batch_ids (fs w) /\
  batch_results (fs w') = batch_results (fs w) /\
  batch_outputs (fs w') = batch_outputs (fs w).

(** From [w] to [w'] only status queries were added to the remote calls. *)
Definition only_polls_added (w w' : World) : Prop :=
  exists added, calls w' = calls w ++ added /\
                Forall (fun c => is_poll c.2 = true) added.

(** From [w] to [w'] no artifact changed, nothing was submitted and
    nothing was downloaded. *)
Definition quiet (w w' : World) : Prop :=
  same_artifacts w w' /\ only_polls_added w w'.

(** An entry of [batch_ids] whose parsed table is on disk in [w] and whose
    batch, if it has an id, is reported [completed] or [failed] whenever
    queried. *)
Definition settled (remote : Remote) (w : World) (entry : Z * option string) : Prop :=
  is_Some (batch_outputs (fs w) !! output_path entry.1) /\
  exists id, entry.2 = Some id /\
    (PyStr.truthy id = true ->
     forall t, exists batch,
       on_batches_retrieve remote id t = Some batch /\
       (status batch = completed \/ status batch = failed)).

(** [os.path.getsize] of a request file: every line and its line feed. *)
Definition getsize (lines : list string) : Z :=
  foldr (fun line acc => Z.of_nat (String.length line) + 1 + acc) 0 lines.

Fixpoint print_all (ps : list Printed) : M unit :=
  match ps with
  | [] => mret tt
  | p :: ps' => print (Parsing p);; print_all ps'
  end.

(** [for x in xs: body(x)]. *)
Fixpoint for_each {A} (xs : list A) (body : A -> M unit) : M unit :=
  match xs with
  | [] => mret tt
  | x :: xs' => body x;; for_each xs' body
  end.

End World.

(** ** The sequential script, [MTA_multi_batch_short_only.py] *)

Module Sequential.
Import Partitioner PyStr Response World.

Section Script.

Context {Row : Type}.
Variable cfg : Config.
(** The rows of [INPUT_CSV]. *)
Variable df : list Row.
(** [json.dumps(request)] for the row with index label [idx]. *)
Variable request_line : Z -> Row -> string.
Variable remote : Remote.

(** The request lines of a batch; [iterrows] yields the index labels of the
    full dataset. *)
Definition batch_lines (batch_num num_batches startups_per_batch : Z) : list string :=
  let start_idx := (batch_num - 1) * startups_per_batch in
  imap (fun i row => request_line (start_idx + Z.of_nat i) row)
       (batch_df batch_num num_batches startups_per_batch df).

(** [create_single_batch_file]. *)
Definition create_single_batch_file (batch_num num_batches startups_per_batch : Z)
  : M string :=
  let jsonl_filename := requests_path batch_num in
  existing ← get (fun w => batch_requests (fs w) !! jsonl_filename);
  match existing with
  | Some _ => print (Already_exists batch_num);; mret jsonl_filename
  | None =>
      write_requests jsonl_filename
        (batch_lines batch_num num_batches startups_per_batch);;
      print (Created batch_num);;
      mret jsonl_filename
  end.

(** [upload_batch]: no check for an existing batch-id file precedes the
    upload. *)
Definition upload_batch (batch_num : Z) : M (option string) :=
  let jsonl_filename := requests_path batch_num in
  let batch_id_file := id_path batch_num in
  existing ← get (fun w => batch_requests (fs w) !! jsonl_filename);
  match existing with
  | None => raise                           (* os.path.getsize: no such file *)
  | Some lines =>
      if decide (MAX_FILE_SIZE_MB cfg * (1024 * 1024) < getsize lines)
      then print (File_too_large batch_num);; mret None
      else
        now ← get clock;
        call (files_create jsonl_filename);;
        match on_files_create remote jsonl_filename lines now with
        | None => print (Upload_failed batch_num);; mret None
        | Some file_id =>
            call (batches_create file_id);;
            match on_batches_create remote file_id now with
            | None => print (Upload_failed batch_num);; mret None
            | Some batch_id =>
                write_id batch_id_file batch_id;;
                print (Uploaded batch_num);;
                mret (Some batch_id)
            end
        end
  end.

(** The [while True] loop of [check_single_batch_status]; [fuel] bounds the
    number of status checks. *)
Fixpoint poll_until_terminal (fuel : nat) (batch_num : Z) (batch_id : string)
  : M Status :=
  match fuel with
  | O => out_of_fuel
  | S fuel' =>
      now ← get clock;
      call (batches_retrieve batch_id);;
      match on_batches_retrieve remote batch_id now with
      | Some batch =>
          print (Status_seen batch_num (status batch));;
          match status batch with
          | completed => mret completed
          | failed => mret failed
          | expired => mret expired
          | cancelled => mret cancelled
          | _ => sleep 60;; poll_until_terminal fuel' batch_num batch_id
          end
      | None =>
          print (Status_check_failed batch_num);;
          sleep 60;;
          poll_until_terminal fuel' batch_num batch_id
      end
  end.

(** [check_single_batch_status]. *)
Definition check_single_batch_status (fuel : nat) (batch_num : Z) : M Status :=
  stored ← get (fun w => batch_ids (fs w) !! id_path batch_num);
  match stored with
  | None => print (Id_file_not_found batch_num);; mret failed
  | Some text => poll_until_terminal fuel batch_num (strip text)
  end.

(** [download_batch_results]: no check for an existing parsed table
    precedes the download. *)
Definition download_batch_results (batch_num : Z) : M unit :=
  stored ← get (fun w => batch_ids (fs w) !! id_path batch_num);
  match stored with
  | None => print (Id_file_not_found batch_num)
  | Some text =>
      let batch_id := strip text in
      now ← get clock;
      call (batches_retrieve batch_id);;
      match on_batches_retrieve remote batch_id now with
      | None => print (Download_failed batch_num)
      | Some batch =>
          if decide (status batch <> completed)
          then print (Not_completed batch_num (status batch))
          else
            match output_file_id batch with
            | None => print (No_output_file_id batch_num)
            | Some file_id =>
                if negb (truthy file_id) then print (No_output_file_id batch_num)
                else
                  call (files_content file_id);;
                  match on_files_content remote file_id now with
                  | None => print (Download_failed batch_num)
                  | Some lines =>
                      write_results (results_path batch_num) lines;;
                      let '(table, out) := parse_results_sequential lines in
                      match table with
                      | Some rows =>
                          write_output (output_path batch_num) rows;;
                          print_all out
                      | None => print_all out
                      end
                  end
            end
      end
  end.

(** The names in [os.listdir("batch_files/batch_outputs")]. *)
Definition listdir_outputs (d : FS) : list string :=
  omap (after_prefix "batch_files/batch_outputs/")
       (fst <$> map_to_list (batch_outputs d)).

(** The list [batch_files] of [merge_all_results]: the paths of the
    per-batch tables in the order [sorted] gives them, which is the order
    of the paths as strings (code point by code point).  The paths are
    distinct, so the sorted list does not depend on the sorting algorithm
    or on the order of the directory listing. *)
Definition batch_files (d : FS) : list string :=
  merge_sort String.le
    ((fun f => "batch_files/batch_outputs" +:+ "/" +:+ f) <$>
     filter (fun f => startswith f "batch_" && endswith f "_output.csv" = true)
            (listdir_outputs d)).

Fixpoint load_all (paths : list string)
    (all_results : list (list ClassificationResult))
  : M (list (list ClassificationResult)) :=
  match paths with
  | [] => mret all_results
  | batch_file :: rest =>
      table ← get (fun w => batch_outputs (fs w) !! batch_file);
      match table with
      | Some rows =>
          print (Loaded batch_file (length rows));;
          load_all rest (all_results ++ [rows])
      | None => load_all rest all_results      (* [read_csv] raised *)
      end
  end.

Definition merge_all_results : M unit :=
  paths ← get (fun w => batch_files (fs w));
  match paths with
  | [] => print No_batch_output_files_found
  | _ =>
      all_results ← load_all paths [];
      match all_results with
      | [] => pass
      | _ =>
          let final_df := concat all_results in
          write_output_csv final_df;;
          print (Merged (length final_df))
      end
  end.

(** The [for batch_num in range(START_BATCH, num_batches + 1)] loop of
    [main]; the result tells whether the loop ran to its end, or [main]
    returned from inside it. *)
Fixpoint process_batches (fuel : nat) (batch_nums : list Z)
    (num_batches startups_per_batch : Z) : M bool :=
  match batch_nums with
  | [] => mret true
  | batch_num :: rest =>
      create_single_batch_file batch_num num_batches startups_per_batch;;
      batch_id ← upload_batch batch_num;
      if negb (from_option truthy false batch_id)
      then print (Exiting batch_num);; mret false
      else
        final ← check_single_batch_status fuel batch_num;
        if decide (final <> completed)
        then
          print (Did_not_complete batch_num final);;
          process_batches fuel rest num_batches startups_per_batch
        else
          download_batch_results batch_num;;
          remove_requests (requests_path batch_num);;
          process_batches fuel rest num_batches startups_per_batch
  end.

(** [main]. *)
Definition main (fuel : nat) : M unit :=
  match calculate_batch_sizes_sequential cfg (Z.of_nat (length df)) with
  | None => raise
  | Some (num_batches, startups_per_batch) =>
      finished ← process_batches fuel (seqZ 1 num_batches)
                   num_batches startups_per_batch;
      if (finished : bool) then merge_all_results else pass
  end.

End Script.
End Sequential.

(** ** The parallel script, [MTA_multi_batch_PARALLEL.py] *)

Module Parallel.
Import Partitioner PyStr Response World.

Section Script.

Context {Row : Type}.
Variable cfg : Config.
Variable df : list Row.
Variable request_line : Z -> Row -> string.
Variable remote : Remote.

(** [create_all_batch_files]. *)
Definition create_all_batch_files (num_batches startups_per_batch : Z) : M unit :=
  for_each (seqZ 1 num_batches) (fun batch_num =>
    let jsonl_filename := requests_path batch_num in
    existing ← get (fun w => batch_requests (fs w) !! jsonl_filename);
    match existing with
    | Some _ => print (Already_exists batch_num)
    | None =>
        write_requests jsonl_filename
          (Sequential.batch_lines df request_line batch_num num_batches
             startups_per_batch);;
        print (Created batch_num)
    end).

(** One iteration of the loop of [upload_all_batches]: the entry appended
    to [batch_ids]. *)
Definition upload_one (batch_num : Z) : M (Z * option string) :=
  let jsonl_filename := requests_path batch_num in
  let batch_id_file := id_path batch_num in
  stored ← get (fun w => batch_ids (fs w) !! batch_id_file);
  match stored with
  | Some text =>
      print (Already_uploaded batch_num);;
      mret (batch_num, Some (strip text))
  | None =>
      existing ← get (fun w => batch_requests (fs w) !! jsonl_filename);
      match existing with
      | None => print (Upload_failed batch_num);; mret (batch_num, None)
      | Some lines =>
          now ← get clock;
          call (files_create jsonl_filename);;
          match on_files_create remote jsonl_filename lines now with
          | None => print (Upload_failed batch_num);; mret (batch_num, None)
          | Some file_id =>
              call (batches_create file_id);;
              match on_batches_create remote file_id now with
              | None => print (Upload_failed batch_num);; mret (batch_num, None)
              | Some batch_id =>
                  write_id batch_id_file batch_id;;
                  print (Uploaded batch_num);;
                  sleep 1;;
                  mret (batch_num, Some batch_id)
              end
          end
      end
  end.

(** [upload_all_batches]. *)
Fixpoint upload_each (batch_nums : list Z) (batch_ids : list (Z * option string))
  : M (list (Z * option string)) :=
  match batch_nums with
  | [] => mret batch_ids
  | batch_num :: rest =>
      entry ← upload_one batch_num;
      upload_each rest (batch_ids ++ [entry])
  end.

Definition upload_all_batches (num_batches : Z) : M (list (Z * option string)) :=
  upload_each (seqZ 1 num_batches) [].

(** One status check of [monitor_all_batches]: the [for] loop over
    [batch_ids], threading [all_done]. *)
Fixpoint check_all (batch_ids : list (Z * option string)) (all_done : bool)
  : M bool :=
  match batch_ids with
  | [] => mret all_done
  | (batch_num, batch_id) :: rest =>
      match batch_id with
      | Some id =>
          if truthy id then
            now ← get clock;
            call (batches_retrieve id);;
            match on_batches_retrieve remote id now with
            | Some batch =>
                print (Status_seen batch_num (status batch));;
                match status batch with
                | completed => check_all rest all_done
                | failed => check_all rest all_done
                | _ => check_all rest false
                end
            | None =>
                print (Status_check_failed batch_num);;
                check_all rest false
            end
          else print (No_batch_id batch_num);; check_all rest all_done
      | None => print (No_batch_id batch_num);; check_all rest all_done
      end
  end.

(** [monitor_all_batches]; [fuel] bounds the number of status checks. *)
Fixpoint monitor_all_batches (fuel : nat) (batch_ids : list (Z * option string))
  : M unit :=
  match fuel with
  | O => out_of_fuel
  | S fuel' =>
      all_done ← check_all batch_ids true;
      if (all_done : bool) then print All_batches_completed
      else sleep 60;; monitor_all_batches fuel' batch_ids
  end.

(** One iteration of the loop of [download_all_results]. *)
Definition download_one (entry : Z * option string) : M unit :=
  let '(batch_num, batch_id) := entry in
  match batch_id with
  | None => print (Skipped_no_batch_id batch_num)
  | Some id =>
      if negb (truthy id) then print (Skipped_no_batch_id batch_num)
      else
        existing ← get (fun w => batch_outputs (fs w) !! output_path batch_num);
        match existing with
        | Some _ => print (Already_downloaded batch_num)
        | None =>
            now ← get clock;
            call (batches_retrieve id);;
            match on_batches_retrieve remote id now with
            | None => print (Download_failed batch_num)
            | Some batch =>
                if decide (status batch <> completed)
                then print (Not_completed batch_num (status batch))
                else
                  match output_file_id batch with
                  | None => print (Download_failed batch_num)
                  | Some file_id =>
                      if negb (truthy file_id) then print (Download_failed batch_num)
                      else
                        call (files_content file_id);;
                        match on_files_content remote file_id now with
                        | None => print (Download_failed batch_num)
                        | Some lines =>
                            write_results (results_path batch_num) lines;;
                            let '(table, out) := parse_results_parallel lines in
                            match table with
                            | Some rows =>
                                write_output (output_path batch_num) rows;;
                                print_all out
                            | None => print_all out
                            end
                        end
                  end
            end
        end
  end.

(** [download_all_results]. *)
Definition download_all_results (batch_ids : list (Z * option string)) : M unit :=
  for_each batch_ids download_one.

(** [merge_all_results] reads and concatenates as in the sequential script
    (which in addition fixes the column order). *)
Definition merge_all_results : M unit := Sequential.merge_all_results.

(** [main]. *)
Definition main (fuel : nat) : M unit :=
  match calculate_batch_sizes_parallel cfg (Z.of_nat (length df)) with
  | None => raise
  | Some (num_batches, startups_per_batch) =>
      create_all_batch_files num_batches startups_per_batch;;
      batch_ids ← upload_all_batches num_batches;
      monitor_all_batches fuel batch_ids;;
      download_all_results batch_ids;;
      merge_all_results
  end.

End Script.
End Parallel.

(** ** Sample runs *)

Module Scenarios.
Import Partitioner Response World Samples.

Definition empty_fs : FS := {|
  batch_requests := ∅; batch_ids := ∅; batch_results := ∅;
  batch_outputs := ∅; output_csv := None
|}.

Definition start (d : FS) : World :=
  {| fs := d; clock := 0; calls := []; printed := [] |}.

(** The [i]-th row of the table of batch [batch_num]. *)
Definition row_of (batch_num : Z) (i : nat) : ClassificationResult := {|
  CompanyID := "b" +:+ str batch_num +:+ "-r" +:+ str (Z.of_nat i);
  CompanyName := "Acme";
  AI_native := "1";
  Confidence_1to5 := "4";
  Reasons_3_points := "reasons";
  Sources_used := "short description";
  Verification_critique := "none"
|}.

Definition table_of (batch_num : Z) (rows : nat) : list ClassificationResult :=
  row_of batch_num <$> seq 0 rows.

(** Per-batch tables for the batches [1..n], with the given row counts. *)
Definition outputs_fs (row_counts : list nat) : FS := {|
  batch_requests := ∅; batch_ids := ∅; batch_results := ∅;
  batch_outputs :=
    list_to_map (imap (fun i rows =>
                         (output_path (Z.of_nat (S i)), table_of (Z.of_nat (S i)) rows))
                      row_counts);
  output_csv := None
|}.

(** The merged table a run of [merge_all_results] leaves behind. *)
Definition merged (d : FS) : option (list ClassificationResult) :=
  match Sequential.merge_all_results (start d) with
  | Returned _ w => output_csv (fs w)
  | _ => None
  end.

(** The batch number and row index each merged row came from. *)
Definition identifiers (table : option (list ClassificationResult)) : list string :=
  CompanyID <$> default [] table.

(** A dataset of 100 records, which at 85 requests per batch makes two
    batches of 50. *)
Definition hundred_rows : list unit := replicate 100 tt.
Definition render : Z -> unit -> string := fun _ _ => "{}".

(** A remote service on which every batch is complete as soon as it is
    queried, with one good response line as its result. *)
Definition prompt_remote : Remote := {|
  on_files_create := fun jsonl _ _ => Some ("file-for-" +:+ jsonl);
  on_batches_create := fun file_id _ => Some ("batch-for-" +:+ file_id);
  on_batches_retrieve := fun batch_id _ =>
    Some {| status := completed; output_file_id := Some ("output-of-" +:+ batch_id) |};
  on_files_content := fun _ _ => Some [Content good_response]
|}.


(** A remote service on which every batch has expired. *)
Definition expired_remote : Remote := {|
  on_files_create := on_files_create prompt_remote;
  on_batches_create := on_batches_create prompt_remote;
  on_batches_retrieve := fun _ _ => Some {| status := expired; output_file_id := None |};
  on_files_content := on_files_content prompt_remote
|}.

(** The world a run leaves behind, when it returns. *)
Definition final_world (o : Outcome unit) : option World :=
  match o with Returned _ w => Some w | _ => None end.

(** All four artifacts of both batches of [hundred_rows] on disk, as a
    completed run leaves them (the request files kept). *)
Definition completed_run_fs : FS := {|
  batch_requests :=
    {[ requests_path 1 := replicate 50 "{}"; requests_path 2 := replicate 50 "{}" ]};
  batch_ids := {[ id_path 1 := "batch-one"; id_path 2 := "batch-two" ]};
  batch_results :=
    {[ results_path 1 := [Content good_response];
       results_path 2 := [Content good_response] ]};
  batch_outputs := {[ output_path 1 := [good_row]; output_path 2 := [good_row] ]};
  output_csv := Some [good_row; good_row]
|}.

(** Only the request files of the two batches on disk. *)
Definition fs_with_requests : FS := {|
  batch_requests :=
    {[ requests_path 1 := replicate 50 "{}"; requests_path 2 := replicate 50 "{}" ]};
  batch_ids := ∅; batch_results := ∅; batch_outputs := ∅; output_csv := None
|}.

Definition submissions (w : World) : list (Z * Call) :=
  filter (fun c => is_submission c.2 = true) (calls w).
Definition downloads (w : World) : list (Z * Call) :=
  filter (fun c => is_download c.2 = true) (calls w).

End Scenarios.

(** ** The comparison script, [compare_classifications.py]

    Numbers are rationals: the rate computed in floating point is the
    rounding of the rational computed here. *)

Module Comparator.

(** A cell of a column read by [pd.read_csv]. *)
Inductive Cell :=
  | Number (q : Q)
  | Text (s : string)
  | Missing.

(** The columns of a result table the comparison uses. *)
Record ResultRow := {
  CompanyID : string;
  AI_native : Cell;
  Confidence_1to5 : Cell
}.

Section Script.

(** How pandas reads a number out of a string, [None] when it cannot. *)
Variable parse_number : string -> option Q.

(** [pd.to_numeric(column, errors="coerce")] on one cell; [None] is NaN. *)
Definition to_numeric (c : Cell) : option Q :=
  match c with
  | Number q => Some q
  | Text s => parse_number s
  | Missing => None
  end.


(** [pd.merge(left, right, on="CompanyID")], an inner join: every pair of a
    left and a right row with the same identifier, in the order of the left
    rows. *)
Definition merge (left right : list ResultRow) : list (ResultRow * ResultRow) :=
  l ← left;
  (fun r => (l, r)) <$> filter (fun r => CompanyID r = CompanyID l) right.

(** [==] on two coerced cells: NaN equals nothing. *)
Definition numeric_eq (a b : option Q) : bool :=
  match a, b with
  | Some x, Some y => Qeq_bool x y
  | _, _ => false
  end.

(** One entry of the [agreement] column. *)
Definition agreement (pair : ResultRow * ResultRow) : bool :=
  numeric_eq (to_numeric (AI_native pair.1)) (to_numeric (AI_native pair.2)).

Definition agreements (df_merged : list (ResultRow * ResultRow)) : nat :=
  length (filter (fun pair => agreement pair = true) df_merged).

(** [agreement.sum() / len(df_merged) * 100]; with no merged row the
    quotient is NaN. *)
Definition agreement_rate (left right : list ResultRow) : option Q :=
  let df_merged := merge left right in
  match df_merged with
  | [] => None
  | _ =>
      Some (inject_Z (Z.of_nat (agreements df_merged))
            / inject_Z (Z.of_nat (length df_merged)) * 100)%Q
  end.


(** The flag of a row is 0 or 1. *)
Definition binary_flag (r : ResultRow) : Prop :=
  exists q, to_numeric (AI_native r) = Some q /\ (q == 0 \/ q == 1)%Q.



End Script.

(** [f"{x:.2f}"] for a non-negative rational: the nearest hundredth, ties
    to even. *)
Definition hundredths (x : Q) : Z :=
  let n := (Qnum x * 100)%Z in
  let d := Z.pos (Qden x) in
  let f := (n / d)%Z in
  let r := (n mod d)%Z in
  if decide (d < 2 * r)%Z then (f + 1)%Z
  else if decide (2 * r = d)%Z then (f + f mod 2)%Z
  else f.

Definition two_digits (n : Z) : string :=
  if decide (n < 10)%Z then "0" +:+ World.str n else World.str n.

Definition format_2f (x : Q) : string :=
  let h := hundredths x in
  World.str (h / 100) +:+ "." +:+ two_digits (h mod 100).

End Comparator.

(** ** Sample result tables *)

Module Tables.
Import Comparator.

(** No text reads as a number. *)
Definition no_parse : string -> option Q := fun _ => None.

Definition flagged (id : string) (flag : Q) : ResultRow :=
  {| CompanyID := id; AI_native := Number flag; Confidence_1to5 := Number 3 |}.



End Tables.

(** ** The API key file

    All three scripts read the key with the same loop over
    [f.readlines()]. *)

Module Credentials.
Import PyStr.

(** The loop: [api_key] when it ends, [None] if no line qualified.  The two
    orchestration scripts then raise [ValueError] on [None]; the status
    helper passes it on. *)
Fixpoint read_api_key (lines : list string) : option string :=
  match lines with
  | [] => None
  | line :: rest =>
      let line := strip line in
      if truthy line && negb (World.startswith line "#") then Some line
      else read_api_key rest
  end.

(** A line the loop passes over: blank, or a comment once stripped. *)
Definition skipped (line : string) : Prop :=
  strip line = "" \/ World.startswith (strip line) "#" = true.

End Credentials.

(** ** The request of one record: [extract_year_from_date],
       [format_user_message] and the [custom_id]

    A cell of the dataset is [None] when it is NaN and otherwise holds the
    text [str] gives for it. *)

Module Prompt.
Import PyStr.

(** The columns of the input dataset that the scripts read. *)
Record Startup := {
  org_uuid : option string;
  name : option string;
  short_description : option string;
  Long_description : option string;
  category_list : option string;
  category_groups_list : option string;
  founded_date : option string
}.

Definition in_range (lo hi : N) (c : ascii) : bool :=
  (lo <=? N_of_ascii c)%N && (N_of_ascii c <=? hi)%N.

(** [\d] on the code points below 256: the ASCII digits. *)
Definition is_digit (c : ascii) : bool := in_range 48 57 c.

(** [\w] on the code points below 256: what [str.isalnum] accepts, and the
    underscore. *)
Definition is_word (c : ascii) : bool :=
  in_range 48 57 c || in_range 65 90 c || in_range 95 95 c || in_range 97 122 c
  || in_range 170 170 c || in_range 178 179 c || in_range 181 181 c
  || in_range 185 186 c || in_range 188 190 c || in_range 192 214 c
  || in_range 216 246 c || in_range 248 255 c.

(** [(19|20)]. *)
Definition century (a b : ascii) : bool :=
  bool_decide (a = "1"%char) && bool_decide (b = "9"%char)
  || bool_decide (a = "2"%char) && bool_decide (b = "0"%char).

(** [(19|20)\d{2}\b] matches at the start of [s]: the closing [\b] holds at
    the end of the text or before a character that is not a word
    character. *)
Definition year_here (s : string) : bool :=
  match s with
  | String a (String b (String c (String d rest))) =>
      century a b && is_digit c && is_digit d &&
      match rest with
      | "" => true
      | String e _ => negb (is_word e)
      end
  | _ => false
  end.

(** [re.search(r'\b(19|20)\d{2}\b', s).group(0)]: the match at the leftmost
    position that has one.  [after_word] tells whether a word character
    stands before [s]; the opening [\b] holds when none does, the first
    character of a match being a digit. *)
Fixpoint search_year (after_word : bool) (s : string) : option string :=
  match s with
  | "" => None
  | String c rest =>
      if negb after_word && year_here s then Some (String.substring 0 4 s)
      else search_year (is_word c) rest
  end.

(** [extract_year_from_date]. *)
Definition extract_year_from_date (date_str : option string) : string :=
  match date_str with
  | None => "N/A"
  | Some text =>
      if decide (text = "") then "N/A"
      else if decide (text = "N/A") then "N/A"
      else match search_year false (strip text) with
           | Some year => year
           | None => "N/A"
           end
  end.

(** ['N/A' if pd.isna(v) else str(v).strip()]. *)
Definition or_na (cell : option string) : string :=
  match cell with None => "N/A" | Some v => strip v end.

(** [short_desc] in [format_user_message]. *)
Definition short_desc (row : Startup) : string :=
  match short_description row with
  | None => "N/A"
  | Some v => if decide (strip v = "") then "N/A" else strip v
  end.

(** ['' if pd.isna(v) else str(v).strip()]. *)
Definition or_empty (cell : option string) : string :=
  match cell with None => "" | Some v => strip v end.

(** [keywords] in [format_user_message]. *)
Definition keywords (row : Startup) : string :=
  let category_list := or_empty (category_list row) in
  let category_groups := or_empty (category_groups_list row) in
  if truthy category_list && truthy category_groups
  then strip (category_list +:+ ", " +:+ category_groups)
  else if truthy category_list then category_list
  else if truthy category_groups then category_groups
  else "N/A".

Definition newline : string := String "010"%char "".

(** [format_user_message]. *)
Definition format_user_message (row : Startup) : string :=
  let company_id := or_na (org_uuid row) in
  let company_name := or_na (name row) in
  let year_founded := extract_year_from_date (founded_date row) in
  "INPUT:" +:+ newline +:+
  "CompanyID: " +:+ company_id +:+ newline +:+
  "CompanyName: " +:+ company_name +:+ newline +:+
  "Short Description: " +:+ short_desc row +:+ newline +:+
  "Keywords: " +:+ keywords row +:+ newline +:+
  "YearFounded: " +:+ year_founded.

(** The [custom_id] of the request written for the row with index label
    [idx], in [create_single_batch_file] and in [create_all_batch_files]. *)
Definition custom_id (idx : Z) (row : Startup) : string :=
  let org_uuid :=
    match org_uuid row with
    | None => "startup-" +:+ World.str idx
    | Some v => strip v
    end in
  "startup-" +:+ org_uuid.

(** Every character of [s] is a word character. *)
Fixpoint all_word (s : string) : bool :=
  match s with
  | "" => true
  | String c rest => is_word c && all_word rest
  end.

(** The ten digits. *)
Definition digits : list ascii :=
  ["0"; "1"; "2"; "3"; "4"; "5"; "6"; "7"; "8"; "9"]%char.

End Prompt.

(** ** Dataset preparation, [prepare_dataset.py]

    The frame is what [pd.read_csv] returns.  A cell is NaN, a string, or a
    value of another type (a number or a boolean).  [read_csv] types a
    column as a whole: a column in which some cell is text is an [object]
    column; a column without any text cell is numeric or boolean, and on
    such a column the [.str] accessor raises [AttributeError]; the columns
    of a frame without rows are [object] columns, where the accessor is
    there. *)

Module Dataset.
Import PyStr.

Inductive Cell :=
  | NaN
  | Str (text : string)
  | Other.                       (* a number or a boolean *)

Definition is_str (cell : Cell) : bool :=
  match cell with Str _ => true | _ => false end.

(** [column.str] is there: the column holds a string, or the frame has no
    rows. *)
Definition str_accessor (column : list Cell) : bool :=
  match column with
  | [] => true
  | _ => existsb is_str column
  end.

(** One entry of [(~column.isna()) & (column.str.strip() != '')]: for a
    cell that is not a string [.str.strip()] gives NaN, which differs from
    the empty string. *)
Definition has_text (cell : Cell) : bool :=
  match cell with
  | NaN => false
  | Str v => bool_decide (strip v <> "")
  | Other => true
  end.

Section Script.

Context {Row : Type}.
(** The cells of a row in the columns [short_description] and
    [Long description]; the other columns play no part. *)
Variable short_description : Row -> Cell.
Variable Long_description : Row -> Cell.

(** How the script ends. *)
Inductive Run :=
  | AttributeError                        (* raised before anything is written *)
  | Saved_then_ZeroDivisionError (df_both : list Row)
      (* [OUTPUT_CSV] written, then the summary divides by [len(df)] *)
  | Saved (df_both : list Row).           (* [OUTPUT_CSV] written, summary printed *)

(** The script from the loaded frame on. *)
Definition prepare_dataset (df : list Row) : Run :=
  if negb (str_accessor (short_description <$> df)) then AttributeError
  else if negb (str_accessor (Long_description <$> df)) then AttributeError
  else
    let df_both :=
      filter (fun row => has_text (short_description row)
                         && has_text (Long_description row) = true) df in
    match df with
    | [] => Saved_then_ZeroDivisionError df_both   (* len(df_both)/len(df)*100 *)
    | _ => Saved df_both
    end.

(** The cell holds a value that is not blank text. *)
Definition present (cell : Cell) : Prop :=
  cell = Other \/ exists v, cell = Str v /\ strip v <> "".

End Script.

(** Sample frames: a row is its pair of description cells. *)
Definition mixed_frame : list (Cell * Cell) :=
  [(Str " Robots for warehouses ", Str "Acme builds robots.");
   (Str "  ", Str "Beta sells used books.");
   (Str "Marketplace", NaN)].

(** No record has a long description. *)
Definition no_long_descriptions : list (Cell * Cell) :=
  [(Str "Robots for warehouses", NaN); (Str "Marketplace", NaN)].

End Dataset.

(** ** Sample rows of the dataset *)

Module Rows.
Import Prompt.

(** A record whose short description is blank and whose identifier is
    missing. *)
Definition undescribed : Startup := {|
  org_uuid := None; name := Some "Beta Corp";
  short_description := Some "  ";
  Long_description := Some "Beta sells used books.";
  category_list := None; category_groups_list := None;
  founded_date := Some "01nov2016"
|}.

End Rows.

(** ** Texts without a carriage return *)

Module Plain.

(** No character of [s] is a carriage return. *)
Fixpoint no_carriage_return (s : string) : bool :=
  match s with
  | "" => true
  | String c rest => negb (bool_decide (c = "013"%char)) && no_carriage_return rest
  end.

End Plain.

(** ** What one status check of the parallel monitor decides *)

Module Monitor.
Import PyStr World.

(** An entry of [batch_ids] leaves [all_done] as it is at time [t]: it has
    no batch id, or its batch is reported [completed] or [failed]. *)
Definition done_at (remote : Remote) (t : Z) (entry : Z * option string) : bool :=
  match entry.2 with
  | Some id =>
      if truthy id then
        match on_batches_retrieve remote id t with
        | Some batch =>
            bool_decide (status batch = completed \/ status batch = failed)
        | None => false
        end
      else true
  | None => true
  end.

(** The status queries one check makes at time [t]. *)
Definition polls_at (t : Z) (batch_ids : list (Z * option string)) : list (Z * Call) :=
  omap (fun entry : Z * option string =>
          match entry.2 with
          | Some id => if truthy id then Some (t, batches_retrieve id) else None
          | None => None
          end) batch_ids.

End Monitor.

(** ** More sample runs *)

Module Stress.
Import Partitioner Response World Samples.

(** A request file of 1100 lines of 1000 characters, more than one
    megabyte. *)
Definition long_line : string := foldr String "" (replicate 1000 "x"%char).
Definition oversized_lines : list string := replicate 1100 long_line.

Definition fs_with_oversized_requests : FS := {|
  batch_requests := {[ requests_path 1 := oversized_lines ]};
  batch_ids := ∅; batch_results := ∅; batch_outputs := ∅; output_csv := None
|}.

(** A remote service on which every batch completes at once but whose
    result files cannot be fetched. *)
Definition unreadable_remote : Remote := {|
  on_files_create := on_files_create Scenarios.prompt_remote;
  on_batches_create := on_batches_create Scenarios.prompt_remote;
  on_batches_retrieve := on_batches_retrieve Scenarios.prompt_remote;
  on_files_content := fun _ _ => None
|}.

(** A remote service on which a batch is in progress until two minutes
    have passed and completed from then on. *)
Definition slow_remote : Remote := {|
  on_files_create := on_files_create Scenarios.prompt_remote;
  on_batches_create := on_batches_create Scenarios.prompt_remote;
  on_batches_retrieve := fun batch_id t =>
    if decide (t < 120)
    then Some {| status := in_progress; output_file_id := None |}
    else Some {| status := completed;
                 output_file_id := Some ("output-of-" +:+ batch_id) |};
  on_files_content := on_files_content Scenarios.prompt_remote
|}.

End Stress.

(** ** A run interrupted after the upload *)

Module Interrupted.
Import Response World Scenarios.

(** The request files and the id files of the two batches on disk, and
    nothing downloaded yet. *)
Definition fs_with_requests_and_id : FS := {|
  batch_requests := batch_requests fs_with_requests;
  batch_ids := {[ id_path 1 := "batch-one"; id_path 2 := "batch-two" ]};
  batch_results := ∅; batch_outputs := ∅; output_csv := None
|}.

End Interrupted.

(** ** The status helper, [check_all_batches_status.py]

    The helper is run from [helper_scripts], so that its directory
    [../batch_files/batch_ids] is the directory of id files of the other
    scripts; the paths are written here as those scripts write them.  What
    the helper prints is its result: the four totals and the closing
    message.  The lines that print the progress and the completion time of
    a batch are taken not to raise. *)

Module StatusHelper.
Import PyStr Response World.

Record Totals := {
  total_completed : nat;
  total_in_progress : nat;
  total_failed : nat;
  total_pending : nat
}.

(** The message after the summary. *)
Inductive Closing :=
  | All_completed_ready_to_run_analysis
  | Still_processing_check_again_later
  | Some_batches_failed.

(** The names in [os.listdir(batch_ids_dir)]. *)
Definition listdir_ids (d : FS) : list string :=
  omap (after_prefix "batch_files/batch_ids/") (fst <$> map_to_list (batch_ids d)).

(** [sorted([f for f in os.listdir(batch_ids_dir) if f.endswith('_id.txt')])]. *)
Definition batch_files (d : FS) : list string :=
  merge_sort String.le
    (filter (fun f => endswith f "_id.txt" = true) (listdir_ids d)).

(** The branches of the body of the loop that count: the reply of
    [client.batches.retrieve], [None] when it raised. *)
Definition tally (reply : option Batch) (t : Totals) : Totals :=
  match reply with
  | Some batch =>
      match status batch with
      | completed =>
          {| total_completed := S (total_completed t);
             total_in_progress := total_in_progress t;
             total_failed := total_failed t; total_pending := total_pending t |}
      | failed =>
          {| total_completed := total_completed t;
             total_in_progress := total_in_progress t;
             total_failed := S (total_failed t); total_pending := total_pending t |}
      | in_progress =>
          {| total_completed := total_completed t;
             total_in_progress := S (total_in_progress t);
             total_failed := total_failed t; total_pending := total_pending t |}
      | _ =>
          {| total_completed := total_completed t;
             total_in_progress := total_in_progress t;
             total_failed := total_failed t; total_pending := S (total_pending t) |}
      end
  | None =>
      {| total_completed := total_completed t;
         total_in_progress := total_in_progress t;
         total_failed := S (total_failed t); total_pending := total_pending t |}
  end.

Section Script.
Variable remote : Remote.

(** The loop over [batch_files]. *)
Fixpoint check_each (batch_files : list string) (t : Totals) : M Totals :=
  match batch_files with
  | [] => mret t
  | batch_file :: rest =>
      let batch_id_path := "batch_files/batch_ids" +:+ "/" +:+ batch_file in
      stored ← get (fun w => batch_ids (fs w) !! batch_id_path);
      match stored with
      | None => raise                         (* [open] raised *)
      | Some text =>
          let batch_id := strip text in
          now ← get clock;
          call (batches_retrieve batch_id);;
          check_each rest (tally (on_batches_retrieve remote batch_id now) t)
      end
  end.

(** The closing message, from the totals and [len(batch_files)]. *)
Definition closing (count : nat) (t : Totals) : Closing :=
  if decide (total_completed t = count) then All_completed_ready_to_run_analysis
  else if decide (0 < total_in_progress t \/ 0 < total_pending t)%nat
       then Still_processing_check_again_later
       else Some_batches_failed.

(** The script from the directory listing on; [None] is the exit taken
    when there is no id file. *)
Definition main : M (option (Totals * Closing)) :=
  batch_files ← get (fun w => batch_files (fs w));
  match batch_files with
  | [] => mret None
  | _ =>
      t ← check_each batch_files
            {| total_completed := 0; total_in_progress := 0;
               total_failed := 0; total_pending := 0 |};
      mret (Some (t, closing (length batch_files) t))
  end.

End Script.

(** The number of batches counted. *)
Definition total (t : Totals) : nat :=
  (total_completed t + total_in_progress t + total_failed t + total_pending t)%nat.

(** The reply to the status query for an id file at time [t]. *)
Definition reply_at (remote : Remote) (d : FS) (t : Z) (batch_file : string)
  : option Batch :=
  on_batches_retrieve remote
    (strip (default "" (batch_ids d !! ("batch_files/batch_ids/" +:+ batch_file)))) t.

(** The reply reports the batch [completed]. *)
Definition reports_completed (reply : option Batch) : Prop :=
  exists batch, reply = Some batch /\ status batch = completed.

(** The reply reports the batch [in_progress] or in a state the helper
    counts as pending: any state but [completed], [failed] and
    [in_progress]. *)
Definition reports_unfinished (reply : option Batch) : Prop :=
  exists batch, reply = Some batch /\
                status batch <> completed /\ status batch <> failed.

End StatusHelper.

(** ** The comparison script: disagreements, rates and verdicts *)

Module Analysis.
Import Comparator.

Section Script.

Variable parse_number : string -> option Q.

(** The two coerced flags of a merged row. *)
Definition week9_both (pair : ResultRow * ResultRow) : option Q :=
  to_numeric parse_number (AI_native pair.1).
Definition week10_short (pair : ResultRow * ResultRow) : option Q :=
  to_numeric parse_number (AI_native pair.2).

(** [column == n] on one coerced cell: NaN equals nothing. *)
Definition equals (cell : option Q) (n : Q) : bool := numeric_eq cell (Some n).

(** [df_disagree = df_merged[~agreement]]. *)
Definition df_disagree (df_merged : list (ResultRow * ResultRow))
  : list (ResultRow * ResultRow) :=
  filter (fun pair => agreement parse_number pair = false) df_merged.

(** [both_not_short_ai.sum()] and [both_ai_short_not.sum()]. *)
Definition both_not_short_ai (df_disagree : list (ResultRow * ResultRow)) : nat :=
  length (filter (fun pair => equals (week9_both pair) 0
                              && equals (week10_short pair) 1 = true) df_disagree).
Definition both_ai_short_not (df_disagree : list (ResultRow * ResultRow)) : nat :=
  length (filter (fun pair => equals (week9_both pair) 1
                              && equals (week10_short pair) 0 = true) df_disagree).

(** [(df_merged['AI_native_week9_both'] == 1).sum()] and its week 10
    counterpart. *)
Definition week9_ai_count (df_merged : list (ResultRow * ResultRow)) : nat :=
  length (filter (fun pair => equals (week9_both pair) 1 = true) df_merged).
Definition week10_ai_count (df_merged : list (ResultRow * ResultRow)) : nat :=
  length (filter (fun pair => equals (week10_short pair) 1 = true) df_merged).

(** Both flags of a merged row are 0 or 1. *)
Definition binary_pair (pair : ResultRow * ResultRow) : Prop :=
  binary_flag parse_number pair.1 /\ binary_flag parse_number pair.2.

End Script.

(** The first line of the interpretation of the overall agreement. *)
Inductive Interpretation := Excellent | Very_good | Good | Moderate | Low.

(** The recommendation of the conclusion. *)
Inductive Recommendation :=
  | Short_descriptions_are_sufficient
  | Short_descriptions_are_highly_sufficient
  | Short_descriptions_are_generally_sufficient
  | Long_descriptions_provide_significant_value.

(** [agreement_rate >= threshold]; a comparison with NaN ([None]) is
    false. *)
Definition at_least (agreement_rate : option Q) (threshold : Q) : bool :=
  match agreement_rate with
  | Some rate => Qle_bool threshold rate
  | None => false
  end.

Definition interpretation (agreement_rate : option Q) : Interpretation :=
  if at_least agreement_rate 95 then Excellent
  else if at_least agreement_rate 90 then Very_good
  else if at_least agreement_rate 85 then Good
  else if at_least agreement_rate 80 then Moderate
  else Low.

Definition recommendation (agreement_rate : option Q) : Recommendation :=
  if at_least agreement_rate 95 then Short_descriptions_are_sufficient
  else if at_least agreement_rate 90 then Short_descriptions_are_highly_sufficient
  else if at_least agreement_rate 85 then Short_descriptions_are_generally_sufficient
  else Long_descriptions_provide_significant_value.

End Analysis.

(** ** More sample result tables *)

Module MoreTables.
Import Comparator Tables.

(** Two tables without a common identifier. *)
Definition only_left : list ResultRow := [flagged "a" 1; flagged "b" 0].
Definition only_right : list ResultRow := [flagged "c" 1].

(** Merged rows: one agreement, one change in each direction, and one row
    whose week 10 flag is not a number. *)
Definition mixed : list (ResultRow * ResultRow) :=
  [(flagged "a" 1, flagged "a" 1); (flagged "b" 0, flagged "b" 1);
   (flagged "c" 1, flagged "c" 0);
   (flagged "d" 1, {| CompanyID := "d"; AI_native := Text "yes";
                      Confidence_1to5 := Number 3 |})].

End MoreTables.

(** ** [check_all_batches_status] of the sequential script

    The function that watches all batches at once.  [main] of the
    sequential script does not call it: it uses
    [check_single_batch_status]. *)

Module Concurrent.
Import PyStr Response World.

Section Script.
Variable remote : Remote.

(** The first loop: the dictionary [batch_ids], [None] for a batch without
    id file. *)
Fixpoint load_batch_ids (batch_nums : list Z) (batch_ids : gmap Z (option string))
  : M (gmap Z (option string)) :=
  match batch_nums with
  | [] => mret batch_ids
  | batch_num :: rest =>
      stored ← get (fun w => World.batch_ids (fs w) !! id_path batch_num);
      match stored with
      | Some text =>
          load_batch_ids rest (<[batch_num := Some (strip text)]> batch_ids)
      | None =>
          print (Id_file_not_found batch_num);;
          load_batch_ids rest (<[batch_num := None]> batch_ids)
      end
  end.

(** One status check: the [for] loop over the batch numbers, threading
    [batch_statuses] and [all_done]. *)
Fixpoint check_round (batch_nums : list Z) (batch_ids : gmap Z (option string))
    (batch_statuses : gmap Z Status) (all_done : bool)
  : M (gmap Z Status * bool) :=
  match batch_nums with
  | [] => mret (batch_statuses, all_done)
  | batch_num :: rest =>
      match batch_ids !! batch_num with
      | None => raise                                   (* KeyError *)
      | Some batch_id =>
          let no_batch_id :=
            print (No_batch_id batch_num);;
            check_round rest batch_ids (<[batch_num := failed]> batch_statuses)
              all_done in
          match batch_id with
          | None => no_batch_id
          | Some id =>
              if truthy id then
                now ← get clock;
                call (batches_retrieve id);;
                match on_batches_retrieve remote id now with
                | Some batch =>
                    let batch_statuses :=
                      <[batch_num := status batch]> batch_statuses in
                    print (Status_seen batch_num (status batch));;
                    match status batch with
                    | completed => check_round rest batch_ids batch_statuses all_done
                    | failed => check_round rest batch_ids batch_statuses all_done
                    | _ => check_round rest batch_ids batch_statuses false
                    end
                | None =>
                    print (Status_check_failed batch_num);;
                    check_round rest batch_ids batch_statuses false
                end
              else no_batch_id
          end
      end
  end.

(** The [while True] loop; [fuel] bounds the number of status checks. *)
Fixpoint monitor (fuel : nat) (batch_nums : list Z)
    (batch_ids : gmap Z (option string)) (batch_statuses : gmap Z Status)
  : M (gmap Z Status) :=
  match fuel with
  | O => out_of_fuel
  | S fuel' =>
      round ← check_round batch_nums batch_ids batch_statuses true;
      if (round.2 : bool)
      then print All_batches_completed;; mret round.1
      else sleep 60;; monitor fuel' batch_nums batch_ids round.1
  end.

(** [check_all_batches_status]. *)
Definition check_all_batches_status (fuel : nat) (num_batches : Z)
  : M (gmap Z Status) :=
  let batch_nums := seqZ 1 num_batches in
  batch_ids ← load_batch_ids batch_nums ∅;
  let batch_statuses : gmap Z Status :=
    list_to_map ((fun num => (num, validating)) <$> batch_nums) in
  monitor fuel batch_nums batch_ids batch_statuses.

End Script.

(** The entry of a batch after a status check at time [t]: [failed]
    without a batch id, the status reported for the batch, or what it was
    when the query failed. *)
Definition status_after (remote : Remote) (t : Z) (batch_id : option string)
    (before : option Status) : option Status :=
  match batch_id with
  | Some id =>
      if truthy id then
        match on_batches_retrieve remote id t with
        | Some batch => Some (status batch)
        | None => before
        end
      else Some failed
  | None => Some failed
  end.

(** The batch numbers with the ids stored for them in [d]. *)
Definition stored_ids (d : FS) (batch_nums : list Z) : list (Z * option string) :=
  (fun num => (num, strip <$> World.batch_ids d !! id_path num)) <$> batch_nums.

End Concurrent.

(** ** The agreement rate in floating point

    The script computes [agreement.sum() / len(df_merged) * 100] on binary64
    values: each operation gives its exact result rounded to the nearest
    value with a significand of 53 bits, ties to the even significand.  A
    float is kept here as the rational it denotes.  Overflow is not
    modelled: a rate is at most 100. *)

Module Float.

(** The nearest integer, ties to the even one. *)
Definition rint (x : Q) : Z :=
  let f := Qfloor x in
  match (x - inject_Z f ?= 1 # 2)%Q with
  | Lt => f
  | Eq => (f + f mod 2)%Z
  | Gt => (f + 1)%Z
  end.

(** The exponent of a positive [x]: the [e] with [2 ^ e <= x < 2 ^ (e + 1)]. *)
Definition exponent (x : Q) : Z :=
  let e := (Z.log2 (Qnum x) - Z.log2 (Z.pos (Qden x)))%Z in
  if Qle_bool (2 ^ e) x then e else (e - 1)%Z.

(** Rounding to binary64: around [x] the values are [2 ^ (e - 52)] apart,
    [e] being the exponent of [x], and no closer than the subnormal
    values. *)
Definition round (x : Q) : Q :=
  if Qeq_bool x 0 then 0%Q
  else
    let e := Z.max (exponent (Qabs x)) (-1022) in
    let ulp := (2 ^ (e - 52))%Q in
    Qred (inject_Z (rint (x / ulp)) * ulp).

(** [agreement.sum() / len(df_merged) * 100] from the two counts; with no
    merged row the quotient is NaN. *)
Definition agreement_rate (agreements len : Z) : option Q :=
  if decide (len = 0) then None
  else Some (round (round (round (inject_Z agreements) / round (inject_Z len)) * 100)).

End Float.

(** ** The files [merge_all_results] reports as loaded *)

Module MergeLog.
Import World.

(** The file of the report [Loaded ...: n rows]. *)
Definition loaded_file (report : Report) : option string :=
  match report with
  | Loaded batch_file _ => Some batch_file
  | _ => None
  end.

End MergeLog.

(** * Properties *)

(** ** Batch Partitioner *)

Section PartitionerFacts.
Import Partitioner.

Lemma floordiv_Some a b : b <> 0 -> floordiv a b = Some (a / b).
Proof. intros Hb. unfold floordiv. by destruct (decide (b = 0)). Qed.

Lemma max_requests_for_size_pos cfg :
  0 < MAX_FILE_SIZE_MB cfg -> 85 <= max_requests_for_size cfg.
Proof.
  intros Hpos. unfold max_requests_for_size, estimated_kb_per_request.
  rewrite Z.quot_div_nonneg by lia.
  apply Z.div_le_lower_bound; lia.
Qed.

(** The formula [(n + limit - 1) // limit] is the ceiling of [n / limit]. *)
Lemma ceil_formula n limit :
  0 < limit -> is_ceil_div n limit ((n + limit - 1) / limit).
Proof.
  intros Hl. unfold is_ceil_div.
  pose proof (Z.div_mod (n + limit - 1) limit ltac:(lia)) as Hdm.
  pose proof (Z.mod_pos_bound (n + limit - 1) limit Hl) as Hm.
  nia.
Qed.

Lemma is_ceil_div_unique n limit k k' :
  is_ceil_div n limit k -> is_ceil_div n limit k' -> k = k'.
Proof. unfold is_ceil_div. intros ? ?. nia. Qed.

Lemma is_ceil_div_pos n limit k :
  0 < limit -> 1 <= n -> is_ceil_div n limit k -> 1 <= k <= n.
Proof. unfold is_ceil_div. intros ? ? ?. nia. Qed.

(** The shape of a successful size calculation, common to both scripts. *)
Lemma batch_sizes_for_limit n limit :
  0 < limit -> 1 <= n ->
  exists nb spb,
    (nb' ← floordiv (n + limit - 1) limit;
     spb' ← floordiv n nb'; Some (nb', spb')) = Some (nb, spb) /\
    is_ceil_div n limit nb /\ spb = n / nb.
Proof.
  intros Hl Hn.
  pose proof (ceil_formula n limit Hl) as Hc.
  pose proof (is_ceil_div_pos _ _ _ Hl Hn Hc) as Hk.
  exists ((n + limit - 1) / limit), (n / ((n + limit - 1) / limit)).
  split; [|done].
  rewrite floordiv_Some by lia. simpl.
  rewrite floordiv_Some by lia. done.
Qed.

Lemma calculate_batch_sizes_sequential_spec cfg n :
  positive_config cfg -> 1 <= n ->
  exists nb spb,
    calculate_batch_sizes_sequential cfg n = Some (nb, spb) /\
    is_ceil_div n (Z.min (max_requests_for_size cfg) (MAX_REQUESTS_PER_BATCH cfg)) nb /\
    spb = n / nb.
Proof.
  intros (Hr & Hs & Ht & He) Hn.
  pose proof (max_requests_for_size_pos cfg Hs).
  unfold calculate_batch_sizes_sequential.
  rewrite (floordiv_Some (MAX_ENQUEUED_TOKENS_PER_DAY cfg)) by lia.
  assert (0 < Z.min (max_requests_for_size cfg) (MAX_REQUESTS_PER_BATCH cfg)) as Hl by lia.
  exact (batch_sizes_for_limit n _ Hl Hn).
Qed.

Lemma calculate_batch_sizes_parallel_spec cfg n :
  positive_config cfg -> 1 <= n ->
  exists nb spb,
    calculate_batch_sizes_parallel cfg n = Some (nb, spb) /\
    is_ceil_div n (max_requests_for_size cfg) nb /\
    spb = n / nb.
Proof.
  intros (Hr & Hs & Ht & He) Hn.
  pose proof (max_requests_for_size_pos cfg Hs).
  unfold calculate_batch_sizes_parallel.
  assert (0 < max_requests_for_size cfg) as Hl by lia.
  exact (batch_sizes_for_limit n _ Hl Hn).
Qed.

(** Whatever either script returns is a batch count between 1 and [n]
    together with the floor of [n / batch_count]. *)
Lemma calculate_batch_sizes_inv cfg n nb spb :
  1 <= n ->
  calculate_batch_sizes_sequential cfg n = Some (nb, spb) \/
  calculate_batch_sizes_parallel cfg n = Some (nb, spb) ->
  nb <> 0 /\ spb = n / nb.
Proof.
  intros Hn [H|H].
  - unfold calculate_batch_sizes_sequential, floordiv in H.
    repeat (case_decide; simplify_eq/=); done.
  - unfold calculate_batch_sizes_parallel, floordiv in H.
    repeat (case_decide; simplify_eq/=); done.
Qed.

End PartitionerFacts.

Section PartitionFacts.
Import Partitioner.
Context {A : Type}.
Implicit Types df : list A.

Lemma iloc_in_range df s e :
  0 <= s <= e -> e <= Z.of_nat (length df) ->
  iloc s e df = take (Z.to_nat (e - s)) (drop (Z.to_nat s) df).
Proof.
  intros Hs He. unfold iloc, slice_bound.
  repeat case_decide; try lia.
  rewrite !Z.min_l by lia. done.
Qed.

Lemma batch_df_inner df k nb spb :
  1 <= k -> k <> nb -> 0 <= spb -> k * spb <= Z.of_nat (length df) ->
  batch_df k nb spb df = take (Z.to_nat spb) (drop (Z.to_nat ((k - 1) * spb)) df).
Proof.
  intros Hk Hne Hspb Hle. unfold batch_df, batch_bounds.
  case_decide; [done|].
  rewrite iloc_in_range by nia. f_equal. lia.
Qed.

Lemma batch_df_last df nb spb :
  1 <= nb -> 0 <= spb -> (nb - 1) * spb <= Z.of_nat (length df) ->
  batch_df nb nb spb df = drop (Z.to_nat ((nb - 1) * spb)) df.
Proof.
  intros Hk Hspb Hle. unfold batch_df, batch_bounds.
  case_decide; [|done].
  rewrite iloc_in_range by nia.
  apply take_ge. rewrite length_drop. lia.
Qed.

(** The first [j] batches, none of them the last, make up the first
    [j * spb] rows. *)
Lemma inner_batches_prefix df nb spb (j : nat) :
  0 <= spb -> Z.of_nat j < nb -> Z.of_nat j * spb <= Z.of_nat (length df) ->
  concat ((fun k => batch_df k nb spb df) <$> seqZ 1 (Z.of_nat j)) =
  take (Z.to_nat (Z.of_nat j * spb)) df.
Proof.
  intros Hspb. induction j as [|j IH]; intros Hj Hle.
  - simpl. by rewrite take_0.
  - rewrite seqZ_S, fmap_app, concat_app, IH by nia. simpl.
    rewrite app_nil_r, batch_df_inner by nia.
    replace (1 + Z.of_nat j - 1) with (Z.of_nat j) by lia.
    replace (Z.to_nat (Z.of_nat (S j) * spb))
      with (Z.to_nat (Z.of_nat j * spb) + Z.to_nat spb)%nat by nia.
    by rewrite take_take_drop.
Qed.

Lemma batches_concat df nb spb :
  1 <= nb -> 0 <= spb -> (nb - 1) * spb <= Z.of_nat (length df) ->
  concat ((fun k => batch_df k nb spb df) <$> seqZ 1 nb) = df.
Proof.
  intros Hnb Hspb Hle.
  set (j := Z.to_nat (nb - 1)).
  assert (seqZ 1 nb = seqZ 1 (Z.of_nat j) ++ [nb]) as ->.
  { transitivity (seqZ 1 (Z.of_nat (S j))); [f_equal; lia|].
    rewrite seqZ_S. do 2 f_equal. lia. }
  rewrite fmap_app, concat_app, inner_batches_prefix by lia.
  simpl. rewrite app_nil_r, batch_df_last by lia.
  replace (Z.of_nat j) with (nb - 1) by lia. apply take_drop.
Qed.

End PartitionFacts.

Section PartitionerClaims.
Import Partitioner.

(** C1 (as the code has it): for every record count [n >= 1] and every
    configuration of positive constants, the batch count is the ceiling of
    [n / effective_limit], where [effective_limit] is the minimum of the
    request limit and the limit derived from the file size (in the parallel
    script, which takes the file-size limit alone: whenever that limit is
    the smaller of the two).  The limit derived from the daily token quota
    does not enter the minimum, so the batch count is the ceiling over the
    minimum of all three limits when the token limit is not the most
    restrictive one, which is the case for the constants both scripts ship
    with (effective limit 8533). *)
Theorem batch_count_is_ceiling_over_code_limit (cfg : Config) (n : Z) :
  positive_config cfg -> 1 <= n ->
  let effective_limit :=
    Z.min (max_requests_for_size cfg) (MAX_REQUESTS_PER_BATCH cfg) in
  (exists nb spb,
     calculate_batch_sizes_sequential cfg n = Some (nb, spb) /\
     is_ceil_div n effective_limit nb /\
     (effective_limit <= token_limit cfg ->
      is_ceil_div n (min_of_all_three cfg) nb)) /\
  (exists nb spb,
     calculate_batch_sizes_parallel cfg n = Some (nb, spb) /\
     (max_requests_for_size cfg <= MAX_REQUESTS_PER_BATCH cfg ->
      is_ceil_div n effective_limit nb /\
      (effective_limit <= token_limit cfg ->
       is_ceil_div n (min_of_all_three cfg) nb))) /\
  min_of_all_three sequential_config = 8533 /\
  min_of_all_three parallel_config = 8533 /\
  Z.min (max_requests_for_size sequential_config)
        (MAX_REQUESTS_PER_BATCH sequential_config) = 8533 /\
  max_requests_for_size parallel_config = 8533.
Proof.
  intros Hcfg Hn effective_limit. split; [|split].
  - destruct (calculate_batch_sizes_sequential_spec cfg n Hcfg Hn)
      as (nb & spb & Hcalc & Hceil & _).
    exists nb, spb. split; [done|]. split; [done|].
    intros Hle. unfold min_of_all_three. fold effective_limit.
    by rewrite Z.min_l.
  - destruct (calculate_batch_sizes_parallel_spec cfg n Hcfg Hn)
      as (nb & spb & Hcalc & Hceil & _).
    exists nb, spb. split; [done|]. intros Hle1.
    assert (effective_limit = max_requests_for_size cfg) as Heq
      by (unfold effective_limit; lia).
    split; [by rewrite Heq|].
    intros Hle2. unfold min_of_all_three. fold effective_limit.
    rewrite Z.min_l by done. by rewrite Heq.
  - by vm_compute.
Qed.

Lemma batch_count_is_ceiling_over_code_limit_witness :
  (exists nb spb,
     calculate_batch_sizes_sequential sequential_config 160000 = Some (nb, spb) /\
     is_ceil_div 160000 8533 nb) /\
  (exists nb spb,
     calculate_batch_sizes_parallel parallel_config 160000 = Some (nb, spb) /\
     is_ceil_div 160000 8533 nb).
Proof.
  assert (positive_config sequential_config) as Hs by (vm_compute; done).
  assert (positive_config parallel_config) as Hp by (vm_compute; done).
  assert (1 <= 160000) as Hn by lia.
  assert (max_requests_for_size parallel_config
          <= MAX_REQUESTS_PER_BATCH parallel_config) as Hle
    by (vm_compute; discriminate).
  pose proof (batch_count_is_ceiling_over_code_limit sequential_config 160000 Hs Hn)
    as Hseq.
  pose proof (batch_count_is_ceiling_over_code_limit parallel_config 160000 Hp Hn)
    as Hpar.
  cbv zeta in Hseq, Hpar.
  destruct Hseq as ((nb & spb & Hc & Hceil & _) & _).
  destruct Hpar as (_ & (nb' & spb' & Hc' & Hceil') & _).
  split.
  - exists nb, spb. split; [exact Hc | exact Hceil].
  - exists nb', spb'. split; [exact Hc' | exact (proj1 (Hceil' Hle))].
Defined.

(** C1 (as stated) fails: with a daily token quota that admits ten requests,
    the minimum of all three limits is 10, so 100 records would need ten
    batches; both scripts compute a single batch of 100. *)
Lemma batch_count_ignores_token_limit :
  positive_config tight_token_config /\
  min_of_all_three tight_token_config = 10 /\
  calculate_batch_sizes_sequential tight_token_config 100 = Some (1, 100) /\
  calculate_batch_sizes_parallel tight_token_config 100 = Some (1, 100) /\
  ~ is_ceil_div 100 (min_of_all_three tight_token_config) 1 /\
  is_ceil_div 100 (min_of_all_three tight_token_config) 10.
Proof.
  split; [by vm_compute|].
  split; [by vm_compute|].
  split; [by vm_compute|].
  split; [by vm_compute|].
  split; [|by vm_compute].
  unfold is_ceil_div. vm_compute. intros [_ H]. by apply H.
Qed.

(** C7: for every dataset of [n >= 1] records and the batch count and batch
    size either script computes from [n], the batches taken in order are
    consecutive row ranges whose concatenation is the dataset (so every
    record lies in exactly one batch), their sizes sum to [n], every batch
    before the last has [floor(n / batch_count)] rows, and the last batch
    has that many plus the remainder [n mod batch_count]. *)
Theorem partition_covers_dataset_exactly {A} (cfg : Config) (df : list A) (nb spb : Z) :
  positive_config cfg -> 1 <= Z.of_nat (length df) ->
  calculate_batch_sizes_sequential cfg (Z.of_nat (length df)) = Some (nb, spb) \/
  calculate_batch_sizes_parallel cfg (Z.of_nat (length df)) = Some (nb, spb) ->
  let n := Z.of_nat (length df) in
  let batches := (fun k => batch_df k nb spb df) <$> seqZ 1 nb in
  1 <= nb /\
  concat batches = df /\
  Z.of_nat (sum_list (length <$> batches)) = n /\
  (forall k, 1 <= k < nb ->
     batch_df k nb spb df =
       take (Z.to_nat (n / nb)) (drop (Z.to_nat ((k - 1) * (n / nb))) df) /\
     Z.of_nat (length (batch_df k nb spb df)) = n / nb) /\
  batch_df nb nb spb df = drop (Z.to_nat ((nb - 1) * (n / nb))) df /\
  Z.of_nat (length (batch_df nb nb spb df)) = n / nb + n mod nb.
Proof.
  intros Hcfg Hn Hcalc n batches.
  assert (1 <= nb /\ spb = n / nb) as [Hnb ->].
  { destruct Hcalc as [Hc|Hc].
    - destruct (calculate_batch_sizes_sequential_spec cfg n Hcfg Hn)
        as (nb' & spb' & Hc' & Hceil & Hspb).
      fold n in Hc. rewrite Hc in Hc'. simplify_eq.
      split; [|done]. unfold is_ceil_div in Hceil.
      destruct Hcfg as (? & Hs & _).
      pose proof (max_requests_for_size_pos cfg Hs). nia.
    - destruct (calculate_batch_sizes_parallel_spec cfg n Hcfg Hn)
        as (nb' & spb' & Hc' & Hceil & Hspb).
      fold n in Hc. rewrite Hc in Hc'. simplify_eq.
      split; [|done]. unfold is_ceil_div in Hceil.
      destruct Hcfg as (? & Hs & _).
      pose proof (max_requests_for_size_pos cfg Hs). nia. }
  assert (0 <= n / nb) as Hspb by (apply Z.div_pos; lia).
  assert (nb * (n / nb) <= n) as Hmul by (apply Z.mul_div_le; lia).
  pose proof (Z.div_mod n nb ltac:(lia)) as Hdm.
  assert (concat batches = df) as Hconcat.
  { apply batches_concat; [done..|]. fold n. nia. }
  split; [done|]. split; [done|]. split.
  { rewrite <- length_concat, Hconcat. done. }
  split.
  { intros k Hk. rewrite batch_df_inner by (fold n; nia).
    split; [done|]. rewrite length_take, length_drop. fold n. nia. }
  rewrite batch_df_last by (fold n; nia).
  split; [done|]. rewrite length_drop. fold n. nia.
Qed.

Lemma partition_covers_dataset_exactly_witness :
  let df := seqZ 0 200 in
  let batches := (fun k => batch_df k 3 66 df) <$> seqZ 1 3 in
  calculate_batch_sizes_sequential small_file_config 200 = Some (3, 66) /\
  concat batches = df /\
  Z.of_nat (sum_list (length <$> batches)) = 200 /\
  Z.of_nat (length (batch_df 1 3 66 df)) = 66 /\
  Z.of_nat (length (batch_df 2 3 66 df)) = 66 /\
  Z.of_nat (length (batch_df 3 3 66 df)) = 68.
Proof.
  intros df batches.
  assert (positive_config small_file_config) as Hcfg by (vm_compute; done).
  assert (1 <= Z.of_nat (length df)) as Hn by (vm_compute; discriminate).
  assert (calculate_batch_sizes_sequential small_file_config (Z.of_nat (length df))
          = Some (3, 66)) as Hcalc by (vm_compute; reflexivity).
  destruct (partition_covers_dataset_exactly small_file_config df 3 66 Hcfg Hn
              (or_introl Hcalc)) as (_ & Hconcat & Hsum & Hinner & _ & Hlast).
  split; [exact Hcalc|].
  split; [exact Hconcat|].
  split; [exact Hsum|].
  split; [exact (proj2 (Hinner 1 ltac:(lia)))|].
  split; [exact (proj2 (Hinner 2 ltac:(lia)))|].
  exact Hlast.
Defined.

End PartitionerClaims.

(** ** Strings and the CSV reader *)

Section StringFacts.

Lemma string_app_cons c a b : String c a +:+ b = String c (a +:+ b).
Proof. reflexivity. Qed.

Lemma string_app_nil_l a : "" +:+ a = a.
Proof. reflexivity. Qed.

Lemma string_app_nil_r a : a +:+ "" = a.
Proof. induction a as [|c a IH]; [done|]. by rewrite string_app_cons, IH. Qed.

Lemma string_app_assoc a b c : (a +:+ b) +:+ c = a +:+ (b +:+ c).
Proof. induction a as [|x a IH]; [done|]. by rewrite !string_app_cons, IH. Qed.

Lemma string_length_app a b :
  String.length (a +:+ b) = (String.length a + String.length b)%nat.
Proof. induction a as [|x a IH]; [done|]. rewrite string_app_cons. simpl. by rewrite IH. Qed.

End StringFacts.

Section StripFacts.
Import PyStr.

Lemma lstrip_app_nonspace a c b :
  is_space c = false -> lstrip (a +:+ String c b) = lstrip a +:+ String c b.
Proof.
  intros Hc. induction a as [|x a IH]; simpl.
  - by rewrite Hc.
  - by destruct (is_space x).
Qed.

Lemma rstrip_app_nonspace a c b :
  is_space c = false -> rstrip (a +:+ String c b) = a +:+ String c (rstrip b).
Proof.
  intros Hc. induction a as [|x a IH].
  - rewrite !string_app_nil_l. simpl. rewrite Hc. by destruct (rstrip b).
  - rewrite !string_app_cons. simpl. rewrite IH.
    by destruct a.
Qed.

Lemma lstrip_nonspace c s : is_space c = false -> lstrip (String c s) = String c s.
Proof. intros Hc. simpl. by rewrite Hc. Qed.

Lemma lstrip_idemp s : lstrip (lstrip s) = lstrip s.
Proof.
  induction s as [|c s IH]; [done|]. simpl.
  destruct (is_space c) eqn:Hc; [done|]. simpl. by rewrite Hc.
Qed.

Lemma rstrip_nil_lstrip s : rstrip s = "" -> lstrip s = "".
Proof.
  induction s as [|c s IH]; [done|]. simpl.
  destruct (rstrip s) eqn:Hr; [|done].
  destruct (is_space c); [|done]. intros _. by apply IH.
Qed.

Lemma rstrip_idemp s : rstrip (rstrip s) = rstrip s.
Proof.
  induction s as [|c s IH]; [done|]. simpl.
  destruct (rstrip s) as [|k kept] eqn:Hr.
  - destruct (is_space c) eqn:Hc; [done|]. simpl. by rewrite Hc.
  - simpl in *. rewrite IH. done.
Qed.

Lemma lstrip_rstrip_comm s : lstrip (rstrip s) = rstrip (lstrip s).
Proof.
  induction s as [|c s IH]; [done|]. simpl.
  destruct (is_space c) eqn:Hc.
  - destruct (rstrip s) as [|k kept] eqn:Hr.
    + rewrite (rstrip_nil_lstrip s Hr). done.
    + rewrite <- IH. simpl. by rewrite Hc.
  - simpl. destruct (rstrip s) as [|k kept] eqn:Hr; simpl; by rewrite Hc.
Qed.

Lemma strip_lstrip s : strip (lstrip s) = strip s.
Proof. unfold strip. by rewrite lstrip_idemp. Qed.

Lemma strip_rstrip s : strip (rstrip s) = strip s.
Proof. unfold strip. by rewrite lstrip_rstrip_comm, rstrip_idemp. Qed.

End StripFacts.

Section ReaderFacts.
Import PyStr Csv Quoting.

Local Abbreviation mk := Build_Reader.

Lemma pending_lines_nonempty c s :
  readlines (String c s) = pending_lines (String c s).
Proof.
  unfold pending_lines. simpl. destruct (is_newline c); [done|].
  by destruct (readlines s).
Qed.

Lemma read_rows_char r c s :
  is_newline c = false ->
  read_rows r (pending_lines (String c s)) =
  r' ← parse_process_char r (Some c); read_rows r' (pending_lines s).
Proof.
  intros Hc. unfold pending_lines. simpl readlines. rewrite Hc.
  destruct (readlines s) as [|l ls]; simpl;
    by destruct (parse_process_char r (Some c)).
Qed.

Lemma read_rows_end r :
  read_rows r (pending_lines "") =
  r2 ← parse_process_char r None;
  if decide (state r2 = START_RECORD) then Some [fields r2]
  else read_rows r2 [].
Proof.
  unfold pending_lines. simpl.
  destruct (parse_process_char r None) as [r2|]; [|done]. simpl.
  by destruct (decide (state r2 = START_RECORD)).
Qed.

Lemma is_special_false c :
  is_special c = false ->
  c <> delimiter /\ c <> quotechar /\ is_eol_char c = false.
Proof.
  unfold is_special. intros H.
  apply orb_false_iff in H as [H ?]. apply orb_false_iff in H as [H1 H2].
  apply bool_decide_eq_false in H1, H2. done.
Qed.

Lemma is_newline_eol c : is_eol_char c = false -> is_newline c = false.
Proof.
  unfold is_eol_char, is_newline.
  destruct c as [[] [] [] [] [] [] [] []]; done.
Qed.

Lemma parse_add_char_ok st fs b c :
  Z.of_nat (String.length b) < field_limit ->
  parse_add_char (mk st fs b) c = Some (mk st fs (b +:+ String c "")).
Proof.
  intros Hb. unfold parse_add_char. simpl. by rewrite decide_False by lia.
Qed.

Lemma step_quoted_quote fs b :
  parse_process_char (mk IN_QUOTED_FIELD fs b) (Some quotechar) =
  Some (mk QUOTE_IN_QUOTED_FIELD fs b).
Proof. reflexivity. Qed.

Lemma step_quoted_data fs b c :
  c <> quotechar -> Z.of_nat (String.length b) < field_limit ->
  parse_process_char (mk IN_QUOTED_FIELD fs b) (Some c) =
  Some (mk IN_QUOTED_FIELD fs (b +:+ String c "")).
Proof.
  intros Hc Hb. unfold parse_process_char; cbn beta iota delta [state].
  rewrite decide_False by done. by apply parse_add_char_ok.
Qed.

Lemma step_quoted_eol fs b :
  parse_process_char (mk IN_QUOTED_FIELD fs b) None = Some (mk IN_QUOTED_FIELD fs b).
Proof. reflexivity. Qed.

Lemma step_quote_quote fs b :
  Z.of_nat (String.length b) < field_limit ->
  parse_process_char (mk QUOTE_IN_QUOTED_FIELD fs b) (Some quotechar) =
  Some (mk IN_QUOTED_FIELD fs (b +:+ String quotechar "")).
Proof.
  intros Hb. unfold parse_process_char; cbn beta iota delta [state].
  rewrite decide_True by done. by rewrite parse_add_char_ok.
Qed.

Lemma step_quote_delimiter fs b :
  parse_process_char (mk QUOTE_IN_QUOTED_FIELD fs b) (Some delimiter) =
  Some (mk START_FIELD (fs ++ [b]) "").
Proof. reflexivity. Qed.

Lemma step_quote_eol fs b :
  parse_process_char (mk QUOTE_IN_QUOTED_FIELD fs b) None =
  Some (mk START_RECORD (fs ++ [b]) "").
Proof. reflexivity. Qed.

Lemma step_field_data fs b c :
  is_special c = false -> Z.of_nat (String.length b) < field_limit ->
  parse_process_char (mk IN_FIELD fs b) (Some c) =
  Some (mk IN_FIELD fs (b +:+ String c "")).
Proof.
  intros (Hd & Hq & He)%is_special_false Hb.
  unfold parse_process_char; cbn beta iota delta [state].
  rewrite He, decide_False by done. by apply parse_add_char_ok.
Qed.

Lemma step_field_delimiter fs b :
  parse_process_char (mk IN_FIELD fs b) (Some delimiter) =
  Some (mk START_FIELD (fs ++ [b]) "").
Proof. reflexivity. Qed.

Lemma step_field_eol fs b :
  parse_process_char (mk IN_FIELD fs b) None =
  Some (mk START_RECORD (fs ++ [b]) "").
Proof. reflexivity. Qed.

Lemma step_start_quote fs :
  parse_process_char (mk START_FIELD fs "") (Some quotechar) =
  Some (mk IN_QUOTED_FIELD fs "").
Proof. reflexivity. Qed.

Lemma step_start_delimiter fs :
  parse_process_char (mk START_FIELD fs "") (Some delimiter) =
  Some (mk START_FIELD (fs ++ [""]) "").
Proof. reflexivity. Qed.

Lemma step_start_eol fs :
  parse_process_char (mk START_FIELD fs "") None =
  Some (mk START_RECORD (fs ++ [""]) "").
Proof. reflexivity. Qed.

Lemma step_start_data fs c :
  is_special c = false ->
  parse_process_char (mk START_FIELD fs "") (Some c) =
  Some (mk IN_FIELD fs (String c "")).
Proof.
  intros (Hd & Hq & He)%is_special_false.
  unfold parse_process_char, process_start_field; cbn beta iota delta [state].
  rewrite He, !decide_False by done. by rewrite parse_add_char_ok.
Qed.

(** At the start of a record a character that does not end a line is
    handled as at the start of a field. *)
Lemma step_start_record fs c :
  is_eol_char c = false ->
  parse_process_char (mk START_RECORD fs "") (Some c) =
  parse_process_char (mk START_FIELD fs "") (Some c).
Proof.
  intros He. unfold parse_process_char, process_start_field; cbn beta iota delta [state].
  by rewrite He.
Qed.

Lemma pending_lines_cons c s :
  readlines (String c s) = pending_lines (String c s).
Proof.
  unfold pending_lines. simpl. destruct (is_newline c); [done|].
  by destruct (readlines s).
Qed.

(** Inside quotes every character but the quote is data, line feeds
    included; a doubled quote is one quote. *)
Lemma read_quoted_body f : forall fs b rest,
  Z.of_nat (String.length (b +:+ f)) <= field_limit ->
  read_rows (mk IN_QUOTED_FIELD fs b)
    (pending_lines (escape_quotes f +:+ String quotechar rest)) =
  read_rows (mk QUOTE_IN_QUOTED_FIELD fs (b +:+ f)) (pending_lines rest).
Proof.
  induction f as [|c f IH]; intros fs b rest Hlen.
  - simpl. rewrite string_app_nil_l, string_app_nil_r.
    by rewrite read_rows_char, step_quoted_quote.
  - rewrite string_length_app in Hlen. simpl in Hlen.
    assert (b +:+ String c f = (b +:+ String c "") +:+ f) as Hbf.
    { by rewrite string_app_assoc. }
    assert (Z.of_nat (String.length ((b +:+ String c "") +:+ f)) <= field_limit) as Hlen'.
    { rewrite !string_length_app. simpl. lia. }
    rewrite Hbf. rewrite <- (IH fs _ rest Hlen').
    simpl escape_quotes. destruct (decide (c = quotechar)) as [->|Hq].
    + rewrite !string_app_cons.
      rewrite read_rows_char, step_quoted_quote by done. simpl.
      rewrite read_rows_char, step_quote_quote by (done || lia). done.
    + rewrite string_app_cons.
      destruct (is_newline c) eqn:Hnl.
      * (* a line feed inside quotes ends the line but not the field *)
        unfold pending_lines at 1. simpl readlines. rewrite Hnl.
        simpl read_rows. rewrite step_quoted_data by (done || lia). simpl.
        destruct (escape_quotes f +:+ String quotechar rest) as [|x s] eqn:Hs.
        { destruct (escape_quotes f); discriminate. }
        by rewrite pending_lines_cons.
      * rewrite read_rows_char, step_quoted_data by (done || lia). done.
Qed.

(** Outside quotes, characters that are not special are data. *)
Lemma read_unquoted_body f : forall fs b rest,
  needs_quoting f = false ->
  Z.of_nat (String.length (b +:+ f)) <= field_limit ->
  read_rows (mk IN_FIELD fs b) (pending_lines (f +:+ rest)) =
  read_rows (mk IN_FIELD fs (b +:+ f)) (pending_lines rest).
Proof.
  induction f as [|c f IH]; intros fs b rest Hnq Hlen.
  - by rewrite string_app_nil_l, string_app_nil_r.
  - simpl in Hnq. apply orb_false_iff in Hnq as [Hc Hnq].
    rewrite string_length_app in Hlen. simpl in Hlen.
    assert (b +:+ String c f = (b +:+ String c "") +:+ f) as Hbf.
    { by rewrite string_app_assoc. }
    assert (Z.of_nat (String.length ((b +:+ String c "") +:+ f)) <= field_limit) as Hlen'.
    { rewrite !string_length_app. simpl. lia. }
    rewrite Hbf. rewrite <- (IH fs _ rest Hnq Hlen').
    rewrite string_app_cons.
    pose proof (is_special_false c Hc) as (_ & _ & He).
    rewrite read_rows_char by by apply is_newline_eol.
    by rewrite step_field_data by (done || lia).
Qed.

Lemma readlines_pending s : s <> "" -> readlines s = pending_lines s.
Proof. destruct s; [done|]. intros _. apply pending_lines_cons. Qed.

Lemma string_app_delimiter_ne a c b : a +:+ String c b <> "".
Proof. by destruct a. Qed.

(** An encoded field followed by a delimiter is read back as the field,
    from the start of a field or of a record. *)
Lemma read_field_then_delimiter st q f fs rest :
  st = START_FIELD \/ st = START_RECORD ->
  Z.of_nat (String.length f) <= field_limit ->
  read_rows (mk st fs "") (pending_lines (encode_field q f +:+ String delimiter rest)) =
  read_rows (mk START_FIELD (fs ++ [f]) "") (pending_lines rest).
Proof.
  intros Hst Hlen.
  assert (forall c s, is_eol_char c = false ->
            read_rows (mk st fs "") (pending_lines (String c s)) =
            read_rows (mk START_FIELD fs "") (pending_lines (String c s))) as Hstart.
  { intros c s He. destruct Hst as [-> | ->]; [done|].
    rewrite !read_rows_char by by apply is_newline_eol.
    by rewrite step_start_record. }
  unfold encode_field. destruct (q || needs_quoting f) eqn:Hq.
  - unfold quote_field.
    rewrite string_app_cons, string_app_assoc, string_app_cons, string_app_nil_l.
    rewrite Hstart by done.
    rewrite read_rows_char, step_start_quote by done. simpl.
    rewrite read_quoted_body by done. rewrite string_app_nil_l.
    by rewrite read_rows_char, step_quote_delimiter.
  - apply orb_false_iff in Hq as [_ Hnq].
    destruct f as [|c f].
    + rewrite string_app_nil_l. rewrite Hstart by done.
      by rewrite read_rows_char, step_start_delimiter.
    + simpl in Hnq. apply orb_false_iff in Hnq as [Hc Hnq].
      pose proof (is_special_false c Hc) as (_ & _ & He).
      rewrite string_app_cons. rewrite Hstart by done.
      rewrite read_rows_char, step_start_data by (done || by apply is_newline_eol).
      simpl. rewrite read_unquoted_body by done.
      by rewrite read_rows_char, step_field_delimiter.
Qed.

(** An encoded field at the end of the text completes the record. *)
Lemma read_field_then_end q f fs :
  Z.of_nat (String.length f) <= field_limit ->
  read_rows (mk START_FIELD fs "") (pending_lines (encode_field q f)) =
  Some [fs ++ [f]].
Proof.
  intros Hlen.
  unfold encode_field. destruct (q || needs_quoting f) eqn:Hq.
  - unfold quote_field.
    rewrite read_rows_char, step_start_quote by done. simpl.
    rewrite read_quoted_body by done. rewrite string_app_nil_l.
    by rewrite read_rows_end, step_quote_eol.
  - apply orb_false_iff in Hq as [_ Hnq].
    destruct f as [|c f].
    + by rewrite read_rows_end, step_start_eol.
    + simpl in Hnq. apply orb_false_iff in Hnq as [Hc Hnq].
      pose proof (is_special_false c Hc) as (_ & _ & He).
      rewrite read_rows_char, step_start_data by (done || by apply is_newline_eol).
      simpl. rewrite <- (string_app_nil_r f) at 1.
      rewrite read_unquoted_body by done.
      by rewrite read_rows_end, step_field_eol.
Qed.

(** A non-empty list of joined fields is read back from the start of a
    field. *)
Lemma read_joined_fields q fs : forall i acc,
  fs <> [] -> Forall fits fs ->
  read_rows (mk START_FIELD acc "") (pending_lines (join_fields q i fs)) =
  Some [acc ++ fs].
Proof.
  induction fs as [|f fs IH]; intros i acc Hne Hfit; [done|].
  apply Forall_cons in Hfit as [Hf Hfit].
  destruct fs as [|f' fs].
  - simpl. by apply read_field_then_end.
  - change (join_fields q i (f :: f' :: fs))
      with (encode_field (q i) f +:+ String delimiter (join_fields q (S i) (f' :: fs))).
    rewrite read_field_then_delimiter by auto.
    rewrite IH by done. by rewrite <- app_assoc.
Qed.

(** A record of at least two joined fields is the one row of its text. *)
Lemma reader_rows_joined q f f' fs :
  Forall fits (f :: f' :: fs) ->
  reader_rows (join_fields q 0 (f :: f' :: fs)) = Some [f :: f' :: fs].
Proof.
  intros Hfit. unfold reader_rows.
  change (join_fields q 0 (f :: f' :: fs))
    with (encode_field (q 0%nat) f +:+ String delimiter (join_fields q 1 (f' :: fs))).
  rewrite readlines_pending by apply string_app_delimiter_ne.
  apply Forall_cons in Hfit as [Hf Hfit].
  unfold parse_reset.
  rewrite read_field_then_delimiter by auto.
  by rewrite read_joined_fields.
Qed.

End ReaderFacts.

Section RoundTripFacts.
Import PyStr Csv Quoting Response.

Lemma needs_quoting_lstrip f : needs_quoting f = false -> needs_quoting (lstrip f) = false.
Proof.
  induction f as [|c f IH]; [done|]. simpl. intros Hnq.
  apply orb_false_iff in Hnq as [Hc Hnq].
  destruct (is_space c); [by apply IH|]. simpl. by rewrite Hc, Hnq.
Qed.

Lemma needs_quoting_rstrip f : needs_quoting f = false -> needs_quoting (rstrip f) = false.
Proof.
  induction f as [|c f IH]; [done|]. simpl. intros Hnq.
  apply orb_false_iff in Hnq as [Hc Hnq]. specialize (IH Hnq).
  destruct (rstrip f) as [|k kept].
  - destruct (is_space c); [done|]. simpl. by rewrite Hc.
  - simpl in *. by rewrite Hc, IH.
Qed.

Lemma length_lstrip f : (String.length (lstrip f) <= String.length f)%nat.
Proof. induction f as [|c f IH]; simpl; [lia|]. destruct (is_space c); simpl; lia. Qed.

Lemma length_rstrip f : (String.length (rstrip f) <= String.length f)%nat.
Proof.
  induction f as [|c f IH]; simpl; [lia|].
  destruct (rstrip f); [destruct (is_space c)|]; simpl in *; lia.
Qed.

Lemma is_space_delimiter : is_space delimiter = false.
Proof. reflexivity. Qed.

Lemma lstrip_encode_field q f rest :
  lstrip (encode_field q f +:+ String delimiter rest) =
  encode_field q (lstripped_value q f) +:+ String delimiter rest.
Proof.
  unfold lstripped_value, encode_field.
  destruct (q || needs_quoting f) eqn:Hq.
  - by rewrite Hq.
  - apply orb_false_iff in Hq as [-> Hnq].
    rewrite (needs_quoting_lstrip f Hnq). simpl orb. cbv iota.
    by apply lstrip_app_nonspace.
Qed.

Lemma rstrip_encode_field q f :
  rstrip (encode_field q f) = encode_field q (rstripped_value q f).
Proof.
  unfold rstripped_value, encode_field.
  destruct (q || needs_quoting f) eqn:Hq.
  - rewrite Hq. unfold quote_field.
    change (String quotechar (escape_quotes f +:+ String quotechar ""))
      with (String quotechar (escape_quotes f) +:+ String quotechar "").
    by rewrite rstrip_app_nonspace.
  - apply orb_false_iff in Hq as [-> Hnq].
    by rewrite (needs_quoting_rstrip f Hnq).
Qed.

Lemma strip_lstripped_value q f : strip (lstripped_value q f) = strip f.
Proof. unfold lstripped_value. destruct (q || _); [done|apply strip_lstrip]. Qed.

Lemma strip_rstripped_value q f : strip (rstripped_value q f) = strip f.
Proof. unfold rstripped_value. destruct (q || _); [done|apply strip_rstrip]. Qed.

Lemma fits_lstripped_value q f : fits f -> fits (lstripped_value q f).
Proof.
  unfold fits, lstripped_value. intros Hf. destruct (q || _); [done|].
  pose proof (length_lstrip f). lia.
Qed.

Lemma fits_rstripped_value q f : fits f -> fits (rstripped_value q f).
Proof.
  unfold fits, rstripped_value. intros Hf. destruct (q || _); [done|].
  pose proof (length_rstrip f). lia.
Qed.

(** Stripping an encoded line of seven fields only touches the first and
    the last value. *)
Lemma strip_encoded_line q f0 f1 f2 f3 f4 f5 f6 :
  strip (join_fields q 0 [f0; f1; f2; f3; f4; f5; f6]) =
  join_fields q 0
    [lstripped_value (q 0%nat) f0; f1; f2; f3; f4; f5; rstripped_value (q 6%nat) f6].
Proof.
  unfold strip. cbn [join_fields].
  rewrite lstrip_encode_field.
  rewrite !rstrip_app_nonspace by apply is_space_delimiter.
  by rewrite rstrip_encode_field.
Qed.

Lemma csv_split_encoded_line q r :
  within_field_limit r ->
  csv_split (encode_result q r) =
  Some [[lstripped_value (q 0%nat) (CompanyID r); CompanyName r; AI_native r;
         Confidence_1to5 r; Reasons_3_points r; Sources_used r;
         rstripped_value (q 6%nat) (Verification_critique r)]].
Proof.
  intros Hfit. unfold csv_split, encode_result, fields_of.
  rewrite strip_encoded_line. apply reader_rows_joined.
  unfold within_field_limit, fields_of in Hfit.
  repeat (apply Forall_cons in Hfit as [? Hfit]).
  repeat constructor; try done.
  - by apply fits_lstripped_value.
  - by apply fits_rstripped_value.
Qed.

Lemma stripped_fixed r : no_surrounding_whitespace r -> stripped r = r.
Proof.
  unfold no_surrounding_whitespace, fields_of, stripped. intros H.
  repeat (apply Forall_cons in H as [? H]).
  destruct r; simpl in *. by f_equal.
Qed.

End RoundTripFacts.

(** ** Response parsing *)

Section ParsingClaims.
Import PyStr Csv Quoting Response Samples.

(** C8 (as the code has it): for every seven field values that fit a CSV
    field and every choice of quoted fields, parsing the CSV encoding of the
    values (commas, quotes and line breaks protected by quoting) yields each
    value with its leading and trailing whitespace removed, in both scripts;
    the original seven values are recovered unmodified exactly when none of
    them starts or ends with whitespace. *)
Theorem parser_recovers_stripped_values (quoted : nat -> bool) (r : ClassificationResult) :
  within_field_limit r ->
  parse_classification_result (encode_result quoted r) = (stripped r, []) /\
  parse_line_parallel (Content (encode_result quoted r)) = ([stripped r], []) /\
  (no_surrounding_whitespace r ->
   parse_classification_result (encode_result quoted r) = (r, []) /\
   parse_line_parallel (Content (encode_result quoted r)) = ([r], [])) /\
  (parse_classification_result (encode_result quoted r) = (r, []) ->
   no_surrounding_whitespace r).
Proof.
  intros Hfit.
  pose proof (csv_split_encoded_line quoted r Hfit) as Hsplit.
  unfold csv_split in Hsplit.
  assert (parse_classification_result (encode_result quoted r) = (stripped r, [])) as Hseq.
  { unfold parse_classification_result. rewrite Hsplit.
    unfold result_of_row, stripped.
    by rewrite strip_lstripped_value, strip_rstripped_value. }
  assert (parse_line_parallel (Content (encode_result quoted r)) = ([stripped r], [])) as Hpar.
  { unfold parse_line_parallel. rewrite Hsplit.
    unfold result_of_row, stripped.
    by rewrite strip_lstripped_value, strip_rstripped_value. }
  split; [done|]. split; [done|]. split.
  - intros Hns. by rewrite Hseq, Hpar, (stripped_fixed r Hns).
  - rewrite Hseq. intros Heq. apply (f_equal fst) in Heq. simpl in Heq.
    unfold no_surrounding_whitespace, fields_of.
    destruct r; unfold stripped in Heq; simpl in *.
    injection Heq as H0 H1 H2 H3 H4 H5 H6.
    repeat constructor; done.
Qed.

Lemma parser_recovers_stripped_values_witness :
  parse_classification_result (encode_result minimal_quoting clean_result)
    = (clean_result, []) /\
  parse_line_parallel (Content (encode_result minimal_quoting clean_result))
    = ([clean_result], []).
Proof.
  assert (within_field_limit clean_result) as Hfit.
  { repeat constructor; vm_compute; discriminate. }
  assert (no_surrounding_whitespace clean_result) as Hns.
  { repeat constructor. }
  exact (proj1 (proj2 (proj2
    (parser_recovers_stripped_values minimal_quoting clean_result Hfit))) Hns).
Defined.

(** C8 (as stated) fails: a rationale that starts with a space and contains
    commas is quoted in the result line, and the parser returns it without
    the space. *)
Lemma parser_strips_quoted_rationale :
  within_field_limit padded_result /\
  Reasons_3_points padded_result = " builds ML models, ships them, sells inference" /\
  Reasons_3_points (fst (parse_classification_result
                           (encode_result minimal_quoting padded_result)))
    = "builds ML models, ships them, sells inference" /\
  fst (parse_classification_result (encode_result minimal_quoting padded_result))
    <> padded_result /\
  parse_line_parallel (Content (encode_result minimal_quoting padded_result))
    <> ([padded_result], []).
Proof.
  split; [repeat constructor; vm_compute; discriminate|].
  split; [reflexivity|].
  split; [by vm_compute|].
  split; vm_compute; discriminate.
Qed.

End ParsingClaims.

(** ** The parsing loop of a download *)

Section DownloadFacts.
Import PyStr Csv Response Samples.

Implicit Types body : RawLine -> list ClassificationResult * list Printed.

(** The loop appends, line by line, what its body yields. *)
Lemma parse_lines_unfold body lines : forall parsed_results printed,
  parse_lines body lines parsed_results printed =
  (parsed_results ++ concat ((fst ∘ body) <$> lines),
   printed ++ concat ((snd ∘ body) <$> lines)).
Proof.
  induction lines as [|line lines IH]; intros parsed_results printed; simpl.
  - by rewrite !app_nil_r.
  - destruct (body line) as [rows out]. rewrite IH.
    simpl. by rewrite !app_assoc.
Qed.

(** A line whose body yields nothing and prints nothing can be removed. *)
Lemma parse_lines_skip body before line after :
  body line = ([], []) ->
  parse_lines body (before ++ line :: after) [] [] =
  parse_lines body (before ++ after) [] [].
Proof.
  intros Hbody. rewrite !parse_lines_unfold, !fmap_app, !fmap_cons, !concat_app.
  simpl. by rewrite Hbody.
Qed.

Lemma short_row_no_result row0 :
  (length row0 < 7)%nat -> result_of_row row0 = None.
Proof.
  intros Hlen. do 7 (destruct row0 as [|? row0]; [done|]). simpl in Hlen. lia.
Qed.

Lemma fewer_than_seven_sequential ai_response :
  fewer_than_seven_fields ai_response ->
  parse_line_sequential (Content ai_response) = ([], []).
Proof.
  unfold fewer_than_seven_fields, csv_split, parse_line_sequential,
    parse_classification_result.
  destruct (reader_rows (strip ai_response)) as [[|row0 rows]|]; [done| |done].
  intros Hlen. by rewrite short_row_no_result.
Qed.

Lemma fewer_than_seven_parallel ai_response :
  fewer_than_seven_fields ai_response ->
  parse_line_parallel (Content ai_response) = ([], []).
Proof.
  unfold fewer_than_seven_fields, csv_split, parse_line_parallel.
  destruct (reader_rows (strip ai_response)) as [[|row0 rows]|]; [done| |done].
  intros Hlen. by rewrite short_row_no_result.
Qed.

Lemma truthy_nonempty s : truthy s = true -> s <> "".
Proof. by destruct s. Qed.

Lemma parse_line_sequential_identifier line :
  Forall (fun row => CompanyID row <> "") (fst (parse_line_sequential line)).
Proof.
  destruct line as [| |ai_response]; simpl; [done..|].
  destruct (parse_classification_result ai_response) as [parsed printed].
  destruct (truthy (CompanyID parsed)) eqn:Ht; simpl; [|done].
  repeat constructor. by apply truthy_nonempty.
Qed.

Lemma blank_identifier_sequential ai_response f0 fs rows :
  csv_split ai_response = Some ((f0 :: fs) :: rows) ->
  strip f0 = "" ->
  parse_line_sequential (Content ai_response) = ([], []).
Proof.
  unfold csv_split, parse_line_sequential, parse_classification_result.
  intros -> Hblank.
  destruct (result_of_row (f0 :: fs)) as [result|] eqn:Hrow; [|done].
  assert (CompanyID result = "") as Hid.
  { do 6 (destruct fs as [|? fs]; [done|]). simpl in Hrow.
    by injection Hrow as <-. }
  by rewrite Hid.
Qed.

End DownloadFacts.

Section DownloadClaims.
Import PyStr Csv Response Samples.

(** C5 (as the code has it): in both scripts a response line whose
    delimiter-aware split yields fewer than seven fields is dropped, and the
    table and the printed output of the download are those of the same file
    without that line: the remaining lines are processed unaffected, no
    error is raised, and nothing is printed about the dropped line (only the
    number of rows kept is printed). *)
Theorem short_line_is_dropped_without_trace
    (before after : list RawLine) (ai_response : string) :
  fewer_than_seven_fields ai_response ->
  parse_results_sequential (before ++ Content ai_response :: after) =
    parse_results_sequential (before ++ after) /\
  parse_results_parallel (before ++ Content ai_response :: after) =
    parse_results_parallel (before ++ after).
Proof.
  intros Hshort. unfold parse_results_sequential, parse_results_parallel.
  rewrite (parse_lines_skip parse_line_sequential)
    by by apply fewer_than_seven_sequential.
  rewrite (parse_lines_skip parse_line_parallel)
    by by apply fewer_than_seven_parallel.
  done.
Qed.

Lemma short_line_is_dropped_without_trace_witness :
  parse_results_sequential [Content good_response; Content short_response;
                            Content good_response] =
    (Some [good_row; good_row], [OK_Saved_results 2]) /\
  parse_results_parallel [Content good_response; Content short_response;
                          Content good_response] =
    (Some [good_row; good_row], [Downloaded_results 2]).
Proof.
  assert (fewer_than_seven_fields short_response) as Hshort.
  { vm_compute. lia. }
  destruct (short_line_is_dropped_without_trace
              [Content good_response] [Content good_response] short_response Hshort)
    as [Hseq Hpar].
  split.
  - etransitivity; [exact Hseq|]. vm_compute. reflexivity.
  - etransitivity; [exact Hpar|]. vm_compute. reflexivity.
Defined.

(** C5 (as stated) fails: a line of six fields is dropped, and the
    download prints exactly what it prints for the file without that line,
    so neither the drop nor a count of dropped lines is logged. *)
Lemma dropped_line_is_not_logged :
  fewer_than_seven_fields short_response /\
  snd (parse_results_sequential [Content short_response; Content good_response])
    = [OK_Saved_results 1] /\
  snd (parse_results_sequential [Content good_response]) = [OK_Saved_results 1] /\
  snd (parse_results_parallel [Content short_response; Content good_response])
    = [Downloaded_results 1] /\
  snd (parse_results_parallel [Content good_response]) = [Downloaded_results 1].
Proof.
  split; [vm_compute; lia|].
  repeat split; vm_compute; reflexivity.
Qed.

(** C10: in the sequential script every row of a per-batch parsed table has
    a non-empty identifier; a response whose split yields a first row of
    seven or more fields with an empty (or all-whitespace) first field adds
    no row and prints nothing, so the download is that of the file without
    the line. *)
Theorem sequential_rows_have_identifier
    (lines before after : list RawLine) (table : list ClassificationResult)
    (ai_response f0 : string) (fs : list string) (rows : list (list string)) :
  (fst (parse_results_sequential lines) = Some table ->
   Forall (fun row => CompanyID row <> "") table) /\
  (csv_split ai_response = Some ((f0 :: fs) :: rows) ->
   (7 <= length (f0 :: fs))%nat ->
   strip f0 = "" ->
   parse_line_sequential (Content ai_response) = ([], []) /\
   parse_results_sequential (before ++ Content ai_response :: after) =
     parse_results_sequential (before ++ after)).
Proof.
  split.
  - unfold parse_results_sequential. rewrite parse_lines_unfold. simpl.
    set (parsed := concat ((fst ∘ parse_line_sequential) <$> lines)).
    assert (Forall (fun row => CompanyID row <> "") parsed) as Hall.
    { apply Forall_concat, Forall_fmap, Forall_forall.
      intros line _. apply parse_line_sequential_identifier. }
    destruct parsed; simpl; [done|]. by intros [= <-].
  - intros Hsplit _ Hblank.
    pose proof (blank_identifier_sequential _ _ _ _ Hsplit Hblank) as Hline.
    split; [done|]. unfold parse_results_sequential.
    by rewrite (parse_lines_skip parse_line_sequential).
Qed.

Lemma sequential_rows_have_identifier_witness :
  Forall (fun row => CompanyID row <> "") [good_row] /\
  parse_line_sequential (Content blank_id_response) = ([], []) /\
  parse_results_sequential [Content blank_id_response; Content good_response] =
    (Some [good_row], [OK_Saved_results 1]).
Proof.
  pose proof (sequential_rows_have_identifier
                [Content blank_id_response; Content good_response]
                [] [Content good_response] [good_row] blank_id_response
                "" ["Gamma LLC"; "1"; "3"; "sells an AI assistant";
                    "short description"; "none"] []) as [Hrows Hblank].
  assert (csv_split blank_id_response =
          Some [[""; "Gamma LLC"; "1"; "3"; "sells an AI assistant";
                 "short description"; "none"]]) as Hsplit by (vm_compute; reflexivity).
  assert (fst (parse_results_sequential
                 [Content blank_id_response; Content good_response]) = Some [good_row])
    as Htable by (vm_compute; reflexivity).
  destruct (Hblank Hsplit ltac:(simpl; lia) eq_refl) as [Hline Hskip].
  split; [exact (Hrows Htable)|].
  split; [exact Hline|].
  etransitivity; [exact Hskip|]. vm_compute. reflexivity.
Defined.

End DownloadClaims.

(** ** Running the scripts *)

Section MonadFacts.
Import World.

Lemma bind_returned {A B} (m : M A) (k : A -> M B) w a w' :
  m w = Returned a w' -> (m ≫= k) w = k a w'.
Proof. intros H. unfold mbind, M_bind. by rewrite H. Qed.

Lemma bind_running {A B} (m : M A) (k : A -> M B) w w' :
  m w = Running w' -> (m ≫= k) w = Running w'.
Proof. intros H. unfold mbind, M_bind. by rewrite H. Qed.

End MonadFacts.

(** Unfold the primitive steps of the scripts on a symbolic world. *)
Ltac run_step :=
  unfold World.write_requests, World.write_id, World.write_results,
    World.write_output, World.write_output_csv, World.remove_requests,
    World.set_fs, World.pass, World.print, World.sleep, World.call,
    World.get, World.modify, World.raise, World.out_of_fuel,
    mbind, mret, World.M_bind, World.M_ret;
  cbn beta iota delta [World.fs World.clock World.calls World.printed].

(** ** Polling *)

Section PollingFacts.
Import PyStr Response World.
Variable remote : Remote.

Lemma check_all_returns batch_ids : forall all_done w,
  exists all_done' w',
    Parallel.check_all remote batch_ids all_done w = Returned all_done' w' /\
    clock w' = clock w /\ fs w' = fs w /\
    (all_done = false -> all_done' = false).
Proof.
  induction batch_ids as [|[batch_num batch_id] rest IH]; intros all_done w.
  - exists all_done, w. done.
  - simpl. destruct batch_id as [id|].
    + destruct (truthy id).
      * run_step.
        destruct (on_batches_retrieve remote id (clock w)) as [batch|].
        -- run_step.
           destruct (status batch);
             match goal with
             | |- context [Parallel.check_all remote rest ?b ?w0] =>
                 destruct (IH b w0) as (b' & w' & -> & Hc & Hf & Hb)
             end; exists b', w'; repeat split; auto.
        -- run_step.
           match goal with
           | |- context [Parallel.check_all remote rest ?b ?w0] =>
               destruct (IH b w0) as (b' & w' & -> & Hc & Hf & Hb)
           end. exists b', w'. repeat split; auto.
      * run_step.
        match goal with
        | |- context [Parallel.check_all remote rest ?b ?w0] =>
            destruct (IH b w0) as (b' & w' & -> & Hc & Hf & Hb)
        end. exists b', w'. repeat split; auto.
    + run_step.
      match goal with
      | |- context [Parallel.check_all remote rest ?b ?w0] =>
          destruct (IH b w0) as (b' & w' & -> & Hc & Hf & Hb)
      end. exists b', w'. repeat split; auto.
Qed.

Lemma check_all_stuck batch_ids batch_num id :
  (batch_num, Some id) ∈ batch_ids -> truthy id = true ->
  never_completed_or_failed remote id ->
  forall all_done w, exists w',
    Parallel.check_all remote batch_ids all_done w = Returned false w' /\
    clock w' = clock w.
Proof.
  intros Hin Hid Hstuck.
  induction batch_ids as [|[n' id'] rest IH]; intros all_done w.
  - by apply elem_of_nil in Hin.
  - apply elem_of_cons in Hin as [Heq|Hin].
    + injection Heq as <- <-. simpl. rewrite Hid. run_step.
      specialize (Hstuck (clock w)).
      destruct (on_batches_retrieve remote id (clock w)) as [batch|].
      * destruct Hstuck as [Hc Hf]. run_step.
        destruct (status batch); try done;
          match goal with
          | |- context [Parallel.check_all remote rest false ?w0] =>
              destruct (check_all_returns rest false w0)
                as (b' & w' & -> & Hclock & _ & Hb)
          end; exists w'; by rewrite (Hb eq_refl).
      * run_step.
        match goal with
        | |- context [Parallel.check_all remote rest false ?w0] =>
            destruct (check_all_returns rest false w0)
              as (b' & w' & -> & Hclock & _ & Hb)
        end. exists w'. by rewrite (Hb eq_refl).
    + specialize (IH Hin). simpl. destruct id' as [id'|].
      * destruct (truthy id').
        -- run_step.
           destruct (on_batches_retrieve remote id' (clock w)) as [batch|].
           ++ run_step.
              destruct (status batch);
                match goal with
                | |- context [Parallel.check_all remote rest ?b ?w0] =>
                    destruct (IH b w0) as (w' & -> & Hclock)
                end; by exists w'.
           ++ run_step.
              match goal with
              | |- context [Parallel.check_all remote rest ?b ?w0] =>
                  destruct (IH b w0) as (w' & -> & Hclock)
              end. by exists w'.
        -- run_step.
           match goal with
           | |- context [Parallel.check_all remote rest ?b ?w0] =>
               destruct (IH b w0) as (w' & -> & Hclock)
           end. by exists w'.
      * run_step.
        match goal with
        | |- context [Parallel.check_all remote rest ?b ?w0] =>
            destruct (IH b w0) as (w' & -> & Hclock)
        end. by exists w'.
Qed.

(** As long as one monitored batch is never seen [completed] or [failed],
    the parallel monitor is still running after any number of checks. *)
Lemma monitor_all_batches_keeps_running batch_ids batch_num id :
  (batch_num, Some id) ∈ batch_ids -> truthy id = true ->
  never_completed_or_failed remote id ->
  forall fuel w, exists w',
    Parallel.monitor_all_batches remote fuel batch_ids w = Running w' /\
    clock w' = clock w + 60 * Z.of_nat fuel.
Proof.
  intros Hin Hid Hstuck fuel.
  induction fuel as [|fuel IH]; intros w.
  - exists w. split; [done|lia].
  - simpl.
    destruct (check_all_stuck batch_ids batch_num id Hin Hid Hstuck true w)
      as (w1 & Hcheck & Hclock).
    rewrite (bind_returned _ _ _ _ _ Hcheck). run_step.
    match goal with
    | |- context [Parallel.monitor_all_batches remote fuel batch_ids ?w0] =>
        destruct (IH w0) as (w' & -> & Hclock')
    end.
    exists w'. split; [done|]. simpl in Hclock'. lia.
Qed.

(** The sequential monitor stops at the first check that sees a terminal
    state, having queried every 60 seconds until then. *)
Lemma poll_until_terminal_halts batch_num id (k : nat) : forall fuel w batch,
  (k < fuel)%nat ->
  (forall i : nat, (i < k)%nat ->
     match on_batches_retrieve remote id (clock w + 60 * Z.of_nat i) with
     | Some b => terminal (status b) = false
     | None => True
     end) ->
  on_batches_retrieve remote id (clock w + 60 * Z.of_nat k) = Some batch ->
  terminal (status batch) = true ->
  exists w',
    Sequential.poll_until_terminal remote fuel batch_num id w
      = Returned (status batch) w' /\
    clock w' = clock w + 60 * Z.of_nat k /\
    fs w' = fs w /\
    calls w' = calls w ++
      ((fun i : nat => (clock w + 60 * Z.of_nat i, batches_retrieve id)) <$> seq 0 (S k)).
Proof.
  induction k as [|k IH]; intros fuel w batch Hfuel Hbefore Hat Hterm.
  - destruct fuel as [|fuel]; [lia|]. simpl. run_step.
    replace (clock w + 60 * Z.of_nat 0) with (clock w) in * by lia.
    rewrite Hat. run_step.
    destruct (status batch) eqn:Hs; try done;
      (eexists; split; [reflexivity|]; simpl; repeat split; lia).
  - destruct fuel as [|fuel]; [lia|]. simpl. run_step.
    pose proof (Hbefore 0%nat ltac:(lia)) as H0.
    replace (clock w + 60 * Z.of_nat 0) with (clock w) in H0 by lia.
    assert (forall w0 : World, clock w0 = clock w + 60 -> fs w0 = fs w ->
              calls w0 = calls w ++ [(clock w, batches_retrieve id)] ->
              exists w',
                Sequential.poll_until_terminal remote fuel batch_num id w0
                  = Returned (status batch) w' /\
                clock w' = clock w + 60 * Z.of_nat (S k) /\
                fs w' = fs w /\
                calls w' = calls w ++
                  ((fun i : nat => (clock w + 60 * Z.of_nat i, batches_retrieve id))
                     <$> seq 0 (S (S k)))) as Hnext.
    { intros w0 Hc0 Hf0 Hcalls0.
      destruct (IH fuel w0 batch ltac:(lia)) as (w' & Hrun & Hc & Hf & Hcalls).
      - intros i Hi. specialize (Hbefore (S i) ltac:(lia)).
        by replace (clock w0 + 60 * Z.of_nat i)
          with (clock w + 60 * Z.of_nat (S i)) by lia.
      - by replace (clock w0 + 60 * Z.of_nat k)
          with (clock w + 60 * Z.of_nat (S k)) by lia.
      - done.
      - exists w'. split; [done|]. split; [lia|]. split; [congruence|].
        rewrite Hcalls, Hcalls0, <- app_assoc. f_equal.
        change (seq 0 (S (S k))) with (0%nat :: seq 1 (S k)).
        rewrite <- fmap_S_seq, fmap_cons, <- list_fmap_compose.
        cbn [app]. f_equal; [f_equal; lia|].
        apply list_fmap_ext. intros _ i _. simpl. f_equal. lia. }
    destruct (on_batches_retrieve remote id (clock w)) as [b|].
    + run_step. destruct (status b) eqn:Hs; try done; by apply Hnext.
    + run_step. by apply Hnext.
Qed.

End PollingFacts.

Section PollingClaims.
Import PyStr Response World Scenarios.

(** C4: the sequential monitor queries every 60 seconds and returns at the
    first check that sees a terminal state; on a batch that has expired
    (a terminal state) it returns [expired] at its first check, whereas
    the parallel monitor, given that same batch alone, is still running
    after any number of checks, 60 seconds apart. *)
Theorem parallel_monitor_does_not_halt_on_expired (fuel : nat) :
  terminal expired = true /\
  (exists w',
     Sequential.check_single_batch_status expired_remote (S fuel) 1
       (start completed_run_fs) = Returned expired w' /\
     calls w' = [(0, batches_retrieve "batch-one")]) /\
  (exists w',
     Parallel.monitor_all_batches expired_remote fuel [(1, Some "batch-one")]
       (start completed_run_fs) = Running w' /\
     clock w' = 60 * Z.of_nat fuel).
Proof.
  split; [done|]. split.
  - eexists. split; [vm_compute; reflexivity|reflexivity].
  - destruct (monitor_all_batches_keeps_running expired_remote
                [(1, Some "batch-one")] 1 "batch-one") with (fuel := fuel)
      (w := start completed_run_fs) as (w' & Hrun & Hclock).
    + apply list_elem_of_singleton. reflexivity.
    + reflexivity.
    + intros t. simpl. done.
    + exists w'. split; [done|]. simpl in Hclock. lia.
Qed.

End PollingClaims.

(** ** Uploading *)

Section UploadFacts.
Import PyStr Response World.
Variable remote : Remote.



End UploadFacts.

Section SequentialUploadFacts.
Import Partitioner PyStr Response World.
Context {Row : Type}.
Variable cfg : Config.
Variable df : list Row.
Variable request_line : Z -> Row -> string.
Variable remote : Remote.



End SequentialUploadFacts.

(** ** Re-running and merging *)

Section QuietFacts.
Import Partitioner PyStr Response World.

Lemma quiet_refl w : quiet w w.
Proof.
  split; [done|]. exists []. by rewrite app_nil_r.
Qed.

Lemma quiet_trans w1 w2 w3 : quiet w1 w2 -> quiet w2 w3 -> quiet w1 w3.
Proof.
  intros [(Ha & Hb & Hc & Hd) (add1 & Hc1 & Hp1)] [(Ha' & Hb' & Hc' & Hd') (add2 & Hc2 & Hp2)].
  split; [repeat split; congruence|].
  exists (add1 ++ add2). split; [by rewrite Hc2, Hc1, app_assoc|].
  by apply Forall_app.
Qed.

(** A step that leaves the artifacts and the calls alone is quiet. *)
Lemma quiet_same w w' :
  batch_requests (fs w') = batch_requests (fs w) ->
  batch_ids (fs w') = batch_ids (fs w) ->
  batch_results (fs w') = batch_results (fs w) ->
  batch_outputs (fs w') = batch_outputs (fs w) ->
  calls w' = calls w ->
  quiet w w'.
Proof.
  intros. split; [done|]. exists []. by rewrite app_nil_r.
Qed.

Lemma quiet_poll w w' t id :
  batch_requests (fs w') = batch_requests (fs w) ->
  batch_ids (fs w') = batch_ids (fs w) ->
  batch_results (fs w') = batch_results (fs w) ->
  batch_outputs (fs w') = batch_outputs (fs w) ->
  calls w' = calls w ++ [(t, batches_retrieve id)] ->
  quiet w w'.
Proof.
  intros. split; [done|]. exists [(t, batches_retrieve id)]. split; [done|].
  by repeat constructor.
Qed.

(** A loop whose every iteration returns quietly returns quietly. *)
Lemma for_each_quiet {A} (xs : list A) (body : A -> M unit) w0 :
  (forall x w, x ∈ xs -> quiet w0 w ->
     exists w', body x w = Returned tt w' /\ quiet w0 w') ->
  forall w, quiet w0 w ->
    exists w', for_each xs body w = Returned tt w' /\ quiet w0 w'.
Proof.
  induction xs as [|x xs IH]; intros Hbody w Hq.
  - by exists w.
  - simpl. destruct (Hbody x w) as (w1 & Hrun & Hq1); [by left|done|].
    rewrite (bind_returned _ _ _ _ _ Hrun).
    apply IH; [|done]. intros y w2 Hy. apply Hbody. by right.
Qed.

End QuietFacts.

Section ParallelRerunFacts.
Import Partitioner PyStr Response World.
Context {Row : Type}.
Variable cfg : Config.
Variable df : list Row.
Variable request_line : Z -> Row -> string.
Variable remote : Remote.

Lemma create_all_batch_files_quiet nb spb w0 :
  (forall k, k ∈ seqZ 1 nb -> is_Some (batch_requests (fs w0) !! requests_path k)) ->
  forall w, quiet w0 w ->
    exists w', Parallel.create_all_batch_files df request_line nb spb w = Returned tt w' /\
               quiet w0 w'.
Proof.
  intros Hfiles. unfold Parallel.create_all_batch_files.
  apply for_each_quiet. intros k w Hk Hq.
  destruct Hq as [(Hreq & Hids & Hres & Hout) Hcalls].
  destruct (Hfiles k Hk) as [lines Hlines]. run_step.
  rewrite Hreq, Hlines. run_step.
  eexists. split; [reflexivity|]. split; [done|]. exact Hcalls.
Qed.

Lemma upload_each_quiet batch_nums w0 : forall acc w,
  (forall k, k ∈ batch_nums -> is_Some (batch_ids (fs w0) !! id_path k)) ->
  quiet w0 w ->
  exists ids w',
    Parallel.upload_each remote batch_nums acc w = Returned (acc ++ ids) w' /\
    quiet w0 w' /\
    Forall (fun entry => entry.1 ∈ batch_nums /\
              exists text, batch_ids (fs w0) !! id_path entry.1 = Some text /\
                           entry.2 = Some (strip text)) ids.
Proof.
  induction batch_nums as [|k rest IH]; intros acc w Hfiles Hq.
  - exists [], w. by rewrite app_nil_r.
  - simpl. unfold Parallel.upload_one at 1.
    destruct Hq as [(Hreq & Hids & Hres & Hout) Hcalls].
    destruct (Hfiles k) as [text Htext]; [by left|].
    run_step. rewrite Hids, Htext. run_step.
    match goal with
    | |- context [Parallel.upload_each remote rest ?acc' ?w1] =>
        destruct (IH acc' w1) as (ids & w' & Hrun & Hq' & Hall)
    end.
    { intros j Hj. apply Hfiles. by right. }
    { split; [done|exact Hcalls]. }
    exists ((k, Some (strip text)) :: ids), w'.
    split; [by rewrite Hrun, <- app_assoc|]. split; [done|].
    constructor.
    + split; [by left|]. by exists text.
    + eapply Forall_impl; [exact Hall|]. intros entry [Hin Hex].
      split; [by right|done].
Qed.

Lemma check_all_quiet batch_ids w0 : forall all_done w,
  Forall (settled remote w0) batch_ids ->
  quiet w0 w ->
  exists w', Parallel.check_all remote batch_ids all_done w = Returned all_done w' /\
             quiet w0 w'.
Proof.
  induction batch_ids as [|[k oid] rest IH]; intros all_done w Hall Hq.
  - by exists w.
  - apply Forall_cons in Hall as [[_ (id & Hid & Hdone)] Hall].
    simpl in Hid. subst oid. simpl.
    destruct (truthy id) eqn:Htruthy.
    + destruct (Hdone eq_refl (clock w)) as (batch & Hretrieve & Hstatus).
      run_step. rewrite Hretrieve. run_step.
      assert (forall w1, fs w1 = fs w ->
                calls w1 = calls w ++ [(clock w, batches_retrieve id)] ->
                quiet w0 w1) as Hstep.
      { intros w1 Hfs Hc. apply (quiet_trans _ w); [done|].
        eapply quiet_poll; try (by rewrite Hfs). exact Hc. }
      destruct Hstatus as [-> | ->]; apply IH; try done; by apply Hstep.
    + run_step. apply IH; [done|].
      apply (quiet_trans _ w); [done|]. by apply quiet_same.
Qed.

Lemma download_all_results_quiet batch_ids w0 :
  Forall (settled remote w0) batch_ids ->
  forall w, quiet w0 w ->
    exists w', Parallel.download_all_results remote batch_ids w = Returned tt w' /\
               quiet w0 w'.
Proof.
  intros Hall. unfold Parallel.download_all_results.
  apply for_each_quiet. intros [k oid] w Hin Hq.
  rewrite Forall_forall in Hall.
  destruct (Hall _ Hin) as [[rows Hrows] (id & Hid & _)].
  simpl in Hid, Hrows. subst oid. simpl.
  assert (forall w1, fs w1 = fs w -> calls w1 = calls w -> quiet w0 w1) as Hstep.
  { intros w1 Hfs Hc. apply (quiet_trans _ w); [done|].
    apply quiet_same; by rewrite ?Hfs. }
  destruct (truthy id); simpl.
  - run_step. destruct Hq as [(Hreq & Hids & Hres & Hout) Hcalls].
    rewrite Hout, Hrows. run_step.
    eexists. split; [reflexivity|]. by apply Hstep.
  - run_step. eexists. split; [reflexivity|]. by apply Hstep.
Qed.

End ParallelRerunFacts.

Section MergeFacts.
Import Partitioner PyStr Response World.

Lemma load_all_spec paths : forall acc w,
  exists w',
    Sequential.load_all paths acc w =
      Returned (acc ++ omap (fun p => batch_outputs (fs w) !! p) paths) w' /\
    fs w' = fs w /\ calls w' = calls w /\ clock w' = clock w.
Proof.
  induction paths as [|p paths IH]; intros acc w.
  - exists w. simpl. by rewrite app_nil_r.
  - simpl. run_step. destruct (batch_outputs (fs w) !! p) as [rows|] eqn:Hp.
    + run_step.
      match goal with
      | |- context [Sequential.load_all paths ?acc' ?w1] =>
          destruct (IH acc' w1) as (w' & Hrun & Hfs & Hcalls & Hclock)
      end.
      exists w'. simpl in *. rewrite Hrun, <- app_assoc. done.
    + destruct (IH acc w) as (w' & Hrun & Hfs & Hcalls & Hclock).
      exists w'. done.
Qed.

(** The merged table is the concatenation of the per-batch tables in the
    order [sorted] puts their paths; no remote call is made and no
    per-batch artifact changes. *)
Lemma merge_all_results_spec w :
  exists w',
    Sequential.merge_all_results w = Returned tt w' /\
    quiet w w' /\ clock w' = clock w /\
    output_csv (fs w') =
      match omap (fun p => batch_outputs (fs w) !! p) (Sequential.batch_files (fs w)) with
      | [] => output_csv (fs w)
      | tables => Some (concat tables)
      end.
Proof.
  unfold Sequential.merge_all_results. run_step.
  destruct (Sequential.batch_files (fs w)) as [|p paths] eqn:Hpaths.
  - run_step. eexists. split; [reflexivity|]. simpl.
    split; [by apply quiet_same|]. done.
  - destruct (load_all_spec (p :: paths) [] w) as (w1 & Hrun & Hfs & Hcalls & Hclock).
    rewrite Hrun. simpl app.
    destruct (omap _ (p :: paths)) as [|t tables].
    + run_step. exists w1. split; [done|].
      split; [apply quiet_same; by rewrite ?Hfs|]. by rewrite Hfs.
    + run_step. eexists. split; [reflexivity|]. simpl.
      split; [apply quiet_same; simpl; by rewrite ?Hfs|]. done.
Qed.

(** The paths are read in ascending order as strings, whatever order the
    directory lists them in. *)
Lemma batch_files_sorted d : StronglySorted String.le (Sequential.batch_files d).
Proof. unfold Sequential.batch_files. apply StronglySorted_merge_sort; apply _. Qed.

End MergeFacts.

Section ParallelRerun.
Import Partitioner PyStr Response World.
Context {Row : Type}.
Variable cfg : Config.
Variable df : list Row.
Variable request_line : Z -> Row -> string.
Variable remote : Remote.

(** Re-running the parallel script when, for every batch, the request file,
    the id file and the parsed table are on disk and the remote service
    reports the stored batch finished: the run returns, no artifact of any
    batch changes, and the only remote calls are status queries. *)
Lemma parallel_rerun_is_quiet fuel w nb spb :
  calculate_batch_sizes_parallel cfg (Z.of_nat (length df)) = Some (nb, spb) ->
  (forall k, k ∈ seqZ 1 nb ->
     is_Some (batch_requests (fs w) !! requests_path k) /\
     exists text, batch_ids (fs w) !! id_path k = Some text /\
                  settled remote w (k, Some (strip text))) ->
  exists w',
    Parallel.main cfg df request_line remote (S fuel) w = Returned tt w' /\
    quiet w w'.
Proof.
  intros Hcalc Hdisk. unfold Parallel.main. rewrite Hcalc.
  destruct (create_all_batch_files_quiet df request_line nb spb w) with (w := w)
    as (w1 & Hcreate & Hq1); [intros k Hk; by apply Hdisk|apply quiet_refl|].
  rewrite (bind_returned _ _ _ _ _ Hcreate).
  unfold Parallel.upload_all_batches.
  destruct (upload_each_quiet remote (seqZ 1 nb) w [] w1) as (ids & w2 & Hupload & Hq2 & Hids);
    [|done|].
  { intros k Hk. destruct (Hdisk k Hk) as [_ (text & Htext & _)]. by exists text. }
  rewrite (bind_returned _ _ _ _ _ Hupload). simpl app.
  assert (Forall (settled remote w) ids) as Hsettled.
  { eapply Forall_impl; [exact Hids|]. intros [k oid] [Hk (text & Htext & Hoid)].
    simpl in *. destruct (Hdisk k Hk) as [_ (text' & Htext' & Hs)].
    rewrite Htext in Htext'. injection Htext' as <-. by rewrite Hoid. }
  destruct (check_all_quiet remote ids w true w2 Hsettled Hq2) as (w3 & Hcheck & Hq3).
  assert (exists w4, Parallel.monitor_all_batches remote (S fuel) ids w2 = Returned tt w4 /\
                     quiet w w4) as (w4 & Hmonitor & Hq4).
  { simpl. rewrite (bind_returned _ _ _ _ _ Hcheck). run_step.
    eexists. split; [reflexivity|].
    apply (quiet_trans _ w3); [done|]. by apply quiet_same. }
  rewrite (bind_returned _ _ _ _ _ Hmonitor).
  destruct (download_all_results_quiet remote ids w Hsettled w4 Hq4)
    as (w5 & Hdownload & Hq5).
  rewrite (bind_returned _ _ _ _ _ Hdownload).
  destruct (merge_all_results_spec w5) as (w6 & Hmerge & Hq6 & _).
  exists w6. split; [exact Hmerge|]. by apply (quiet_trans _ w5).
Qed.

End ParallelRerun.

Section SequentialRerunFacts.
Import Partitioner PyStr Response World.
Variable cfg : Config.
Variable remote : Remote.

(** [upload_batch] submits the request file whether or not a batch id is
    already stored for the batch: the id file plays no part. *)
Lemma upload_batch_submits_regardless batch_num lines w :
  batch_requests (fs w) !! requests_path batch_num = Some lines ->
  getsize lines <= MAX_FILE_SIZE_MB cfg * (1024 * 1024) ->
  exists result w' later,
    Sequential.upload_batch cfg remote batch_num w = Returned result w' /\
    calls w' = calls w ++ (clock w, files_create (requests_path batch_num)) :: later.
Proof.
  intros Hfile Hsize. unfold Sequential.upload_batch. run_step. rewrite Hfile.
  rewrite decide_False by lia. run_step.
  destruct (on_files_create remote (requests_path batch_num) lines (clock w))
    as [file_id|].
  - run_step. destruct (on_batches_create remote file_id (clock w)) as [batch_id|];
      run_step; eexists _, _, _; (split; [reflexivity|]); simpl;
      by rewrite <- app_assoc.
  - run_step. eexists _, _, _. split; [reflexivity|]. done.
Qed.

(** [download_batch_results] downloads the results of a completed batch
    whether or not its parsed table is already on disk. *)
Lemma download_batch_results_downloads_regardless batch_num text batch file_id lines w :
  batch_ids (fs w) !! id_path batch_num = Some text ->
  on_batches_retrieve remote (strip text) (clock w) = Some batch ->
  status batch = completed ->
  output_file_id batch = Some file_id -> truthy file_id = true ->
  on_files_content remote file_id (clock w) = Some lines ->
  exists w',
    Sequential.download_batch_results remote batch_num w = Returned tt w' /\
    calls w' = calls w ++ [(clock w, batches_retrieve (strip text));
                           (clock w, files_content file_id)].
Proof.
  intros Hid Hretrieve Hstatus Hfile Htruthy Hcontent.
  unfold Sequential.download_batch_results. run_step. rewrite Hid. run_step.
  rewrite Hretrieve. rewrite decide_False by (by rewrite Hstatus; intros H; apply H).
  rewrite Hfile, Htruthy. cbn [negb]. run_step. rewrite Hcontent. run_step.
  assert (forall out w1, exists w2, print_all out w1 = Returned tt w2 /\ calls w2 = calls w1)
    as Hprint.
  { induction out as [|p out IH]; intros w1; [by exists w1|].
    simpl. run_step.
    match goal with
    | |- context [print_all out ?w0] => destruct (IH w0) as (w2 & -> & Hc)
    end.
    by exists w2. }
  destruct (parse_results_sequential lines) as [[rows|] out]; run_step.
  - match goal with
    | |- context [print_all out ?w1] => destruct (Hprint out w1) as (w2 & -> & Hcalls)
    end.
    exists w2. split; [done|]. rewrite Hcalls. simpl. by rewrite <- app_assoc.
  - match goal with
    | |- context [print_all out ?w1] => destruct (Hprint out w1) as (w2 & -> & Hcalls)
    end.
    exists w2. split; [done|]. rewrite Hcalls. simpl. by rewrite <- app_assoc.
Qed.

End SequentialRerunFacts.

Section RunClaims.
Import Partitioner PyStr Response World Samples Scenarios.


(** C2: after a completed run of two batches (request, id, raw-result and
    parsed-table files of both on disk) the parallel script submits nothing
    and downloads nothing; the sequential script uploads both request
    files again, creates two new batches and downloads both results
    again. *)
Theorem sequential_rerun_submits_and_downloads_again :
  let sequential_rerun :=
    final_world (Sequential.main small_file_config hundred_rows render
                   prompt_remote 1 (start completed_run_fs)) in
  let parallel_rerun :=
    final_world (Parallel.main small_file_config hundred_rows render
                   prompt_remote 1 (start completed_run_fs)) in
  submissions <$> parallel_rerun = Some [] /\
  downloads <$> parallel_rerun = Some [] /\
  submissions <$> sequential_rerun =
    Some [(0, files_create (requests_path 1));
          (0, batches_create ("file-for-" +:+ requests_path 1));
          (0, files_create (requests_path 2));
          (0, batches_create ("file-for-" +:+ requests_path 2))] /\
  downloads <$> sequential_rerun =
    Some [(0, files_content ("output-of-batch-for-file-for-" +:+ requests_path 1));
          (0, files_content ("output-of-batch-for-file-for-" +:+ requests_path 2))].
Proof. vm_compute. repeat split; reflexivity. Qed.

(** C3: the merged table follows the order of the file names as strings.
    For three batches of 10, 10 and 7 rows that is the ascending batch
    order, 27 rows; for ten batches the table of batch 10 comes first,
    before that of batch 1. *)
Theorem merge_follows_file_name_order :
  merged (outputs_fs [10; 10; 7]%nat) =
    Some (table_of 1 10 ++ table_of 2 10 ++ table_of 3 7) /\
  identifiers (merged (outputs_fs (replicate 10 1%nat))) =
    ["b10-r0"; "b1-r0"; "b2-r0"; "b3-r0"; "b4-r0"; "b5-r0"; "b6-r0"; "b7-r0";
     "b8-r0"; "b9-r0"] /\
  merged (outputs_fs (replicate 10 1%nat)) <>
    Some (concat ((fun k => table_of k 1) <$> seqZ 1 10)).
Proof.
  split; [vm_compute; reflexivity|].
  split; [vm_compute; reflexivity|].
  vm_compute. discriminate.
Qed.

End RunClaims.

(** ** The comparison *)

Section ComparatorFacts.
Import Comparator.
Variable parse_number : string -> option Q.

Implicit Types left right : list ResultRow.






End ComparatorFacts.

Section ComparatorClaims.
Import Comparator Tables.



End ComparatorClaims.

(** ** The API key, the prompt and the dataset filter *)

Section TextFacts.
Import PyStr World.

Lemma strip_idemp s : strip (strip s) = strip s.
Proof. unfold strip at 2. by rewrite strip_rstrip, strip_lstrip. Qed.

Lemma truthy_false s : truthy s = false -> s = "".
Proof. by destruct s. Qed.

(** Appending the same text to two texts keeps them apart. *)
Lemma string_app_inj_r (a b s : string) : a +:+ s = b +:+ s -> a = b.
Proof.
  revert b. induction a as [|c a IH]; intros [|d b] H.
  - done.
  - apply (f_equal String.length) in H.
    rewrite string_app_nil_l, string_app_cons in H. simpl in H.
    rewrite string_length_app in H. lia.
  - apply (f_equal String.length) in H.
    rewrite string_app_nil_l, string_app_cons in H. simpl in H.
    rewrite string_length_app in H. lia.
  - rewrite !string_app_cons in H. injection H as -> H. f_equal. by apply IH.
Qed.

(** [str] tells integers apart. *)
Lemma str_inj (a b : Z) : str a = str b -> a = b.
Proof.
  unfold str. intros H.
  assert (forall n, Z.to_int n <> Decimal.Pos Decimal.Nil /\
                    Z.to_int n <> Decimal.Neg Decimal.Nil) as Hnz.
  { intros [|p|p]; simpl; split; try discriminate;
      intros [= Hp]; by apply (DecimalPos.Unsigned.to_uint_nonnil p). }
  apply DecimalZ.to_int_inj.
  apply (f_equal NilZero.int_of_string) in H.
  rewrite !NilZero.isi in H by apply Hnz. by injection H.
Qed.

End TextFacts.

Section ApiKey.
Import PyStr World Credentials.

(** X1: the key read from the key file is the first line that, once
    stripped, is neither empty nor a comment (so an indented comment is a
    comment too); it is returned stripped; and no key is found exactly when
    every line is blank or a comment. *)
Theorem api_key_is_first_qualifying_line (lines : list string) :
  match read_api_key lines with
  | Some key =>
      exists before line after,
        lines = before ++ line :: after /\ Forall skipped before /\
        key = strip line /\ key <> "" /\ startswith key "#" = false /\
        strip key = key
  | None => Forall skipped lines
  end.
Proof.
  induction lines as [|line rest IH]; simpl; [done|].
  destruct (truthy (strip line)) eqn:Ht; simpl.
  - destruct (startswith (strip line) "#") eqn:Hc; simpl.
    + destruct (read_api_key rest) as [key|].
      * destruct IH as (before & l & after & -> & Hskip & Hkey).
        exists (line :: before), l, after. split; [done|].
        split; [|done]. constructor; [by right|done].
      * constructor; [by right|done].
    + exists [], line, rest. repeat split; try done.
      * by apply truthy_nonempty.
      * apply strip_idemp.
  - apply truthy_false in Ht.
    destruct (read_api_key rest) as [key|].
    + destruct IH as (before & l & after & -> & Hskip & Hkey).
      exists (line :: before), l, after. split; [done|].
      split; [|done]. constructor; [by left|done].
    + constructor; [by left|done].
Qed.

End ApiKey.

Section YearFacts.
Import PyStr World Prompt.

Lemma is_word_not_space c : is_word c = true -> is_space c = false.
Proof. destruct c as [[] [] [] [] [] [] [] []]; by vm_compute. Qed.

Lemma is_digit_digits c : is_digit c = true -> c ∈ digits.
Proof.
  destruct c as [[] [] [] [] [] [] [] []]; vm_compute; intros H;
    try discriminate H; clear H; unfold digits; set_solver.
Qed.

Lemma century_cases a b :
  century a b = true -> (a = "1" /\ b = "9")%char \/ (a = "2" /\ b = "0")%char.
Proof.
  unfold century. intros [H|H]%orb_true_iff;
    apply andb_true_iff in H as [Ha%bool_decide_eq_true Hb%bool_decide_eq_true]; auto.
Qed.

(** What the search returns is a match of [(19|20)\d{2}]. *)
Lemma search_year_Some s : forall after_word year,
  search_year after_word s = Some year ->
  exists a b c d,
    year = String a (String b (String c (String d ""))) /\
    century a b = true /\ is_digit c = true /\ is_digit d = true.
Proof.
  induction s as [|x s IH]; intros after_word year; cbn [search_year]; [done|].
  destruct (negb after_word && year_here (String x s)) eqn:Hm.
  - apply andb_true_iff in Hm as [_ Hm]. intros [= <-].
    destruct s as [|b [|c [|d rest]]]; try done.
    simpl in Hm.
    apply andb_true_iff in Hm as [Hm _].
    apply andb_true_iff in Hm as [Hm Hd].
    apply andb_true_iff in Hm as [Hab Hc].
    exists x, b, c, d. by destruct rest.
  - apply IH.
Qed.

Lemma lstrip_all_word s : all_word s = true -> lstrip s = s.
Proof.
  destruct s as [|c s]; [done|]. simpl.
  intros [Hc _]%andb_true_iff. by rewrite (is_word_not_space c Hc).
Qed.

Lemma rstrip_all_word s : all_word s = true -> rstrip s = s.
Proof.
  induction s as [|c s IH]; [done|]. simpl.
  intros [Hc Hs]%andb_true_iff. rewrite (IH Hs), (is_word_not_space c Hc).
  by destruct s.
Qed.

(** After a word character, a text of word characters holds no match. *)
Lemma search_year_after_word s :
  all_word s = true -> search_year true s = None.
Proof.
  induction s as [|c s IH]; [done|]. simpl.
  intros [Hc Hs]%andb_true_iff. rewrite Hc. by apply IH.
Qed.

Lemma year_here_all_word s :
  all_word s = true -> year_here s = true -> String.substring 0 4 s = s.
Proof.
  destruct s as [|a [|b [|c [|d [|e rest]]]]]; try done.
  simpl. intros Hw Hy.
  repeat (apply andb_true_iff in Hw as [? Hw]).
  apply andb_true_iff in Hy as [_ Hy].
  destruct (is_word e); done.
Qed.

(** Stripping leaves a match at the start of the text in place. *)
Lemma year_here_strip s :
  year_here s = true ->
  year_here (strip s) = true /\ String.substring 0 4 (strip s) = String.substring 0 4 s.
Proof.
  destruct s as [|a [|b [|c [|d rest]]]]; try done.
  intros Hy. pose proof Hy as Hy'. simpl in Hy.
  apply andb_true_iff in Hy as [Hy Hrest].
  apply andb_true_iff in Hy as [Hy Hd].
  apply andb_true_iff in Hy as [Hab Hc].
  assert (is_space a = false) as Ha.
  { destruct (century_cases a b Hab) as [[-> _]|[-> _]]; done. }
  assert (is_space d = false) as Hsd.
  { apply is_word_not_space. apply is_digit_digits in Hd.
    unfold digits in Hd. set_unfold. destruct Hd as [->|[->|[->|[->|[->|[->|[->|[->|[->|[->|[]]]]]]]]]]]; done. }
  unfold strip. rewrite lstrip_nonspace by done.
  change (String a (String b (String c (String d rest))))
    with (String a (String b (String c "")) +:+ String d rest).
  rewrite rstrip_app_nonspace by done.
  cbn [String.append].
  assert (match rstrip rest with
          | "" => true
          | String e _ => negb (is_word e)
          end = true) as Hrest'.
  { destruct rest as [|e rest]; [done|]. simpl.
    destruct (rstrip rest); [|done]. by destruct (is_space e). }
  split.
  - simpl. rewrite Hab, Hc, Hd. done.
  - simpl. by destruct (rstrip rest), rest.
Qed.

End YearFacts.

Section YearExtraction.
Import PyStr World Prompt.

(** X2: whatever the cell holds, the year put into the prompt is either the
    placeholder N/A or four characters, 19 or 20 followed by two digits.
    For a text of code points below 256, as the strings of this development
    are, the digits are 0 to 9 and the four characters are the decimal
    numeral of a year from 1900 to 2099; a text with other code points
    (where the pattern also takes the decimal digits of other scripts) is
    outside this statement. *)
Theorem extracted_year_is_placeholder_or_in_range (date_str : option string) :
  extract_year_from_date date_str = "N/A" \/
  exists (a b c d : ascii) (year : Z),
    extract_year_from_date date_str = String a (String b (String c (String d ""))) /\
    century a b = true /\ is_digit c = true /\ is_digit d = true /\
    1900 <= year <= 2099 /\ extract_year_from_date date_str = str year.
Proof.
  unfold extract_year_from_date.
  destruct date_str as [text|]; [|by left].
  destruct (decide (text = "")); [by left|].
  destruct (decide (text = "N/A")); [by left|].
  destruct (search_year false (strip text)) as [year|] eqn:Hs; [|by left].
  right.
  apply search_year_Some in Hs as (a & b & c & d & -> & Hab & Hc & Hd).
  exists a, b, c, d,
    (Z.of_N (N_of_ascii a - 48) * 1000 + Z.of_N (N_of_ascii b - 48) * 100 +
     Z.of_N (N_of_ascii c - 48) * 10 + Z.of_N (N_of_ascii d - 48)).
  split; [done|]. split; [done|]. split; [done|]. split; [done|].
  apply is_digit_digits in Hc, Hd. unfold digits in Hc, Hd.
  apply century_cases in Hab as [[-> ->]|[-> ->]];
    set_unfold;
    destruct Hc as [->|[->|[->|[->|[->|[->|[->|[->|[->|[->|[]]]]]]]]]]];
    destruct Hd as [->|[->|[->|[->|[->|[->|[->|[->|[->|[->|[]]]]]]]]]]];
    (split; [by vm_compute|by vm_compute]).
Qed.

(** X3: a date written without separators, such as [01nov2016] (the first
    format the docstring names), has no word boundary around its year, so
    the year is not found: for a text made of word characters only, the
    result is the text itself when the text is a year from 1900 to 2099 on
    its own, and the placeholder otherwise. *)
Theorem year_of_undelimited_text (text : string) :
  all_word text = true ->
  extract_year_from_date (Some text) = if year_here text then text else "N/A".
Proof.
  intros Hw. unfold extract_year_from_date.
  destruct (decide (text = "")) as [->|Hne]; [done|].
  destruct (decide (text = "N/A")) as [->|Hna]; [done|].
  unfold strip. rewrite (lstrip_all_word _ Hw), (rstrip_all_word _ Hw).
  destruct text as [|c rest]; [done|].
  cbn [search_year negb andb].
  destruct (year_here (String c rest)) eqn:Hy.
  - by rewrite year_here_all_word.
  - simpl in Hw. apply andb_true_iff in Hw as [Hc Hrest].
    by rewrite Hc, search_year_after_word.
Qed.

Lemma year_of_undelimited_text_witness :
  extract_year_from_date (Some "01nov2016") = "N/A".
Proof. exact (year_of_undelimited_text "01nov2016" eq_refl). Defined.

(** X4: a text that starts with a year from 1900 to 2099 followed by a
    character that is not a word character (a dash, a slash, a space) or by
    nothing, such as [2016-11-01], gives that year. *)
Theorem year_of_leading_year (text : string) :
  year_here text = true ->
  extract_year_from_date (Some text) = String.substring 0 4 text.
Proof.
  intros Hy. unfold extract_year_from_date.
  destruct (decide (text = "")) as [->|Hne]; [done|].
  destruct (decide (text = "N/A")) as [->|Hna]; [done|].
  destruct (year_here_strip text Hy) as [Hy' Hsub].
  destruct (strip text) as [|c rest]; [done|].
  cbn [search_year negb andb]. by rewrite Hy', Hsub.
Qed.

Lemma year_of_leading_year_witness :
  extract_year_from_date (Some "2016-11-01") = "2016".
Proof. exact (year_of_leading_year "2016-11-01" eq_refl). Defined.

End YearExtraction.

Section PromptFacts.
Import PyStr World Prompt.

Lemma lstrip_head s : match lstrip s with "" => True | String c _ => is_space c = false end.
Proof.
  induction s as [|c s IH]; [done|]. simpl.
  destruct (is_space c) eqn:Hc; [done|]. simpl. done.
Qed.

Lemma rstrip_head c s :
  rstrip (String c s) = "" \/ exists kept, rstrip (String c s) = String c kept.
Proof.
  simpl. destruct (rstrip s); [destruct (is_space c)|]; eauto.
Qed.

(** A stripped text that is not empty starts with a character that is not
    whitespace. *)
Lemma strip_head s :
  match strip s with "" => True | String c _ => is_space c = false end.
Proof.
  unfold strip. pose proof (lstrip_head s) as Hl.
  destruct (lstrip s) as [|c l]; [done|].
  destruct (rstrip_head c l) as [->|[kept ->]]; done.
Qed.

Lemma strip_cons_nonspace c s : is_space c = false -> strip (String c s) <> "".
Proof.
  intros Hc. unfold strip. rewrite lstrip_nonspace by done. simpl.
  rewrite Hc. by destruct (rstrip s).
Qed.

Lemma keywords_nonempty row : keywords row <> "".
Proof.
  unfold keywords.
  destruct (truthy (or_empty (category_list row))) eqn:Hl;
    destruct (truthy (or_empty (category_groups_list row))) eqn:Hg; simpl.
  - unfold or_empty in Hl |- *.
    destruct (category_list row) as [v|]; [|done].
    pose proof (strip_head v) as Hh.
    destruct (strip v) as [|c kept]; [done|].
    rewrite string_app_cons. by apply strip_cons_nonspace.
  - by apply truthy_nonempty.
  - by apply truthy_nonempty.
  - done.
Qed.

Lemma short_desc_nonempty row : short_desc row <> "".
Proof.
  unfold short_desc. destruct (short_description row) as [v|]; [|done].
  by destruct (decide (strip v = "")).
Qed.

End PromptFacts.

Section PromptProperties.
Import PyStr World Prompt Rows.

(** X5: the custom id of a record without [org_uuid] is built from its
    index label, with the prefix twice, and two such records with different
    index labels get different custom ids; for a record with an [org_uuid]
    the custom id is the prefix and the stripped identifier, whatever the
    index. *)
Theorem custom_id_without_uuid_is_index_based (i j : Z) (r r' : Startup) :
  org_uuid r = None -> org_uuid r' = None ->
  custom_id i r = "startup-startup-" +:+ str i /\
  (custom_id i r = custom_id j r' -> i = j) /\
  (forall k uuid row, org_uuid row = Some uuid ->
     custom_id k row = "startup-" +:+ strip uuid).
Proof.
  intros Hr Hr'. unfold custom_id. rewrite Hr, Hr'. split; [done|]. split.
  - intros H. apply str_inj. by simplify_eq/=.
  - intros k uuid row ->. done.
Qed.

Lemma custom_id_without_uuid_is_index_based_witness :
  custom_id 7 undescribed = "startup-startup-7".
Proof.
  exact (proj1 (custom_id_without_uuid_is_index_based 7 8 undescribed undescribed
                  eq_refl eq_refl)).
Defined.

(** X7: in every prompt the short-description and keyword lines are filled:
    a missing or blank cell gives the placeholder N/A there.  The company
    name has no such guard: a cell of whitespace gives an empty name, where
    a missing cell gives N/A. *)
Theorem prompt_placeholders (row : Startup) :
  short_desc row <> "" /\ keywords row <> "" /\
  (category_list row = None -> category_groups_list row = None ->
   keywords row = "N/A") /\
  (short_description row = None -> short_desc row = "N/A") /\
  (forall blank, strip blank = "" ->
     (short_description row = Some blank -> short_desc row = "N/A") /\
     or_na (Some blank) = "" /\ or_na None = "N/A").
Proof.
  split; [apply short_desc_nonempty|]. split; [apply keywords_nonempty|].
  split; [|split].
  - unfold keywords. by intros -> ->.
  - unfold short_desc. by intros ->.
  - intros blank Hblank. split; [|split].
    + unfold short_desc. intros ->. by rewrite decide_True.
    + done.
    + done.
Qed.

End PromptProperties.

(** ** Batch sizes and request files *)

Section RequestFileFacts.
Import Partitioner PyStr Response World.
Context {Row : Type}.
Variable df : list Row.
Variable request_line : Z -> Row -> string.

Lemma requests_path_inj a b : requests_path a = requests_path b -> a = b.
Proof.
  unfold requests_path. intros H. apply str_inj.
  apply (string_app_inj_r _ _ "_requests.jsonl"). by simplify_eq/=.
Qed.

Lemma imap_take {A B} (l : list A) : forall (h : nat -> A -> B) n,
  imap h (take n l) = take n (imap h l).
Proof.
  induction l as [|x l IH]; intros h [|n]; simpl; try done.
  f_equal. apply IH.
Qed.

Lemma imap_drop {A B} (m : nat) : forall (h : nat -> A -> B) (l : list A),
  imap (fun i => h (m + i)%nat) (drop m l) = drop m (imap h l).
Proof.
  induction m as [|m IH]; intros h l.
  - done.
  - destruct l as [|x l]; [done|]. simpl. rewrite <- (IH (h ∘ S) l).
    by apply imap_ext.
Qed.

(** The request lines of a batch are the slice of the rendered dataset at
    the rows of the batch: every record is rendered with its index label
    in the whole dataset. *)
Lemma batch_lines_slice k nb spb :
  1 <= k <= nb -> 0 <= spb -> nb * spb <= Z.of_nat (length df) ->
  Sequential.batch_lines df request_line k nb spb =
  batch_df k nb spb (imap (fun i row => request_line (Z.of_nat i) row) df).
Proof.
  intros Hk Hspb Hle. unfold Sequential.batch_lines.
  set (m := Z.to_nat ((k - 1) * spb)).
  assert (forall l : list Row,
            imap (fun i row => request_line ((k - 1) * spb + Z.of_nat i) row) l =
            imap (fun i row => request_line (Z.of_nat (m + i)) row) l) as Hoff.
  { intros l. apply imap_ext. intros i y _. f_equal. unfold m. nia. }
  rewrite Hoff.
  destruct (decide (k = nb)) as [->|Hne].
  - rewrite !batch_df_last by (rewrite ?length_imap; nia).
    fold m. apply (imap_drop m (fun i row => request_line (Z.of_nat i) row)).
  - rewrite !batch_df_inner by (rewrite ?length_imap; nia).
    fold m. rewrite imap_take.
    by rewrite (imap_drop m (fun i row => request_line (Z.of_nat i) row)).
Qed.

(** Creating request files for batch numbers that have none writes each
    batch's lines under its own path and touches nothing else. *)
Lemma create_missing_files nb spb (ks : list Z) : forall w,
  NoDup ks ->
  (forall k, k ∈ ks -> batch_requests (fs w) !! requests_path k = None) ->
  exists w',
    for_each ks (fun batch_num =>
      let jsonl_filename := requests_path batch_num in
      existing ← get (fun w => batch_requests (fs w) !! jsonl_filename);
      match existing with
      | Some _ => print (Already_exists batch_num)
      | None =>
          write_requests jsonl_filename
            (Sequential.batch_lines df request_line batch_num nb spb);;
          print (Created batch_num)
      end) w = Returned tt w' /\
    (forall k, k ∈ ks ->
       batch_requests (fs w') !! requests_path k =
         Some (Sequential.batch_lines df request_line k nb spb)) /\
    (forall p, (forall k, k ∈ ks -> p <> requests_path k) ->
       batch_requests (fs w') !! p = batch_requests (fs w) !! p) /\
    batch_ids (fs w') = batch_ids (fs w) /\
    batch_results (fs w') = batch_results (fs w) /\
    batch_outputs (fs w') = batch_outputs (fs w) /\
    output_csv (fs w') = output_csv (fs w) /\
    calls w' = calls w /\ clock w' = clock w.
Proof.
  induction ks as [|k ks IH]; intros w Hnd Habsent.
  - exists w. split; [done|]. split; [|done]. intros k Hk. by apply elem_of_nil in Hk.
  - apply NoDup_cons in Hnd as [Hk Hnd].
    cbn [for_each]. run_step. rewrite (Habsent k) by by left. run_step.
    match goal with
    | |- context [for_each ks _ ?w1] =>
        destruct (IH w1 Hnd) as (w' & Hrun & Hnew & Hold & Hids & Hres & Hout & Hcsv & Hc & Hcl)
    end.
    { intros j Hj. simpl. rewrite lookup_insert_ne.
      - apply Habsent. by right.
      - intros Heq%requests_path_inj. by subst. }
    exists w'. split; [exact Hrun|]. simpl in *.
    split; [|split].
    + intros j [->|Hj]%elem_of_cons.
      * rewrite Hold, lookup_insert_eq; [done|].
        intros j Hj Heq%requests_path_inj. by subst.
      * by apply Hnew.
    + intros p Hp. rewrite Hold.
      * rewrite lookup_insert_ne; [done|]. intros Heq. apply (Hp k); [by left|done].
      * intros j Hj. apply Hp. by right.
    + done.
Qed.

End RequestFileFacts.

Section BatchSizeProperties.
Import Partitioner PyStr Response World.

(** X8: an input without records makes both scripts divide by zero in
    [calculate_batch_sizes] (the batch count is 0): [main] ends with the
    exception before any file is written or any call made. *)
Theorem empty_dataset_raises {Row : Type} (cfg : Config)
    (request_line : Z -> Row -> string) (remote : Remote) (fuel : nat) (w : World) :
  positive_config cfg ->
  calculate_batch_sizes_sequential cfg 0 = None /\
  calculate_batch_sizes_parallel cfg 0 = None /\
  Sequential.main cfg [] request_line remote fuel w = Raised w /\
  Parallel.main cfg [] request_line remote fuel w = Raised w.
Proof.
  intros (Hr & Hs & Ht & He).
  pose proof (max_requests_for_size_pos cfg Hs) as Hsize.
  assert (forall limit, 0 < limit -> (0 + limit - 1) / limit = 0) as Hzero.
  { intros limit Hl. apply Z.div_small. lia. }
  assert (calculate_batch_sizes_sequential cfg 0 = None) as Hseq.
  { unfold calculate_batch_sizes_sequential.
    rewrite (floordiv_Some (MAX_ENQUEUED_TOKENS_PER_DAY cfg)) by lia. simpl.
    rewrite floordiv_Some by lia. simpl. by rewrite Hzero by lia. }
  assert (calculate_batch_sizes_parallel cfg 0 = None) as Hpar.
  { unfold calculate_batch_sizes_parallel.
    rewrite floordiv_Some by lia. simpl. by rewrite Hzero by lia. }
  split; [done|]. split; [done|].
  unfold Sequential.main, Parallel.main. cbn [length].
  change (Z.of_nat 0) with 0. by rewrite Hseq, Hpar.
Qed.

Lemma empty_dataset_raises_witness :
  Sequential.main sequential_config ([] : list unit) Scenarios.render
    Scenarios.prompt_remote 10 (Scenarios.start Scenarios.empty_fs)
  = Raised (Scenarios.start Scenarios.empty_fs).
Proof.
  assert (positive_config sequential_config) as Hcfg by (vm_compute; done).
  exact (proj1 (proj2 (proj2 (empty_dataset_raises sequential_config Scenarios.render
                                Scenarios.prompt_remote 10
                                (Scenarios.start Scenarios.empty_fs) Hcfg)))).
Defined.

(** X9: the limit the batch count is computed from bounds every batch but
    the last: the last batch takes the remainder as well, so it holds fewer
    than the batch size plus the batch count, which can be more than the
    limit.  With the constants the scripts ship with (limit 8533), 25598
    records make three batches of 8532, 8532 and 8534. *)
Theorem last_batch_is_not_bounded_by_the_limit {A} (cfg : Config) (df : list A)
    (nb spb : Z) :
  positive_config cfg -> 1 <= Z.of_nat (length df) ->
  calculate_batch_sizes_sequential cfg (Z.of_nat (length df)) = Some (nb, spb) ->
  let limit := Z.min (max_requests_for_size cfg) (MAX_REQUESTS_PER_BATCH cfg) in
  spb <= limit /\
  (forall k, 1 <= k < nb -> Z.of_nat (length (batch_df k nb spb df)) <= limit) /\
  Z.of_nat (length (batch_df nb nb spb df)) < spb + nb /\
  (let records := replicate (Z.to_nat 25598) tt in
   Z.min (max_requests_for_size sequential_config)
         (MAX_REQUESTS_PER_BATCH sequential_config) = 8533 /\
   calculate_batch_sizes_sequential sequential_config 25598 = Some (3, 8532) /\
   (fun k => Z.of_nat (length (batch_df k 3 8532 records))) <$> seqZ 1 3
     = [8532; 8532; 8534]).
Proof.
  intros Hcfg Hn Hcalc limit.
  destruct (calculate_batch_sizes_sequential_spec cfg _ Hcfg Hn)
    as (nb' & spb' & Hcalc' & Hceil & Hspb).
  rewrite Hcalc in Hcalc'. injection Hcalc' as <- <-. fold limit in Hceil.
  destruct Hcfg as (Hr & Hs & _).
  pose proof (max_requests_for_size_pos cfg Hs) as Hsize.
  assert (0 < limit) as Hlimit by (unfold limit; lia).
  pose proof (is_ceil_div_pos _ _ _ Hlimit Hn Hceil) as Hnb.
  unfold is_ceil_div in Hceil.
  set (n := Z.of_nat (length df)) in *.
  pose proof (Z.div_mod n nb ltac:(lia)) as Hdm.
  pose proof (Z.mod_pos_bound n nb ltac:(lia)) as Hmod.
  assert (0 <= spb) as Hspb0 by (subst spb; apply Z.div_pos; lia).
  assert (spb <= limit) as Hle by (subst spb; nia).
  split; [done|]. split; [|split].
  - intros k Hk. rewrite batch_df_inner by (fold n; subst spb; nia).
    rewrite length_take, length_drop. lia.
  - rewrite batch_df_last by (fold n; subst spb; nia).
    rewrite length_drop. fold n. subst spb. nia.
  - by vm_compute.
Qed.

Lemma last_batch_is_not_bounded_by_the_limit_witness :
  Z.of_nat (length (batch_df 3 3 66 (seqZ 0 200))) < 66 + 3.
Proof.
  assert (positive_config small_file_config) as Hcfg by (vm_compute; done).
  assert (1 <= Z.of_nat (length (seqZ 0 200))) as Hn by (vm_compute; discriminate).
  assert (calculate_batch_sizes_sequential small_file_config
            (Z.of_nat (length (seqZ 0 200))) = Some (3, 66)) as Hcalc
    by (vm_compute; reflexivity).
  exact (proj1 (proj2 (proj2 (last_batch_is_not_bounded_by_the_limit small_file_config
                                (seqZ 0 200) 3 66 Hcfg Hn Hcalc)))).
Defined.

(** X10: when no request file exists yet, [create_all_batch_files] writes
    one file per batch and makes no remote call; read in batch order, the
    files hold one request line per record of the dataset, each rendered
    with its index label in the whole dataset, in dataset order. *)
Theorem created_request_files_cover_the_dataset {Row : Type} (cfg : Config)
    (df : list Row) (request_line : Z -> Row -> string) (nb spb : Z) (w : World) :
  positive_config cfg -> 1 <= Z.of_nat (length df) ->
  calculate_batch_sizes_parallel cfg (Z.of_nat (length df)) = Some (nb, spb) ->
  (forall k, k ∈ seqZ 1 nb -> batch_requests (fs w) !! requests_path k = None) ->
  exists w',
    Parallel.create_all_batch_files df request_line nb spb w = Returned tt w' /\
    calls w' = calls w /\
    batch_ids (fs w') = batch_ids (fs w) /\
    (forall k, k ∈ seqZ 1 nb ->
       batch_requests (fs w') !! requests_path k =
         Some (Sequential.batch_lines df request_line k nb spb)) /\
    concat ((fun k => Sequential.batch_lines df request_line k nb spb) <$> seqZ 1 nb)
      = imap (fun i row => request_line (Z.of_nat i) row) df.
Proof.
  intros Hcfg Hn Hcalc Habsent.
  destruct (calculate_batch_sizes_parallel_spec cfg _ Hcfg Hn)
    as (nb' & spb' & Hcalc' & Hceil & Hspb).
  rewrite Hcalc in Hcalc'. injection Hcalc' as <- <-.
  destruct Hcfg as (Hr & Hs & _).
  pose proof (max_requests_for_size_pos cfg Hs) as Hsize.
  assert (0 < max_requests_for_size cfg) as Hlimit by lia.
  pose proof (is_ceil_div_pos _ _ _ Hlimit Hn Hceil) as Hnb.
  set (n := Z.of_nat (length df)) in *.
  assert (0 <= spb) as Hspb0 by (subst spb; apply Z.div_pos; lia).
  assert (nb * spb <= n) as Hmul by (subst spb; apply Z.mul_div_le; lia).
  destruct (create_missing_files df request_line nb spb (seqZ 1 nb) w
              (NoDup_seqZ 1 nb) Habsent)
    as (w' & Hrun & Hnew & _ & Hids & _ & _ & _ & Hc & _).
  exists w'. split; [exact Hrun|]. split; [done|]. split; [done|]. split; [done|].
  transitivity
    (concat ((fun k => batch_df k nb spb
                         (imap (fun i row => request_line (Z.of_nat i) row) df))
             <$> seqZ 1 nb)).
  - f_equal. apply list_fmap_ext. intros _ k Hk%list_elem_of_lookup_2.
    apply elem_of_seqZ in Hk. apply batch_lines_slice; [lia|done|done].
  - apply batches_concat; [lia|done|]. rewrite length_imap. fold n. nia.
Qed.

Lemma created_request_files_cover_the_dataset_witness :
  exists w',
    Parallel.create_all_batch_files Scenarios.hundred_rows Scenarios.render 2 50
      (Scenarios.start Scenarios.empty_fs) = Returned tt w' /\
    calls w' = [] /\
    batch_requests (fs w') !! requests_path 2 =
      Some (Sequential.batch_lines Scenarios.hundred_rows Scenarios.render 2 2 50).
Proof.
  assert (positive_config small_file_config) as Hcfg by (vm_compute; done).
  assert (1 <= Z.of_nat (length Scenarios.hundred_rows)) as Hn
    by (vm_compute; discriminate).
  assert (calculate_batch_sizes_parallel small_file_config
            (Z.of_nat (length Scenarios.hundred_rows)) = Some (2, 50)) as Hcalc
    by (vm_compute; reflexivity).
  destruct (created_request_files_cover_the_dataset small_file_config
              Scenarios.hundred_rows Scenarios.render 2 50
              (Scenarios.start Scenarios.empty_fs) Hcfg Hn Hcalc)
    as (w' & Hrun & Hc & _ & Hfiles & _).
  - intros k _. apply lookup_empty.
  - exists w'. split; [exact Hrun|]. split; [exact Hc|].
    apply Hfiles. apply elem_of_seqZ. lia.
Defined.

End BatchSizeProperties.

(** ** The reader on arbitrary text, and the parsed tables *)

Section ReaderTotality.
Import PyStr Csv Plain.

(** Outside the state that follows a line end, a character that does not
    end a line is always accepted while the field has room, and it never
    leads to that state. *)
Lemma parse_process_char_data r c :
  state r <> EAT_CRNL -> is_eol_char c = false ->
  Z.of_nat (String.length (field r)) < field_limit ->
  exists r', parse_process_char r (Some c) = Some r' /\
             state r' <> EAT_CRNL /\
             (String.length (field r') <= S (String.length (field r)))%nat.
Proof.
  destruct r as [st fs b]. simpl. intros Hst Hc Hlen.
  assert (forall st', parse_add_char (Build_Reader st' fs b) c
                      = Some (Build_Reader st' fs (b +:+ String c ""))) as Hadd.
  { intros st'. by apply parse_add_char_ok. }
  assert (String.length (b +:+ String c "") = S (String.length b)) as Hlen'.
  { rewrite string_length_app. simpl. lia. }
  unfold parse_process_char, process_start_field; cbn beta iota delta [state].
  destruct st; try done; rewrite ?Hc;
    repeat case_decide; rewrite ?Hadd; simpl;
    eexists; (split; [reflexivity|]); simpl; (split; [done|]); lia.
Qed.

(** A line feed is accepted in every such state; the line then ends either
    between two records or inside a quoted field. *)
Lemma parse_process_char_line_feed r :
  state r <> EAT_CRNL ->
  Z.of_nat (String.length (field r)) < field_limit ->
  exists r1 r2,
    parse_process_char r (Some "010"%char) = Some r1 /\
    parse_process_char r1 None = Some r2 /\
    (state r2 = START_RECORD \/
     state r2 = IN_QUOTED_FIELD /\
     (String.length (field r2) <= S (String.length (field r)))%nat).
Proof.
  destruct r as [st fs b]. simpl. intros Hst Hlen.
  destruct st; try done;
    try (eexists _, _; split; [reflexivity|]; split; [reflexivity|]; by left).
  unfold parse_process_char; cbn beta iota delta [state].
  rewrite decide_False by done. rewrite parse_add_char_ok by done.
  eexists _, _. split; [reflexivity|]. split; [reflexivity|]. right.
  split; [done|]. simpl. rewrite string_length_app. simpl. lia.
Qed.

Lemma parse_process_char_end r : is_Some (parse_process_char r None).
Proof. destruct r as [[] fs b]; by eexists. Qed.

Lemma read_rows_nil r : is_Some (read_rows r []).
Proof. simpl. case_decide; by eexists. Qed.

(** Reading text without carriage returns that fits the field limit never
    raises, from any state in which a line can start or continue. *)
Lemma read_rows_total s : forall r,
  state r <> EAT_CRNL -> no_carriage_return s = true ->
  Z.of_nat (String.length (field r)) + Z.of_nat (String.length s) <= field_limit ->
  is_Some (read_rows r (pending_lines s)).
Proof.
  induction s as [|c s IH]; intros r Hst Hcr Hlen.
  - rewrite read_rows_end.
    destruct (parse_process_char_end r) as [r2 ->]. simpl.
    case_decide; [by eexists|apply read_rows_nil].
  - simpl in Hcr, Hlen. apply andb_true_iff in Hcr as [Hc Hcr].
    apply negb_true_iff, bool_decide_eq_false in Hc.
    destruct (is_newline c) eqn:Hnl.
    + assert (c = "010"%char) as ->.
      { unfold is_newline in Hnl.
        destruct c as [[] [] [] [] [] [] [] []]; done. }
      destruct (parse_process_char_line_feed r Hst ltac:(lia))
        as (r1 & r2 & H1 & H2 & Hr2).
      unfold pending_lines. simpl readlines. cbn [read_rows process_line].
      rewrite H1. simpl. rewrite H2. simpl.
      destruct Hr2 as [Hstart|[Hquoted Hfield]].
      * rewrite decide_True by done.
        destruct s as [|c' s'].
        -- simpl. by eexists.
        -- rewrite pending_lines_cons.
           destruct (IH parse_reset) as [rows ->]; [done|done|simpl in *; lia|].
           by eexists.
      * rewrite decide_False by (by rewrite Hquoted).
        destruct s as [|c' s'].
        -- apply read_rows_nil.
        -- rewrite pending_lines_cons.
           apply IH; [by rewrite Hquoted|done|lia].
    + assert (is_eol_char c = false) as Heol.
      { unfold is_newline in Hnl. unfold is_eol_char.
        destruct c as [[] [] [] [] [] [] [] []]; done. }
      rewrite read_rows_char by done.
      destruct (parse_process_char_data r c Hst Heol ltac:(lia))
        as (r' & -> & Hst' & Hfield).
      simpl. apply IH; [done|done|lia].
Qed.

Lemma no_carriage_return_lstrip s :
  no_carriage_return s = true -> no_carriage_return (lstrip s) = true.
Proof.
  induction s as [|c s IH]; [done|]. simpl.
  intros H. destruct (is_space c); [|done].
  apply andb_true_iff in H as [_ H]. by apply IH.
Qed.

Lemma no_carriage_return_rstrip s :
  no_carriage_return s = true -> no_carriage_return (rstrip s) = true.
Proof.
  induction s as [|c s IH]; [done|]. simpl.
  intros [Hc H]%andb_true_iff. specialize (IH H).
  destruct (rstrip s); [destruct (is_space c)|]; simpl; by rewrite ?Hc.
Qed.

Lemma reader_rows_total text :
  no_carriage_return text = true ->
  Z.of_nat (String.length text) <= field_limit ->
  is_Some (reader_rows (strip text)).
Proof.
  intros Hcr Hlen. unfold reader_rows.
  assert (no_carriage_return (strip text) = true) as Hcr'.
  { unfold strip. by apply no_carriage_return_rstrip, no_carriage_return_lstrip. }
  assert (String.length (strip text) <= String.length text)%nat as Hlen'.
  { unfold strip. etrans; [apply length_rstrip|apply length_lstrip]. }
  destruct (strip text) as [|c s] eqn:Hs.
  - simpl. by eexists.
  - rewrite pending_lines_cons. apply read_rows_total; [done|done|simpl in *; lia].
Qed.

End ReaderTotality.

Section ParsedTables.
Import PyStr Csv Response Quoting Plain.

Lemma result_of_row_stripped row result :
  result_of_row row = Some result -> no_surrounding_whitespace result.
Proof.
  do 7 (destruct row as [|? row]; [done|]). intros [= <-].
  unfold no_surrounding_whitespace, fields_of. simpl.
  repeat constructor; apply strip_idemp.
Qed.

Lemma parse_line_parallel_stripped line :
  Forall no_surrounding_whitespace (fst (parse_line_parallel line)).
Proof.
  destruct line as [| |ai_response]; simpl; [done..|].
  destruct (reader_rows (strip ai_response)) as [[|row0 rows]|]; [done| |done].
  destruct (result_of_row row0) as [result|] eqn:Hrow; [|done].
  constructor; [|constructor]. by eapply result_of_row_stripped.
Qed.

(** On every line the sequential script keeps what the parallel script
    keeps, unless the identifier is empty. *)
Lemma parse_line_sequential_filter line :
  fst (parse_line_sequential line) =
  filter (fun row => CompanyID row <> "") (fst (parse_line_parallel line)).
Proof.
  destruct line as [| |ai_response]; simpl; [done..|].
  unfold parse_classification_result.
  destruct (reader_rows (strip ai_response)) as [[|row0 rows]|]; [done| |done].
  destruct (result_of_row row0) as [result|] eqn:Hrow; simpl.
  - destruct (truthy (CompanyID result)) eqn:Ht; simpl.
    + rewrite filter_cons_True; [done|]. simpl. by apply truthy_nonempty.
    + rewrite filter_cons_False; [done|]. simpl. apply truthy_false in Ht.
      by intros H.
  - done.
Qed.

Lemma parse_line_parallel_short line :
  (length (fst (parse_line_parallel line)) <= 1)%nat.
Proof.
  destruct line as [| |ai_response]; simpl; try lia.
  destruct (reader_rows (strip ai_response)) as [[|row0 rows]|]; simpl; try lia.
  destruct (result_of_row row0); simpl; lia.
Qed.

(** X11: a response without carriage returns and of at most 131072
    characters is always split without an error, so parsing it prints no
    warning: the response either yields the row of its first record or is
    passed over in silence. *)
Theorem parsing_plain_text_prints_no_warning (content : string) :
  no_carriage_return content = true ->
  Z.of_nat (String.length content) <= field_limit ->
  is_Some (csv_split content) /\
  snd (parse_classification_result content) = [] /\
  snd (parse_line_sequential (Content content)) = [] /\
  snd (parse_line_parallel (Content content)) = [].
Proof.
  intros Hcr Hlen.
  destruct (reader_rows_total content Hcr Hlen) as [rows Hrows].
  unfold csv_split, parse_line_sequential, parse_line_parallel,
    parse_classification_result.
  rewrite Hrows. split; [by eexists|].
  destruct rows as [|row0 rows]; [done|].
  destruct (result_of_row row0) as [result|]; [|done].
  simpl. by destruct (truthy (CompanyID result)).
Qed.

Lemma parsing_plain_text_prints_no_warning_witness :
  snd (parse_classification_result Samples.short_response) = [].
Proof.
  assert (Z.of_nat (String.length Samples.short_response) <= field_limit) as Hlen
    by (vm_compute; discriminate).
  exact (proj1 (proj2 (parsing_plain_text_prints_no_warning Samples.short_response
                         eq_refl Hlen))).
Defined.

(** X12: whatever the downloaded lines are, the rows the sequential script
    collects are the rows the parallel script collects whose identifier is
    not empty, in the same order; each line contributes at most one row; and
    no value of any collected row starts or ends with whitespace. *)
Theorem parsed_tables_agree_up_to_blank_identifiers (lines : list RawLine) :
  let sequential := fst (parse_lines parse_line_sequential lines [] []) in
  let parallel := fst (parse_lines parse_line_parallel lines [] []) in
  sequential = filter (fun row => CompanyID row <> "") parallel /\
  (length sequential <= length parallel <= length lines)%nat /\
  Forall no_surrounding_whitespace parallel /\
  Forall no_surrounding_whitespace sequential.
Proof.
  intros sequential parallel. subst sequential parallel.
  rewrite !parse_lines_unfold. simpl.
  assert (concat ((fst ∘ parse_line_sequential) <$> lines) =
          filter (fun row => CompanyID row <> "")
                 (concat ((fst ∘ parse_line_parallel) <$> lines))) as Hfilter.
  { induction lines as [|line lines IH]; [done|].
    rewrite !fmap_cons. simpl. rewrite filter_app, <- IH.
    by rewrite parse_line_sequential_filter. }
  assert (Forall no_surrounding_whitespace
            (concat ((fst ∘ parse_line_parallel) <$> lines))) as Hstripped.
  { apply Forall_concat, Forall_fmap, Forall_forall. intros line _.
    apply parse_line_parallel_stripped. }
  split; [done|]. split; [|split].
  - split.
    + rewrite Hfilter. apply length_filter.
    + clear Hfilter Hstripped. induction lines as [|line lines IH]; [done|].
      rewrite fmap_cons. simpl. rewrite length_app.
      pose proof (parse_line_parallel_short line). unfold compose in *. lia.
  - done.
  - rewrite Hfilter. rewrite Forall_forall in Hstripped. apply Forall_forall.
    intros row [_ Hrow]%list_elem_of_filter. by apply Hstripped.
Qed.

End ParsedTables.

(** ** Uploading, monitoring and downloading one batch *)

Section UploadProperties.
Import Partitioner PyStr Response World Scenarios Stress.

(** X13: the sequential script never submits a request file larger than
    [MAX_FILE_SIZE_MB]: [upload_batch] reports it and returns no id without
    any call.  The parallel script has no such guard: for a batch without
    an id file its first step is to submit the request file, whatever its
    size. *)
Theorem oversized_request_file_is_submitted_in_parallel_mode_only
    (cfg : Config) (remote : Remote) (batch_num : Z) (lines : list string) (w : World) :
  batch_requests (fs w) !! requests_path batch_num = Some lines ->
  MAX_FILE_SIZE_MB cfg * (1024 * 1024) < getsize lines ->
  batch_ids (fs w) !! id_path batch_num = None ->
  (exists w',
     Sequential.upload_batch cfg remote batch_num w = Returned None w' /\
     calls w' = calls w /\ fs w' = fs w /\
     printed w' = printed w ++ [File_too_large batch_num]) /\
  (exists entry w' later,
     Parallel.upload_one remote batch_num w = Returned entry w' /\
     calls w' = calls w ++ (clock w, files_create (requests_path batch_num)) :: later).
Proof.
  intros Hfile Hsize Hid. split.
  - unfold Sequential.upload_batch. run_step. rewrite Hfile.
    rewrite decide_True by done. run_step.
    eexists. split; [reflexivity|]. done.
  - unfold Parallel.upload_one. run_step. rewrite Hid. run_step. rewrite Hfile.
    run_step.
    destruct (on_files_create remote (requests_path batch_num) lines (clock w))
      as [file_id|].
    + run_step. destruct (on_batches_create remote file_id (clock w)) as [batch_id|];
        run_step; eexists _, _, _; (split; [reflexivity|]); simpl;
        by rewrite <- app_assoc.
    + run_step. eexists _, _, _. split; [reflexivity|]. done.
Qed.

Lemma oversized_request_file_is_submitted_in_parallel_mode_only_witness :
  (exists w',
     Sequential.upload_batch small_file_config prompt_remote 1
       (start fs_with_oversized_requests) = Returned None w' /\
     calls w' = []) /\
  (exists entry w' later,
     Parallel.upload_one prompt_remote 1 (start fs_with_oversized_requests)
       = Returned entry w' /\
     calls w' = (0, files_create (requests_path 1)) :: later).
Proof.
  assert (batch_requests (fs (start fs_with_oversized_requests)) !! requests_path 1
          = Some oversized_lines) as Hfile by apply lookup_singleton_eq.
  assert (MAX_FILE_SIZE_MB small_file_config * (1024 * 1024) < getsize oversized_lines)
    as Hsize by (vm_compute; reflexivity).
  assert (batch_ids (fs (start fs_with_oversized_requests)) !! id_path 1 = None)
    as Hid by apply lookup_empty.
  destruct (oversized_request_file_is_submitted_in_parallel_mode_only
              small_file_config prompt_remote 1 oversized_lines
              (start fs_with_oversized_requests) Hfile Hsize Hid)
    as [(w1 & Hrun1 & Hcalls1 & _) (entry & w2 & later & Hrun2 & Hcalls2)].
  split.
  - exists w1. split; [exact Hrun1 | exact Hcalls1].
  - exists entry, w2, later. split; [exact Hrun2 | exact Hcalls2].
Defined.

(** X14: when the remote service accepts the request file and creates the
    batch, [upload_batch] writes the batch id to the id file of the batch
    (replacing what was there, and leaving every other file alone) before
    it returns it, having made exactly the two calls; the status check that
    follows reads that id back and queries it. *)
Theorem uploaded_batch_id_is_stored_and_polled
    (cfg : Config) (remote : Remote) (fuel : nat) (batch_num : Z)
    (lines : list string) (file_id batch_id : string) (batch : Batch) (w : World) :
  batch_requests (fs w) !! requests_path batch_num = Some lines ->
  getsize lines <= MAX_FILE_SIZE_MB cfg * (1024 * 1024) ->
  on_files_create remote (requests_path batch_num) lines (clock w) = Some file_id ->
  on_batches_create remote file_id (clock w) = Some batch_id ->
  on_batches_retrieve remote (strip batch_id) (clock w) = Some batch ->
  terminal (status batch) = true ->
  exists w',
    Sequential.upload_batch cfg remote batch_num w = Returned (Some batch_id) w' /\
    batch_ids (fs w') = <[id_path batch_num := batch_id]> (batch_ids (fs w)) /\
    batch_requests (fs w') = batch_requests (fs w) /\
    batch_outputs (fs w') = batch_outputs (fs w) /\
    calls w' = calls w ++ [(clock w, files_create (requests_path batch_num));
                           (clock w, batches_create file_id)] /\
    exists w'',
      Sequential.check_single_batch_status remote (S fuel) batch_num w'
        = Returned (status batch) w'' /\
      calls w'' = calls w' ++ [(clock w, batches_retrieve (strip batch_id))].
Proof.
  intros Hfile Hsize Hcreate Hbatch Hretrieve Hterm.
  unfold Sequential.upload_batch. run_step. rewrite Hfile.
  rewrite decide_False by lia. run_step. rewrite Hcreate. run_step.
  rewrite Hbatch. run_step.
  eexists. split; [reflexivity|]. simpl.
  split; [done|]. split; [done|]. split; [done|].
  split; [by rewrite <- app_assoc|].
  unfold Sequential.check_single_batch_status. run_step.
  cbn [fs batch_ids]. rewrite lookup_insert_eq.
  match goal with
  | |- context [Sequential.poll_until_terminal remote (S fuel) batch_num _ ?w1] =>
      destruct (poll_until_terminal_halts remote batch_num (strip batch_id) 0 (S fuel)
                  w1 batch) as (w'' & Hrun & _ & _ & Hcalls)
  end.
  - lia.
  - intros i Hi. lia.
  - cbn [clock]. by replace (clock w + 60 * Z.of_nat 0) with (clock w) by lia.
  - done.
  - exists w''. split; [exact Hrun|]. rewrite Hcalls. cbn [clock seq fmap list_fmap].
    by replace (clock w + 60 * Z.of_nat 0) with (clock w) by lia.
Qed.

Lemma uploaded_batch_id_is_stored_and_polled_witness :
  exists w',
    Sequential.upload_batch small_file_config prompt_remote 1 (start fs_with_requests)
      = Returned (Some ("batch-for-file-for-" +:+ requests_path 1)) w' /\
    batch_ids (fs w') !! id_path 1 = Some ("batch-for-file-for-" +:+ requests_path 1).
Proof.
  assert (batch_requests (fs (start fs_with_requests)) !! requests_path 1
          = Some (replicate 50 "{}")) as Hfile by (vm_compute; reflexivity).
  assert (getsize (replicate 50 "{}")
          <= MAX_FILE_SIZE_MB small_file_config * (1024 * 1024)) as Hsize
    by (vm_compute; discriminate).
  destruct (uploaded_batch_id_is_stored_and_polled small_file_config prompt_remote 0 1
              (replicate 50 "{}") ("file-for-" +:+ requests_path 1)
              ("batch-for-file-for-" +:+ requests_path 1)
              {| status := completed;
                 output_file_id :=
                   Some ("output-of-" +:+
                         PyStr.strip ("batch-for-file-for-" +:+ requests_path 1)) |}
              (start fs_with_requests) Hfile Hsize eq_refl eq_refl eq_refl eq_refl)
    as (w' & Hrun & Hids & _).
  exists w'. split; [exact Hrun|]. rewrite Hids. apply lookup_insert_eq.
Defined.

End UploadProperties.

Section MonitorFacts.
Import PyStr Response World Monitor.
Variable remote : Remote.

(** One status check of the parallel monitor, exactly: the flag it
    returns, and the queries it makes. *)
Lemma check_all_exact batch_ids : forall all_done w,
  exists w',
    Parallel.check_all remote batch_ids all_done w =
      Returned (all_done && forallb (done_at remote (clock w)) batch_ids) w' /\
    clock w' = clock w /\ fs w' = fs w /\
    calls w' = calls w ++ polls_at (clock w) batch_ids.
Proof.
  induction batch_ids as [|[batch_num batch_id] rest IH]; intros all_done w.
  - exists w. simpl. by rewrite andb_true_r, app_nil_r.
  - cbn [Parallel.check_all forallb]. unfold polls_at, done_at at 1.
    cbn [omap list_omap snd]. fold (polls_at (clock w) rest).
    destruct batch_id as [id|]; [destruct (truthy id)|].
    + run_step.
      destruct (on_batches_retrieve remote id (clock w)) as [batch|].
      * run_step.
        destruct (status batch);
          match goal with
          | |- context [Parallel.check_all remote rest ?b ?w0] =>
              destruct (IH b w0) as (w' & -> & Hc & Hf & Hcalls)
          end; exists w'; simpl in *;
          rewrite Hcalls, <- app_assoc, ?andb_false_r;
          repeat split; try done.
      * run_step.
        match goal with
        | |- context [Parallel.check_all remote rest ?b ?w0] =>
            destruct (IH b w0) as (w' & -> & Hc & Hf & Hcalls)
        end. exists w'. simpl in *.
        rewrite Hcalls, <- app_assoc, ?andb_false_r. repeat split; done.
    + run_step.
      match goal with
      | |- context [Parallel.check_all remote rest ?b ?w0] =>
          destruct (IH b w0) as (w' & -> & Hc & Hf & Hcalls)
      end. exists w'. simpl in *. by rewrite Hcalls.
    + run_step.
      match goal with
      | |- context [Parallel.check_all remote rest ?b ?w0] =>
          destruct (IH b w0) as (w' & -> & Hc & Hf & Hcalls)
      end. exists w'. simpl in *. by rewrite Hcalls.
Qed.

End MonitorFacts.

Section MonitorProperties.
Import PyStr Response World Monitor Scenarios Stress.

(** X15: the sequential monitor of a batch reads the stored id, queries it
    every 60 seconds and returns the status of the first query that shows
    a terminal state ([completed], [failed], [expired] or [cancelled]); a
    query that fails counts as not terminal.  It changes no file and makes
    no other call. *)
Theorem sequential_monitor_returns_first_terminal_status
    (remote : Remote) (batch_num : Z) (text : string) (k fuel : nat)
    (batch : Batch) (w : World) :
  batch_ids (fs w) !! id_path batch_num = Some text ->
  (k < fuel)%nat ->
  (forall i : nat, (i < k)%nat ->
     match on_batches_retrieve remote (strip text) (clock w + 60 * Z.of_nat i) with
     | Some b => terminal (status b) = false
     | None => True
     end) ->
  on_batches_retrieve remote (strip text) (clock w + 60 * Z.of_nat k) = Some batch ->
  terminal (status batch) = true ->
  exists w',
    Sequential.check_single_batch_status remote fuel batch_num w
      = Returned (status batch) w' /\
    clock w' = clock w + 60 * Z.of_nat k /\
    fs w' = fs w /\
    calls w' = calls w ++
      ((fun i : nat => (clock w + 60 * Z.of_nat i, batches_retrieve (strip text)))
         <$> seq 0 (S k)).
Proof.
  intros Hid Hfuel Hbefore Hat Hterm.
  unfold Sequential.check_single_batch_status. run_step. rewrite Hid.
  by apply poll_until_terminal_halts.
Qed.

Lemma sequential_monitor_returns_first_terminal_status_witness :
  exists w',
    Sequential.check_single_batch_status slow_remote 3 1 (start completed_run_fs)
      = Returned completed w' /\
    clock w' = 120 /\
    calls w' = [(0, batches_retrieve "batch-one"); (60, batches_retrieve "batch-one");
                (120, batches_retrieve "batch-one")].
Proof.
  destruct (sequential_monitor_returns_first_terminal_status slow_remote 1 "batch-one"
              2 3 {| status := completed; output_file_id := Some "output-of-batch-one" |}
              (start completed_run_fs))
    as (w' & Hrun & Hclock & _ & Hcalls).
  - vm_compute. reflexivity.
  - lia.
  - intros [|[|i]] Hi; [reflexivity|reflexivity|lia].
  - reflexivity.
  - reflexivity.
  - exists w'. split; [exact Hrun|]. split; [exact Hclock|exact Hcalls].
Defined.

(** X16: the parallel monitor checks every 60 seconds and returns at the
    first check at which every batch that has an id is reported
    [completed] or [failed]; each check queries exactly the batches that
    have an id, and no file changes.  Entries without an id never hold it
    back: when no batch has an id it returns at its first check without a
    single query. *)
Theorem parallel_monitor_returns_at_first_settled_check
    (remote : Remote) (batch_ids : list (Z * option string)) (k fuel : nat) (w : World) :
  (k < fuel)%nat ->
  (forall i : nat, (i < k)%nat ->
     forallb (done_at remote (clock w + 60 * Z.of_nat i)) batch_ids = false) ->
  forallb (done_at remote (clock w + 60 * Z.of_nat k)) batch_ids = true ->
  (exists w',
     Parallel.monitor_all_batches remote fuel batch_ids w = Returned tt w' /\
     clock w' = clock w + 60 * Z.of_nat k /\
     fs w' = fs w /\
     calls w' = calls w ++
       concat ((fun i : nat => polls_at (clock w + 60 * Z.of_nat i) batch_ids)
                 <$> seq 0 (S k))) /\
  (forall t, Forall (fun entry => from_option truthy false entry.2 = false) batch_ids ->
     forallb (done_at remote t) batch_ids = true /\ polls_at t batch_ids = []).
Proof.
  intros Hfuel Hbefore Hat. split.
  - revert fuel w Hfuel Hbefore Hat.
    induction k as [|k IH]; intros fuel w Hfuel Hbefore Hat.
    + destruct fuel as [|fuel]; [lia|]. cbn [Parallel.monitor_all_batches].
      replace (clock w + 60 * Z.of_nat 0) with (clock w) in * by lia.
      destruct (check_all_exact remote batch_ids true w) as (w1 & Hcheck & Hc & Hf & Hcalls).
      rewrite (bind_returned _ _ _ _ _ Hcheck). rewrite Hat. cbn [andb]. run_step.
      eexists. split; [reflexivity|]. simpl.
      rewrite Hcalls, app_nil_r.
      replace (clock w + 60 * Z.of_nat 0) with (clock w) by lia.
      repeat split; try done; lia.
    + destruct fuel as [|fuel]; [lia|]. cbn [Parallel.monitor_all_batches].
      destruct (check_all_exact remote batch_ids true w) as (w1 & Hcheck & Hc & Hf & Hcalls).
      rewrite (bind_returned _ _ _ _ _ Hcheck).
      pose proof (Hbefore 0%nat ltac:(lia)) as H0.
      replace (clock w + 60 * Z.of_nat 0) with (clock w) in H0 by lia.
      rewrite H0. cbn [andb]. run_step.
      match goal with
      | |- context [Parallel.monitor_all_batches remote fuel batch_ids ?w2] =>
          destruct (IH fuel w2) as (w' & Hrun & Hclock & Hfs & Hcalls')
      end.
      * lia.
      * intros i Hi. cbn [clock]. specialize (Hbefore (S i) ltac:(lia)).
        by replace (clock w1 + 60 + 60 * Z.of_nat i)
          with (clock w + 60 * Z.of_nat (S i)) by lia.
      * cbn [clock].
        by replace (clock w1 + 60 + 60 * Z.of_nat k)
          with (clock w + 60 * Z.of_nat (S k)) by lia.
      * exists w'. split; [exact Hrun|]. cbn [clock fs calls] in *.
        split; [lia|]. split; [congruence|].
        rewrite Hcalls', Hcalls, <- app_assoc. f_equal.
        change (seq 0 (S (S k))) with (0%nat :: seq 1 (S k)).
        rewrite <- fmap_S_seq, fmap_cons, <- list_fmap_compose.
        cbn [concat]. f_equal; [f_equal; lia|].
        f_equal. apply list_fmap_ext. intros _ i _. simpl. f_equal. lia.
  - clear Hfuel Hbefore Hat. intros t Hnone.
    induction batch_ids as [|[n oid] rest IH]; [done|].
    apply Forall_cons in Hnone as [Hentry Hnone].
    destruct (IH Hnone) as [IH1 IH2].
    unfold polls_at, done_at in *. cbn [forallb omap list_omap snd] in *.
    destruct oid as [id|]; simpl in Hentry.
    + rewrite Hentry. rewrite IH1. by rewrite IH2.
    + rewrite IH1. by rewrite IH2.
Qed.

Lemma parallel_monitor_returns_at_first_settled_check_witness :
  exists w',
    Parallel.monitor_all_batches slow_remote 3 [(1, Some "batch-one"); (2, None)]
      (start completed_run_fs) = Returned tt w' /\
    clock w' = 120 /\
    calls w' = [(0, batches_retrieve "batch-one"); (60, batches_retrieve "batch-one");
                (120, batches_retrieve "batch-one")].
Proof.
  destruct (parallel_monitor_returns_at_first_settled_check slow_remote
              [(1, Some "batch-one"); (2, None)] 2 3 (start completed_run_fs))
    as [(w' & Hrun & Hclock & _ & Hcalls) _].
  - lia.
  - intros [|[|i]] Hi; [reflexivity|reflexivity|lia].
  - reflexivity.
  - exists w'. split; [exact Hrun|]. split; [exact Hclock|exact Hcalls].
Defined.

End MonitorProperties.

Section DownloadRunFacts.
Import Partitioner PyStr Response World.
Variable remote : Remote.

Lemma print_all_frame out : forall w,
  exists w', print_all out w = Returned tt w' /\
             fs w' = fs w /\ calls w' = calls w /\ clock w' = clock w.
Proof.
  induction out as [|p out IH]; intros w; [by exists w|].
  simpl. run_step.
  match goal with
  | |- context [print_all out ?w0] => destruct (IH w0) as (w' & -> & Hf & Hc & Hcl)
  end.
  by exists w'.
Qed.

(** [download_batch_results] always returns, whatever the remote service
    answers, and leaves the request files and the id files alone. *)
Lemma download_batch_results_returns batch_num w :
  exists w',
    Sequential.download_batch_results remote batch_num w = Returned tt w' /\
    batch_requests (fs w') = batch_requests (fs w) /\
    batch_ids (fs w') = batch_ids (fs w) /\
    output_csv (fs w') = output_csv (fs w) /\
    ((forall file_id t, on_files_content remote file_id t = None) -> fs w' = fs w).
Proof.
  unfold Sequential.download_batch_results. run_step.
  destruct (batch_ids (fs w) !! id_path batch_num) as [text|];
    [|run_step; eexists; split; [reflexivity|done]].
  run_step.
  destruct (on_batches_retrieve remote (strip text) (clock w)) as [batch|];
    [|run_step; eexists; split; [reflexivity|done]].
  destruct (decide (status batch <> completed));
    [run_step; eexists; split; [reflexivity|done]|].
  destruct (output_file_id batch) as [file_id|];
    [|run_step; eexists; split; [reflexivity|done]].
  destruct (truthy file_id); cbn [negb];
    [|run_step; eexists; split; [reflexivity|done]].
  run_step.
  destruct (on_files_content remote file_id (clock w)) as [lines|] eqn:Hcontent;
    [|run_step; eexists; split; [reflexivity|done]].
  run_step.
  destruct (parse_results_sequential lines) as [[rows|] out]; run_step;
    match goal with
    | |- context [print_all out ?w1] =>
        destruct (print_all_frame out w1) as (w2 & -> & Hf & Hc & Hcl)
    end;
    exists w2; (split; [done|]); rewrite Hf; simpl;
    (repeat split; try done); intros Hnone; by rewrite Hnone in Hcontent.
Qed.

End DownloadRunFacts.

Section DownloadProperties.
Import Partitioner PyStr Response World Scenarios Stress Interrupted.

(** X17: results are fetched for completed batches only.  When the status
    query for a batch fails or reports any status but [completed], neither
    script calls [files.content] or writes a file for it: the query is the
    only call. *)
Theorem results_are_fetched_for_completed_batches_only
    (remote : Remote) (batch_num : Z) (text : string) (w : World) :
  batch_ids (fs w) !! id_path batch_num = Some text ->
  truthy (strip text) = true ->
  batch_outputs (fs w) !! output_path batch_num = None ->
  match on_batches_retrieve remote (strip text) (clock w) with
  | Some batch => status batch <> completed
  | None => True
  end ->
  (exists w',
     Sequential.download_batch_results remote batch_num w = Returned tt w' /\
     fs w' = fs w /\
     calls w' = calls w ++ [(clock w, batches_retrieve (strip text))]) /\
  (exists w',
     Parallel.download_one remote (batch_num, Some (strip text)) w = Returned tt w' /\
     fs w' = fs w /\
     calls w' = calls w ++ [(clock w, batches_retrieve (strip text))]).
Proof.
  intros Hid Htruthy Hout Hreply. split.
  - unfold Sequential.download_batch_results. run_step. rewrite Hid. run_step.
    destruct (on_batches_retrieve remote (strip text) (clock w)) as [batch|].
    + rewrite decide_True by done. run_step. eexists. split; [reflexivity|done].
    + run_step. eexists. split; [reflexivity|done].
  - unfold Parallel.download_one. rewrite Htruthy. cbn [negb]. run_step.
    rewrite Hout. run_step.
    destruct (on_batches_retrieve remote (strip text) (clock w)) as [batch|].
    + rewrite decide_True by done. run_step. eexists. split; [reflexivity|done].
    + run_step. eexists. split; [reflexivity|done].
Qed.

Lemma results_are_fetched_for_completed_batches_only_witness :
  exists w',
    Sequential.download_batch_results expired_remote 1
      (start (fs_with_requests_and_id)) = Returned tt w' /\
    calls w' = [(0, batches_retrieve "batch-one")].
Proof.
  destruct (results_are_fetched_for_completed_batches_only expired_remote 1
              "batch-one" (start fs_with_requests_and_id))
    as [(w' & Hrun & _ & Hcalls) _].
  - vm_compute. reflexivity.
  - reflexivity.
  - apply lookup_empty.
  - simpl. discriminate.
  - exists w'. split; [exact Hrun|exact Hcalls].
Defined.

(** X18: in the sequential script, once a batch is reported [completed]
    its request file is removed whether or not its results could be
    fetched: when the download fails, the batch ends with neither a request
    file nor a result table, and the loop goes on with the next batch. *)
Theorem request_file_is_removed_after_completion_even_if_download_fails
    {Row : Type} (cfg : Config) (df : list Row) (request_line : Z -> Row -> string)
    (remote : Remote) (fuel : nat) (batch_num : Z) (rest : list Z) (nb spb : Z)
    (lines : list string) (file_id batch_id : string) (batch : Batch) (w : World) :
  batch_requests (fs w) !! requests_path batch_num = Some lines ->
  getsize lines <= MAX_FILE_SIZE_MB cfg * (1024 * 1024) ->
  on_files_create remote (requests_path batch_num) lines (clock w) = Some file_id ->
  on_batches_create remote file_id (clock w) = Some batch_id ->
  truthy batch_id = true ->
  on_batches_retrieve remote (strip batch_id) (clock w) = Some batch ->
  status batch = completed ->
  exists w',
    Sequential.process_batches cfg df request_line remote (S fuel)
      (batch_num :: rest) nb spb w
    = Sequential.process_batches cfg df request_line remote (S fuel) rest nb spb w' /\
    batch_requests (fs w') = delete (requests_path batch_num) (batch_requests (fs w)) /\
    batch_ids (fs w') = <[id_path batch_num := batch_id]> (batch_ids (fs w)) /\
    ((forall id t, on_files_content remote id t = None) ->
     batch_outputs (fs w') = batch_outputs (fs w) /\
     batch_results (fs w') = batch_results (fs w)).
Proof.
  intros Hfile Hsize Hcreate Hbatch Htruthy Hretrieve Hstatus.
  cbn [Sequential.process_batches].
  unfold Sequential.create_single_batch_file. run_step. rewrite Hfile. run_step.
  unfold Sequential.upload_batch. run_step. rewrite Hfile.
  rewrite decide_False by lia. run_step. rewrite Hcreate. run_step.
  rewrite Hbatch. run_step. cbn [from_option]. rewrite Htruthy. cbn [negb].
  unfold Sequential.check_single_batch_status. run_step.
  cbn [fs batch_ids]. rewrite lookup_insert_eq.
  cbn [Sequential.poll_until_terminal]. run_step. rewrite Hretrieve. run_step.
  rewrite Hstatus. run_step.
  rewrite decide_False by (intros H; by apply H).
  match goal with
  | |- context [Sequential.download_batch_results remote batch_num ?w1] =>
      destruct (download_batch_results_returns remote batch_num w1)
        as (w2 & -> & Hreq & Hids & Hcsv & Hsame)
  end.
  run_step. eexists. split; [reflexivity|]. simpl in *.
  rewrite Hreq, Hids. split; [done|]. split; [done|].
  intros Hnone. by rewrite (Hsame Hnone).
Qed.

Lemma request_file_is_removed_after_completion_even_if_download_fails_witness :
  exists w',
    Sequential.process_batches small_file_config hundred_rows render unreadable_remote
      1 [1] 2 50 (start fs_with_requests) = Returned true w' /\
    batch_requests (fs w') !! requests_path 1 = None /\
    batch_outputs (fs w') = ∅.
Proof.
  assert (batch_requests (fs (start fs_with_requests)) !! requests_path 1
          = Some (replicate 50 "{}")) as Hfile by (vm_compute; reflexivity).
  assert (getsize (replicate 50 "{}")
          <= MAX_FILE_SIZE_MB small_file_config * (1024 * 1024)) as Hsize
    by (vm_compute; discriminate).
  destruct (request_file_is_removed_after_completion_even_if_download_fails
              small_file_config hundred_rows render unreadable_remote 0 1 [] 2 50
              (replicate 50 "{}") ("file-for-" +:+ requests_path 1)
              ("batch-for-file-for-" +:+ requests_path 1)
              {| status := completed;
                 output_file_id :=
                   Some ("output-of-" +:+
                         PyStr.strip ("batch-for-file-for-" +:+ requests_path 1)) |}
              (start fs_with_requests) Hfile Hsize eq_refl eq_refl eq_refl eq_refl
              eq_refl)
    as (w' & Hrun & Hreq & _ & Hkept).
  exists w'. split; [exact Hrun|]. split.
  - rewrite Hreq. apply lookup_delete_eq.
  - exact (proj1 (Hkept (fun _ _ => eq_refl))).
Defined.

End DownloadProperties.

(** ** Merging and re-running *)

Section MergeMoreFacts.
Import Partitioner PyStr Response World.

Lemma after_prefix_Some p : forall s f, after_prefix p s = Some f -> s = p +:+ f.
Proof.
  induction p as [|a p IH]; intros [|b s] f; simpl; try done.
  - by intros [= <-].
  - by intros [= <-].
  - case_decide; [|done]. subst. intros H. by rewrite (IH _ _ H).
Qed.

Lemma after_prefix_app p f : after_prefix p (p +:+ f) = Some f.
Proof.
  induction p as [|a p IH]; simpl; [by destruct f|].
  by rewrite decide_True.
Qed.

(** The paths merged are the per-batch tables on disk whose file name
    starts with [batch_] and ends with [_output.csv]. *)
Lemma elem_of_batch_files d p :
  p ∈ Sequential.batch_files d <->
  exists f, p = "batch_files/batch_outputs/" +:+ f /\
            is_Some (batch_outputs d !! p) /\
            startswith f "batch_" = true /\ endswith f "_output.csv" = true.
Proof.
  unfold Sequential.batch_files, Sequential.listdir_outputs.
  rewrite merge_sort_Permutation, list_elem_of_fmap.
  split.
  - intros (f & -> & [Hname Hin]%list_elem_of_filter).
    apply list_elem_of_omap in Hin as (key & Hkey & Hafter).
    apply list_elem_of_fmap in Hkey as ([key' rows] & -> & Hrows).
    apply elem_of_map_to_list in Hrows. cbn [fst] in Hafter.
    apply after_prefix_Some in Hafter. subst key'.
    apply andb_true_iff in Hname as [Hs He].
    exists f. split; [done|]. split; [by eexists|done].
  - intros (f & -> & [rows Hrows] & Hs & He).
    exists f. split; [done|]. apply list_elem_of_filter. split.
    + by rewrite Hs, He.
    + apply list_elem_of_omap.
      exists ("batch_files/batch_outputs/" +:+ f). split.
      * apply list_elem_of_fmap. exists ("batch_files/batch_outputs/" +:+ f, rows).
        split; [done|]. by apply elem_of_map_to_list.
      * apply after_prefix_app.
Qed.

Lemma omap_lookup_present {A} (m : gmap string (list A)) (paths : list string) :
  (forall p, p ∈ paths -> is_Some (m !! p)) ->
  omap (fun p => m !! p) paths = (fun p => default [] (m !! p)) <$> paths.
Proof.
  induction paths as [|p paths IH]; intros Hall; [done|].
  simpl. destruct (Hall p) as [rows Hrows]; [by left|].
  rewrite Hrows. simpl. f_equal. apply IH. intros q Hq. apply Hall. by right.
Qed.

(** The list of paths depends on the per-batch tables only. *)
Lemma batch_files_ext d d' :
  batch_outputs d = batch_outputs d' ->
  Sequential.batch_files d = Sequential.batch_files d'.
Proof.
  intros H. unfold Sequential.batch_files, Sequential.listdir_outputs. by rewrite H.
Qed.

Lemma filter_none {A} (P : A -> Prop) `{!forall x, Decision (P x)} (l : list A) :
  Forall (fun x => ~ P x) l -> filter P l = [].
Proof.
  induction 1 as [|x l Hx _ IH]; [done|]. by rewrite filter_cons_False.
Qed.

End MergeMoreFacts.

Section MergeLogFacts.
Import Partitioner PyStr Response World MergeLog.

(** Every table that is on disk is loaded and reported, in the order of the
    paths. *)
Lemma load_all_reports paths : forall acc w,
  (forall p, p ∈ paths -> is_Some (batch_outputs (fs w) !! p)) ->
  exists w' new,
    Sequential.load_all paths acc w =
      Returned (acc ++ omap (fun p => batch_outputs (fs w) !! p) paths) w' /\
    fs w' = fs w /\ calls w' = calls w /\ clock w' = clock w /\
    printed w' = printed w ++ new /\
    omap loaded_file new = paths.
Proof.
  induction paths as [|p paths IH]; intros acc w Hdisk.
  - exists w, []. simpl. by rewrite !app_nil_r.
  - destruct (Hdisk p) as [rows Hp]; [by left|].
    simpl. run_step. rewrite Hp. run_step.
    match goal with
    | |- context [Sequential.load_all paths ?acc' ?w1] =>
        destruct (IH acc' w1) as (w' & new & Hrun & Hfs & Hcalls & Hclock & Hp' & Hnew)
    end.
    { intros q Hq. simpl. apply Hdisk. by right. }
    exists w', (Loaded p (length rows) :: new). simpl in *.
    rewrite Hrun, <- app_assoc. split; [done|].
    split; [done|]. split; [done|]. split; [done|].
    split; [by rewrite Hp', <- app_assoc|]. by f_equal.
Qed.

End MergeLogFacts.

Section MergeProperties.
Import Partitioner PyStr Response World Scenarios MergeLog.

(** X19: [merge_all_results] takes the per-batch tables on disk whose file
    name starts with [batch_] and ends with [_output.csv], in ascending
    order of their paths as strings: it reports these files as loaded, one
    after the other in that order, and writes a merged table; with no such
    table it writes nothing.  It makes no remote call and changes no
    per-batch file.  The merged table is determined by the per-batch tables
    alone: merging again, or merging in any state with the same per-batch
    tables, writes the same merged table.  The cells of the merged table
    are not part of this statement (the script re-reads every table with
    pandas, which may retype them); the tables are ones pandas can read,
    with the seven columns. *)
Theorem merge_reads_tables_in_path_order (w : World) :
  let paths := Sequential.batch_files (fs w) in
  StronglySorted String.le paths /\
  (forall p, p ∈ paths <->
     exists f, p = "batch_files/batch_outputs/" +:+ f /\
               is_Some (batch_outputs (fs w) !! p) /\
               startswith f "batch_" = true /\ endswith f "_output.csv" = true) /\
  exists w' new,
    Sequential.merge_all_results w = Returned tt w' /\
    quiet w w' /\ calls w' = calls w /\ clock w' = clock w /\
    printed w' = printed w ++ new /\
    omap loaded_file new = paths /\
    (paths = [] -> output_csv (fs w') = output_csv (fs w)) /\
    (paths <> [] -> is_Some (output_csv (fs w'))) /\
    forall v, batch_outputs (fs v) = batch_outputs (fs w) ->
      exists v',
        Sequential.merge_all_results v = Returned tt v' /\
        (paths <> [] -> output_csv (fs v') = output_csv (fs w')).
Proof.
  intros paths.
  assert (forall p, p ∈ paths -> is_Some (batch_outputs (fs w) !! p)) as Hdisk.
  { intros p Hp. apply elem_of_batch_files in Hp as (f & _ & Hsome & _). done. }
  assert (forall w0, batch_outputs (fs w0) = batch_outputs (fs w) ->
            omap (fun p => batch_outputs (fs w0) !! p) (Sequential.batch_files (fs w0))
            = (fun p => default [] (batch_outputs (fs w) !! p)) <$> paths) as Htables.
  { intros w0 Hsame. rewrite (batch_files_ext (fs w0) (fs w) Hsame), Hsame.
    by apply omap_lookup_present. }
  split; [apply batch_files_sorted|]. split; [apply elem_of_batch_files|].
  assert (exists w' new,
            Sequential.merge_all_results w = Returned tt w' /\
            calls w' = calls w /\
            printed w' = printed w ++ new /\ omap loaded_file new = paths)
    as (w' & new & Hrun & Hcalls & Hprinted & Hloaded).
  { unfold Sequential.merge_all_results. run_step. fold paths.
    destruct paths as [|p rest] eqn:Hpaths.
    - run_step. eexists _, _. split; [reflexivity|]. done.
    - destruct (load_all_reports (p :: rest) [] w Hdisk)
        as (w1 & new & Hload & Hfs & Hcalls & _ & Hp & Hnew).
      rewrite Hload. simpl app.
      destruct (omap _ (p :: rest)) as [|t tables].
      + run_step. exists w1, new. done.
      + run_step. eexists _, (new ++ [_]). split; [reflexivity|]. simpl.
        split; [done|]. split; [by rewrite Hp, <- app_assoc|].
        rewrite omap_app. simpl. by rewrite app_nil_r. }
  destruct (merge_all_results_spec w) as (w0 & Hrun0 & Hq & Hclock & Hcsv).
  rewrite Hrun in Hrun0. injection Hrun0 as <-.
  rewrite (Htables w eq_refl) in Hcsv.
  exists w', new.
  split; [done|]. split; [done|]. split; [done|]. split; [done|].
  split; [done|]. split; [done|].
  split; [intros Hnone; by rewrite Hcsv, Hnone|].
  split; [intros Hsome; rewrite Hcsv; by destruct paths|].
  intros v Hsame.
  destruct (merge_all_results_spec v) as (v' & Hrunv & _ & _ & Hcsvv).
  exists v'. split; [done|]. intros Hsome.
  rewrite Hcsvv, (Htables v Hsame), Hcsv. by destruct paths.
Qed.

(** X20: re-running the parallel script when, for every batch, the request
    file, the id file and the parsed table are on disk and the stored batch
    is reported finished: the run returns; nothing is created, submitted or
    downloaded again; the only remote calls are status queries and no
    per-batch file changes. *)
Theorem parallel_rerun_only_queries {Row : Type} (cfg : Config)
    (df : list Row) (request_line : Z -> Row -> string) (remote : Remote)
    (fuel : nat) (w : World) (nb spb : Z) :
  calculate_batch_sizes_parallel cfg (Z.of_nat (length df)) = Some (nb, spb) ->
  (forall k, k ∈ seqZ 1 nb ->
     is_Some (batch_requests (fs w) !! requests_path k) /\
     exists text, batch_ids (fs w) !! id_path k = Some text /\
                  settled remote w (k, Some (strip text))) ->
  exists w',
    Parallel.main cfg df request_line remote (S fuel) w = Returned tt w' /\
    same_artifacts w w' /\
    exists added,
      calls w' = calls w ++ added /\
      Forall (fun c => is_poll c.2 = true) added /\
      filter (fun c => is_submission c.2 = true) added = [] /\
      filter (fun c => is_download c.2 = true) added = [].
Proof.
  intros Hcalc Hdisk.
  destruct (parallel_rerun_is_quiet cfg df request_line remote fuel w nb spb Hcalc Hdisk)
    as (w' & Hrun & Hsame & added & Hcalls & Hpolls).
  exists w'. split; [done|]. split; [done|].
  exists added. split; [done|]. split; [done|].
  split; apply filter_none; (eapply Forall_impl; [exact Hpolls|]);
    intros [t c] Hc; by destruct c.
Qed.

Lemma parallel_rerun_only_queries_witness :
  exists w',
    Parallel.main small_file_config hundred_rows render prompt_remote 1
      (start completed_run_fs) = Returned tt w' /\
    same_artifacts (start completed_run_fs) w'.
Proof.
  destruct (parallel_rerun_only_queries small_file_config hundred_rows render
              prompt_remote 0 (start completed_run_fs) 2 50)
    as (w' & Hrun & Hsame & _).
  - vm_compute. reflexivity.
  - intros k Hk. apply elem_of_seqZ in Hk.
    assert (k = 1 \/ k = 2) as [-> | ->] by lia.
    + split; [eexists; vm_compute; reflexivity|].
      exists "batch-one". split; [vm_compute; reflexivity|].
      split; [eexists; vm_compute; reflexivity|].
      exists "batch-one". split; [reflexivity|].
      intros _ t. eexists. split; [reflexivity|]. by left.
    + split; [eexists; vm_compute; reflexivity|].
      exists "batch-two". split; [vm_compute; reflexivity|].
      split; [eexists; vm_compute; reflexivity|].
      exists "batch-two". split; [reflexivity|].
      intros _ t. eexists. split; [reflexivity|]. by left.
  - exists w'. split; [exact Hrun | exact Hsame].
Defined.

End MergeProperties.

(** ** The status helper *)

Section StatusHelperFacts.
Import PyStr Response World StatusHelper.
Variable remote : Remote.

(** Every listed id file can be opened. *)
Lemma elem_of_id_files d f :
  f ∈ batch_files d -> is_Some (batch_ids d !! ("batch_files/batch_ids/" +:+ f)).
Proof.
  unfold batch_files, listdir_ids. rewrite merge_sort_Permutation.
  intros [_ Hin]%list_elem_of_filter.
  apply list_elem_of_omap in Hin as (key & Hkey & Hafter).
  apply list_elem_of_fmap in Hkey as ([key' text] & -> & Htext).
  apply elem_of_map_to_list in Htext. cbn [fst] in Hafter.
  apply after_prefix_Some in Hafter. subst key'. by eexists.
Qed.

Lemma tally_total reply t : total (tally reply t) = S (total t).
Proof.
  unfold total, tally. destruct reply as [batch|]; [destruct (status batch)|];
    simpl; lia.
Qed.

Lemma tally_completed reply t :
  (reports_completed reply /\ total_completed (tally reply t) = S (total_completed t)) \/
  (~ reports_completed reply /\ total_completed (tally reply t) = total_completed t).
Proof.
  unfold tally, reports_completed. destruct reply as [batch|].
  - destruct (status batch) eqn:Hs; simpl;
      try (right; split; [intros (b & [= <-] & Hb); congruence|done]).
    left. split; [by exists batch|done].
  - right. split; [by intros (b & ? & _)|done].
Qed.

Lemma tally_unfinished reply t :
  (total_in_progress t + total_pending t
   <= total_in_progress (tally reply t) + total_pending (tally reply t))%nat /\
  (reports_unfinished reply ->
   (0 < total_in_progress (tally reply t) + total_pending (tally reply t))%nat).
Proof.
  unfold tally, reports_unfinished. destruct reply as [batch|].
  - destruct (status batch) eqn:Hs; simpl; (split; [lia|]);
      try (intros _; lia); intros (b & [= <-] & Hc & Hf); congruence.
  - simpl. split; [lia|]. by intros (b & ? & _).
Qed.

(** The loop queries every id file once, in order, and only counts. *)
Lemma check_each_spec files : forall t w,
  (forall f, f ∈ files ->
     is_Some (batch_ids (fs w) !! ("batch_files/batch_ids/" +:+ f))) ->
  exists w',
    check_each remote files t w =
      Returned (foldl (fun t f => tally (reply_at remote (fs w) (clock w) f) t) t files) w' /\
    fs w' = fs w /\ clock w' = clock w /\ printed w' = printed w /\
    calls w' = calls w ++
      ((fun f => (clock w,
                  batches_retrieve
                    (strip (default "" (batch_ids (fs w)
                                          !! ("batch_files/batch_ids/" +:+ f))))))
         <$> files).
Proof.
  induction files as [|f files IH]; intros t w Hfiles.
  - exists w. simpl. by rewrite app_nil_r.
  - cbn [check_each]. run_step.
    change ("batch_files/batch_ids" +:+ "/" +:+ f)
      with ("batch_files/batch_ids/" +:+ f).
    destruct (Hfiles f) as [text Htext]; [by left|]. rewrite Htext. run_step.
    match goal with
    | |- context [check_each remote files ?t1 ?w1] =>
        destruct (IH t1 w1) as (w' & Hrun & Hfs & Hclock & Hprinted & Hcalls)
    end.
    { intros g Hg. apply Hfiles. by right. }
    exists w'. simpl in *. unfold reply_at at 2. rewrite Htext. simpl.
    rewrite Hrun, Hcalls, <- app_assoc. done.
Qed.

Lemma foldl_tally_total (reply : string -> option Batch) files : forall t,
  total (foldl (fun t f => tally (reply f) t) t files) = (total t + length files)%nat.
Proof.
  induction files as [|f files IH]; intros t; simpl; [lia|].
  rewrite IH, tally_total. lia.
Qed.

Lemma foldl_tally_completed (reply : string -> option Batch) files : forall t,
  (total_completed (foldl (fun t f => tally (reply f) t) t files)
   <= total_completed t + length files)%nat /\
  (total_completed (foldl (fun t f => tally (reply f) t) t files)
   = (total_completed t + length files)%nat <->
   Forall (fun f => reports_completed (reply f)) files).
Proof.
  induction files as [|f files IH]; intros t; simpl.
  - split; [lia|]. split; [done|lia].
  - destruct (IH (tally (reply f) t)) as [Hle Hiff].
    destruct (tally_completed (reply f) t) as [[Hc Heq]|[Hc Heq]];
      rewrite Heq in Hle, Hiff.
    + split; [lia|]. rewrite Forall_cons.
      split.
      * intros H. split; [done|]. apply Hiff. lia.
      * intros [_ H]. apply Hiff in H. lia.
    + split; [lia|]. rewrite Forall_cons.
      split; [lia|]. by intros [H _].
Qed.

Lemma foldl_tally_unfinished (reply : string -> option Batch) files : forall t,
  (total_in_progress t + total_pending t
   <= total_in_progress (foldl (fun t f => tally (reply f) t) t files)
      + total_pending (foldl (fun t f => tally (reply f) t) t files))%nat /\
  (Exists (fun f => reports_unfinished (reply f)) files ->
   (0 < total_in_progress (foldl (fun t f => tally (reply f) t) t files)
        + total_pending (foldl (fun t f => tally (reply f) t) t files))%nat).
Proof.
  induction files as [|f files IH]; intros t; simpl.
  - split; [lia|]. by intros H%Exists_nil.
  - destruct (IH (tally (reply f) t)) as [Hle Hex].
    destruct (tally_unfinished (reply f) t) as [Hle' Hpos].
    split; [lia|]. intros [H|H]%Exists_cons.
    + specialize (Hpos H). lia.
    + by apply Hex.
Qed.

End StatusHelperFacts.

Section StatusHelperProperties.
Import PyStr Response World StatusHelper.

(** X21: the status helper only looks: it makes one status query per id
    file, in the order of the file names, and no other call, and changes
    no file; the four totals it prints add up to the number of id files
    (an id file whose query fails is counted as failed); without id files
    it exits before any query. *)
Theorem status_helper_counts_every_id_file_once (remote : Remote) (w : World) :
  exists result w',
    main remote w = Returned result w' /\
    fs w' = fs w /\ clock w' = clock w /\
    calls w' = calls w ++
      ((fun f => (clock w,
                  batches_retrieve
                    (strip (default "" (batch_ids (fs w)
                                          !! ("batch_files/batch_ids/" +:+ f))))))
         <$> batch_files (fs w)) /\
    match result with
    | None => batch_files (fs w) = []
    | Some (t, _) =>
        batch_files (fs w) <> [] /\
        (total_completed t + total_in_progress t + total_failed t + total_pending t
         = length (batch_files (fs w)))%nat
    end.
Proof.
  unfold main. run_step.
  destruct (batch_files (fs w)) as [|f files] eqn:Hfiles.
  - run_step. exists None, w. by rewrite app_nil_r.
  - destruct (check_each_spec remote (f :: files)
                {| total_completed := 0; total_in_progress := 0;
                   total_failed := 0; total_pending := 0 |} w)
      as (w' & Hrun & Hfs & Hclock & _ & Hcalls).
    { intros g Hg. apply elem_of_id_files. by rewrite Hfiles. }
    rewrite Hrun. run_step. eexists _, w'. split; [reflexivity|].
    split; [done|]. split; [done|]. split; [done|]. split; [done|].
    pose proof (foldl_tally_total (reply_at remote (fs w) (clock w)) (f :: files)
                  {| total_completed := 0; total_in_progress := 0;
                     total_failed := 0; total_pending := 0 |}) as Htotal.
    unfold total in Htotal. simpl in *. lia.
Qed.

(** X22: the helper announces that all batches are complete exactly when
    every id file's batch is reported [completed]; and as soon as one
    batch is reported in any state but [completed] and [failed], it says
    that processing is still going on, to check again later: so it does
    for a batch that has expired or was cancelled, which no later check
    will find changed. *)
Theorem status_helper_closing_message (remote : Remote) (w : World)
    (t : Totals) (message : Closing) (w' : World) :
  main remote w = Returned (Some (t, message)) w' ->
  let replies := reply_at remote (fs w) (clock w) <$> batch_files (fs w) in
  (message = All_completed_ready_to_run_analysis <->
   Forall reports_completed replies) /\
  (Exists reports_unfinished replies ->
   message = Still_processing_check_again_later) /\
  (forall batch, status batch = expired \/ status batch = cancelled ->
     reports_unfinished (Some batch)).
Proof.
  unfold main. run_step.
  destruct (batch_files (fs w)) as [|f files] eqn:Hfiles; [by run_step|].
  destruct (check_each_spec remote (f :: files)
              {| total_completed := 0; total_in_progress := 0;
                 total_failed := 0; total_pending := 0 |} w)
    as (w1 & Hrun & _).
  { intros g Hg. apply elem_of_id_files. by rewrite Hfiles. }
  rewrite Hrun. run_step. intros [= <- <- <-].
  set (t0 := {| total_completed := 0; total_in_progress := 0;
                total_failed := 0; total_pending := 0 |}).
  set (reply := reply_at remote (fs w) (clock w)).
  destruct (foldl_tally_completed reply (f :: files) t0) as [Hle Hiff].
  destruct (foldl_tally_unfinished reply (f :: files) t0) as [_ Hex].
  rewrite Forall_fmap, Exists_fmap.
  change (total_completed t0 + length (f :: files))%nat
    with (length (f :: files)) in Hiff.
  cbn [foldl] in Hle, Hiff, Hex |- *.
  split; [|split].
  - unfold closing. rewrite <- Hiff. split.
    + repeat case_decide; done.
    + intros Heq. by rewrite decide_True.
  - intros Hun. specialize (Hex Hun). unfold closing.
    rewrite decide_False.
    + rewrite decide_True; [done|]. lia.
    + intros Heq. apply Hiff in Heq.
      apply Exists_exists in Hun as (g & Hg & (b & Hb & Hc & _)).
      rewrite Forall_forall in Heq.
      destruct (Heq g Hg) as (b' & Hb' & Hc'). unfold compose in *. congruence.
  - intros batch Hs. exists batch. split; [done|]. by destruct Hs as [-> | ->].
Qed.

Lemma status_helper_closing_message_witness :
  exists t w',
    main Scenarios.expired_remote (Scenarios.start Scenarios.completed_run_fs)
      = Returned (Some (t, Still_processing_check_again_later)) w' /\
    total_pending t = 2%nat.
Proof.
  assert (exists t m w',
            main Scenarios.expired_remote (Scenarios.start Scenarios.completed_run_fs)
            = Returned (Some (t, m)) w' /\ total_pending t = 2%nat)
    as (t & m & w' & Hrun & Hpending).
  { eexists _, _, _. split; [vm_compute; reflexivity|reflexivity]. }
  destruct (status_helper_closing_message Scenarios.expired_remote
              (Scenarios.start Scenarios.completed_run_fs) t m w' Hrun)
    as (_ & Hstill & Hexpired).
  exists t, w'. split; [|exact Hpending].
  rewrite Hrun. do 3 f_equal. apply Hstill.
  assert (batch_files (fs (Scenarios.start Scenarios.completed_run_fs))
          = ["batch_1_id.txt"; "batch_2_id.txt"]) as -> by (vm_compute; reflexivity).
  apply Exists_cons_hd. apply Hexpired. by left.
Defined.

End StatusHelperProperties.

(** ** Disagreements, rates and verdicts *)

Section AnalysisFacts.
Import Comparator Analysis.
Variable parse_number : string -> option Q.

Lemma length_filter_cons {A} (P : A -> Prop) `{!forall x, Decision (P x)} x (l : list A) :
  length (filter P (x :: l)) =
  ((if decide (P x) then 1 else 0) + length (filter P l))%nat.
Proof. rewrite filter_cons. by destruct (decide (P x)). Qed.

(** The flags of a binary row, as the comparisons see them. *)
Lemma binary_flag_cases r :
  binary_flag parse_number r ->
  exists q, to_numeric parse_number (AI_native r) = Some q /\
    (Qeq_bool q 0 = true /\ Qeq_bool q 1 = false \/
     Qeq_bool q 0 = false /\ Qeq_bool q 1 = true).
Proof.
  intros (q & Hq & Hcases). exists q. split; [done|].
  destruct Hcases as [H|H]; [left|right]; split;
    try (by apply Qeq_bool_iff);
    apply not_true_iff_false; intros H'%Qeq_bool_iff; rewrite H in H'; done.
Qed.

Lemma Qeq_bool_binary q q' :
  (Qeq_bool q 0 = true /\ Qeq_bool q 1 = false \/
   Qeq_bool q 0 = false /\ Qeq_bool q 1 = true) ->
  (Qeq_bool q' 0 = true /\ Qeq_bool q' 1 = false \/
   Qeq_bool q' 0 = false /\ Qeq_bool q' 1 = true) ->
  Qeq_bool q q' = Qeq_bool q 0 && Qeq_bool q' 0 || Qeq_bool q 1 && Qeq_bool q' 1.
Proof.
  intros [[H0 H1]|[H0 H1]] [[H0' H1']|[H0' H1']]; rewrite H0, H1, H0', H1'; simpl.
  - apply Qeq_bool_iff. apply Qeq_bool_iff in H0, H0'. by rewrite H0, H0'.
  - apply not_true_iff_false. intros H%Qeq_bool_iff.
    apply Qeq_bool_iff in H0, H1'. rewrite H0, H1' in H. done.
  - apply not_true_iff_false. intros H%Qeq_bool_iff.
    apply Qeq_bool_iff in H1, H0'. rewrite H1, H0' in H. done.
  - apply Qeq_bool_iff. apply Qeq_bool_iff in H1, H1'. by rewrite H1, H1'.
Qed.

(** A merged row with binary flags is an agreement, a change to AI-native
    or a change away from it. *)
Lemma binary_pair_cases pair :
  binary_pair parse_number pair ->
  let to_ai := equals (week9_both parse_number pair) 0
               && equals (week10_short parse_number pair) 1 in
  let from_ai := equals (week9_both parse_number pair) 1
                 && equals (week10_short parse_number pair) 0 in
  let ai9 := equals (week9_both parse_number pair) 1 in
  let ai10 := equals (week10_short parse_number pair) 1 in
  (agreement parse_number pair = true /\ to_ai = false /\ from_ai = false /\
   ai9 = ai10) \/
  (agreement parse_number pair = false /\ to_ai = true /\ from_ai = false /\
   ai9 = false /\ ai10 = true) \/
  (agreement parse_number pair = false /\ to_ai = false /\ from_ai = true /\
   ai9 = true /\ ai10 = false).
Proof.
  intros [Hl Hr].
  destruct (binary_flag_cases _ Hl) as (a & Ha & Hacases).
  destruct (binary_flag_cases _ Hr) as (b & Hb & Hbcases).
  unfold agreement, equals, week9_both, week10_short. rewrite Ha, Hb.
  cbn [numeric_eq]. rewrite (Qeq_bool_binary a b Hacases Hbcases).
  destruct Hacases as [[-> ->]|[-> ->]], Hbcases as [[-> ->]|[-> ->]];
    cbn [andb orb]; auto 10.
Qed.

End AnalysisFacts.

Section AnalysisProperties.
Import Comparator Analysis Tables MoreTables.

(** X23: every merged row is counted either as an agreement or as a
    disagreement, and the two change patterns are disjoint parts of the
    disagreements.  When all flags are 0 or 1 the two patterns make up all
    disagreements, and the week 10 count of AI-native rows exceeds the
    week 9 count by the changes to AI-native less the changes away from
    it.  A merged row with a flag that is not a number is a disagreement
    that belongs to neither pattern. *)
Theorem disagreements_split_into_the_two_patterns
    (parse_number : string -> option Q) (df_merged : list (ResultRow * ResultRow)) :
  let disagree := df_disagree parse_number df_merged in
  let to_ai := both_not_short_ai parse_number disagree in
  let from_ai := both_ai_short_not parse_number disagree in
  (agreements parse_number df_merged + length disagree = length df_merged)%nat /\
  (to_ai + from_ai <= length disagree)%nat /\
  (Forall (binary_pair parse_number) df_merged ->
   (to_ai + from_ai = length disagree)%nat /\
   (week10_ai_count parse_number df_merged + from_ai
    = week9_ai_count parse_number df_merged + to_ai)%nat) /\
  (forall pair,
     week9_both parse_number pair = None \/ week10_short parse_number pair = None ->
     df_disagree parse_number [pair] = [pair] /\
     both_not_short_ai parse_number [pair] = 0%nat /\
     both_ai_short_not parse_number [pair] = 0%nat).
Proof.
  intros disagree to_ai from_ai. subst disagree to_ai from_ai.
  unfold agreements, df_disagree, both_not_short_ai, both_ai_short_not,
    week9_ai_count, week10_ai_count.
  split; [|split; [|split]].
  - induction df_merged as [|pair rest IH]; [done|].
    rewrite !length_filter_cons. cbn [length].
    destruct (agreement parse_number pair);
      repeat case_decide; try done; lia.
  - induction df_merged as [|pair rest IH]; [simpl; lia|].
    rewrite (filter_cons _ pair).
    destruct (decide (agreement parse_number pair = false)) as [Hd|Hd]; [|done].
    rewrite !length_filter_cons. cbn [length].
    destruct (equals (week9_both parse_number pair) 0
              && equals (week10_short parse_number pair) 1) eqn:Hto;
      destruct (equals (week9_both parse_number pair) 1
                && equals (week10_short parse_number pair) 0) eqn:Hfrom;
      repeat (case_decide; try done); try lia.
    (* both patterns at once: the week 9 flag would be 0 and 1 *)
    exfalso. clear IH.
    apply andb_true_iff in Hto as [Hto _]. apply andb_true_iff in Hfrom as [Hfrom _].
    unfold equals, numeric_eq in Hto, Hfrom.
    destruct (week9_both parse_number pair) as [a|]; [|done].
    apply Qeq_bool_iff in Hto, Hfrom. rewrite Hto in Hfrom. done.
  - intros Hbinary.
    induction Hbinary as [|pair rest Hpair _ [IH1 IH2]]; [done|].
    rewrite (filter_cons _ pair), !(length_filter_cons _ pair rest).
    destruct (binary_pair_cases parse_number pair Hpair)
      as [(HA & HT & HF & HN)|[(HA & HT & HF & HN9 & HN10)|(HA & HT & HF & HN9 & HN10)]];
      cbv zeta in *.
    + rewrite HA. rewrite decide_False by done. rewrite HN.
      destruct (equals (week10_short parse_number pair) 1);
        repeat (case_decide; try done); lia.
    + rewrite HA. rewrite decide_True by done.
      rewrite !(length_filter_cons _ pair), HT, HF, HN9, HN10. cbn [length].
      repeat (case_decide; try done); lia.
    + rewrite HA. rewrite decide_True by done.
      rewrite !(length_filter_cons _ pair), HT, HF, HN9, HN10. cbn [length].
      repeat (case_decide; try done); lia.
  - intros pair Hnan. unfold equals.
    assert (agreement parse_number pair = false) as Hd.
    { unfold agreement, numeric_eq. unfold week9_both, week10_short in Hnan.
      destruct Hnan as [-> | ->]; [done|].
      by destruct (to_numeric parse_number (AI_native pair.1)). }
    rewrite filter_cons_True by done.
    split; [done|].
    unfold week9_both, week10_short in *.
    split; rewrite filter_cons_False; try done;
      destruct Hnan as [-> | ->]; simpl; try done;
      rewrite andb_false_r; done.
Qed.

End AnalysisProperties.

Section VerdictFacts.
Import Comparator Analysis.

Lemma merge_disjoint left right :
  (forall l, l ∈ left -> CompanyID l ∉ CompanyID <$> right) ->
  merge left right = [].
Proof.
  intros Hdisjoint. unfold merge.
  induction left as [|l left IH]; [done|].
  rewrite bind_cons, IH by (intros l' Hl'; apply Hdisjoint; by right).
  rewrite app_nil_r.
  assert (filter (fun r => CompanyID r = CompanyID l) right = []) as ->; [|done].
  apply filter_none. apply Forall_forall. intros r Hr Heq.
  apply (Hdisjoint l); [by left|]. rewrite <- Heq.
  apply list_elem_of_fmap. by exists r.
Qed.

Lemma hundredths_just_below_95 rate :
  (94995 # 1000 < rate)%Q -> (rate < 95)%Q -> hundredths rate = 9500.
Proof.
  destruct rate as [n d]. unfold Qlt, hundredths. simpl.
  intros Hlo Hhi.
  pose proof (Z.div_mod (n * 100) (Z.pos d) ltac:(lia)) as Hdm.
  pose proof (Z.mod_pos_bound (n * 100) (Z.pos d) ltac:(lia)) as Hmod.
  assert (n * 100 / Z.pos d = 9499) as Hf by nia.
  rewrite Hf in *.
  repeat case_decide; try done; lia.
Qed.

End VerdictFacts.

Section VerdictProperties.
Import Comparator Analysis Tables MoreTables.

(** X24: the agreement rate is tested against the thresholds as computed
    but printed rounded to two decimals, so the printed rate can reach a
    threshold that the verdict does not.  The rate is the binary
    floating-point number the script computes from the number of agreeing
    rows and the number of merged rows, not the exact quotient: whenever
    that number lies strictly between 94.995 and 95, it is printed as 95.00
    and gets the verdicts of the tier from 90 to 95.  So it is for 23749
    agreeing rows of 25000, where the script holds 94.99600000000001. *)
Theorem printed_rate_can_reach_a_threshold_the_verdict_does_not
    (agreements len : Z) (rate : Q) :
  Float.agreement_rate agreements len = Some rate ->
  (94995 # 1000 < rate)%Q -> (rate < 95)%Q ->
  format_2f rate = "95.00" /\
  interpretation (Some rate) = Very_good /\
  recommendation (Some rate) = Short_descriptions_are_highly_sufficient.
Proof.
  intros _ Hlo Hhi.
  split.
  - unfold format_2f. rewrite (hundredths_just_below_95 rate Hlo Hhi).
    by vm_compute.
  - assert (Qle_bool 95 rate = false) as H95.
    { apply not_true_iff_false. intros H%Qle_bool_iff.
      by apply Qlt_not_le in Hhi. }
    assert (Qle_bool 90 rate = true) as H90.
    { apply Qle_bool_iff. apply Qle_trans with (94995 # 1000)%Q;
        [vm_compute; discriminate | by apply Qlt_le_weak]. }
    unfold interpretation, recommendation, at_least. by rewrite H95, H90.
Qed.

Lemma printed_rate_can_reach_a_threshold_the_verdict_does_not_witness :
  Float.agreement_rate 23749 25000 = Some (3342374610950685 # 35184372088832) /\
  format_2f (3342374610950685 # 35184372088832) = "95.00" /\
  interpretation (Some (3342374610950685 # 35184372088832)) = Very_good.
Proof.
  assert (Float.agreement_rate 23749 25000 = Some (3342374610950685 # 35184372088832))
    as Hrate by (vm_compute; reflexivity).
  assert (94995 # 1000 < 3342374610950685 # 35184372088832)%Q as Hlo
    by (vm_compute; reflexivity).
  assert (3342374610950685 # 35184372088832 < 95)%Q as Hhi by (vm_compute; reflexivity).
  destruct (printed_rate_can_reach_a_threshold_the_verdict_does_not
              23749 25000 (3342374610950685 # 35184372088832) Hrate Hlo Hhi)
    as (Hprinted & Htier & _).
  split; [exact Hrate|]. split; [exact Hprinted | exact Htier].
Defined.

(** For 18999 agreeing rows of 20000 the exact quotient is 94.995, but the
    script holds 94.99499999999999 and prints 94.99. *)
Example rate_of_18999_in_20000 :
  Float.agreement_rate 18999 20000 = Some (6684678853157191 # 70368744177664) /\
  (6684678853157191 # 70368744177664 < 94995 # 1000)%Q /\
  format_2f (6684678853157191 # 70368744177664) = "94.99".
Proof. split; [|split]; by vm_compute. Qed.

(** X25: when the two result tables share no identifier, no row is merged
    and the agreement rate is NaN; every threshold test on NaN fails, so the
    script reports the lowest tier and recommends the long descriptions.
    For every rate the recommendation follows the tier of the
    interpretation, the two lowest tiers sharing one recommendation. *)
Theorem no_shared_identifier_gives_the_lowest_verdict
    (parse_number : string -> option Q) (left right : list ResultRow) :
  (forall l, l ∈ left -> CompanyID l ∉ CompanyID <$> right) ->
  merge left right = [] /\
  agreement_rate parse_number left right = None /\
  interpretation (agreement_rate parse_number left right) = Low /\
  recommendation (agreement_rate parse_number left right)
    = Long_descriptions_provide_significant_value /\
  (forall rate,
     recommendation rate =
       match interpretation rate with
       | Excellent => Short_descriptions_are_sufficient
       | Very_good => Short_descriptions_are_highly_sufficient
       | Good => Short_descriptions_are_generally_sufficient
       | Moderate | Low => Long_descriptions_provide_significant_value
       end).
Proof.
  intros Hdisjoint.
  pose proof (merge_disjoint left right Hdisjoint) as Hmerge.
  assert (agreement_rate parse_number left right = None) as Hrate.
  { unfold agreement_rate. by rewrite Hmerge. }
  split; [done|]. split; [done|]. rewrite Hrate.
  split; [done|]. split; [done|].
  intros rate. unfold recommendation, interpretation.
  by repeat destruct (at_least rate _).
Qed.

Lemma no_shared_identifier_gives_the_lowest_verdict_witness :
  agreement_rate no_parse only_left only_right = None /\
  interpretation (agreement_rate no_parse only_left only_right) = Low.
Proof.
  destruct (no_shared_identifier_gives_the_lowest_verdict no_parse only_left only_right)
    as (_ & Hrate & Htier & _).
  - intros l Hl Hin. unfold only_left, only_right in *.
    apply list_elem_of_fmap in Hin as (r & Heq & Hr).
    apply list_elem_of_singleton in Hr. subst r.
    apply elem_of_cons in Hl as [->|Hl]; [discriminate Heq|].
    apply list_elem_of_singleton in Hl. subst l. discriminate Heq.
  - split; [exact Hrate | exact Htier].
Defined.

End VerdictProperties.

(** ** Watching all batches at once in the sequential script *)

Section ConcurrentFacts.
Import PyStr Response World Monitor Concurrent.
Variable remote : Remote.

(** The dictionary of batch ids holds, for every batch number, the stripped
    text of its id file, or [None] without one. *)
Lemma load_batch_ids_spec batch_nums : forall ids w,
  exists ids' w',
    load_batch_ids batch_nums ids w = Returned ids' w' /\
    fs w' = fs w /\ clock w' = clock w /\ calls w' = calls w /\
    (forall num, num ∈ batch_nums ->
       ids' !! num = Some (strip <$> World.batch_ids (fs w) !! id_path num)) /\
    (forall num, num ∉ batch_nums -> ids' !! num = ids !! num).
Proof.
  induction batch_nums as [|k rest IH]; intros ids w.
  - exists ids, w. split; [done|]. repeat split; try done.
    intros num Hnum. by apply elem_of_nil in Hnum.
  - cbn [load_batch_ids]. run_step.
    destruct (World.batch_ids (fs w) !! id_path k) as [text|] eqn:Htext; run_step;
      match goal with
      | |- context [load_batch_ids rest ?ids1 ?w1] =>
          destruct (IH ids1 w1) as (ids' & w' & Hrun & Hfs & Hclock & Hcalls & Hin & Hout)
      end;
      exists ids', w'; (split; [exact Hrun|]); simpl in *;
      (split; [done|]); (split; [done|]); (split; [done|]); split.
    + intros num [->|Hnum]%elem_of_cons.
      * destruct (decide (k ∈ rest)) as [Hk|Hk].
        -- by rewrite (Hin k Hk), Htext.
        -- by rewrite (Hout k Hk), lookup_insert_eq, Htext.
      * by apply Hin.
    + intros num Hnum. apply not_elem_of_cons in Hnum as [Hne Hnum].
      by rewrite (Hout num Hnum), lookup_insert_ne.
    + intros num [->|Hnum]%elem_of_cons.
      * destruct (decide (k ∈ rest)) as [Hk|Hk].
        -- by rewrite (Hin k Hk), Htext.
        -- by rewrite (Hout k Hk), lookup_insert_eq, Htext.
      * by apply Hin.
    + intros num Hnum. apply not_elem_of_cons in Hnum as [Hne Hnum].
      by rewrite (Hout num Hnum), lookup_insert_ne.
Qed.

(** One status check, exactly: the flag, the new dictionary of statuses
    and the clock. *)
Lemma check_round_exact (ids : gmap Z (option string)) batch_nums :
  NoDup batch_nums ->
  (forall num, num ∈ batch_nums -> is_Some (ids !! num)) ->
  forall statuses all_done w,
  exists statuses' w',
    check_round remote batch_nums ids statuses all_done w =
      Returned (statuses',
                all_done &&
                forallb (fun num => done_at remote (clock w) (num, default None (ids !! num)))
                        batch_nums) w' /\
    fs w' = fs w /\ clock w' = clock w /\
    (forall num, num ∈ batch_nums ->
       statuses' !! num =
         status_after remote (clock w) (default None (ids !! num)) (statuses !! num)) /\
    (forall num, num ∉ batch_nums -> statuses' !! num = statuses !! num).
Proof.
  induction batch_nums as [|k rest IH]; intros Hnd Hids statuses all_done w.
  - exists statuses, w. simpl. rewrite andb_true_r. repeat split; try done.
    intros num Hnum. by apply elem_of_nil in Hnum.
  - apply NoDup_cons in Hnd as [Hk Hnd].
    assert (forall num, num ∈ rest -> is_Some (ids !! num)) as Hids'.
    { intros num Hnum. apply Hids. by right. }
    destruct (Hids k) as [oid Hoid]; [by left|].
    cbn [check_round forallb]. rewrite Hoid.
    unfold done_at at 1. cbn [snd default from_option Datatypes.id].
    (* what remains once the entry of [k] is settled *)
    assert (forall statuses1 b w1 (new : option Status),
              fs w1 = fs w -> clock w1 = clock w ->
              statuses1 !! k = new ->
              (forall num, num <> k -> statuses1 !! num = statuses !! num) ->
              exists statuses' w',
                check_round remote rest ids statuses1 b w1 =
                  Returned (statuses',
                            b && forallb (fun num =>
                                   done_at remote (clock w) (num, default None (ids !! num)))
                                 rest) w' /\
                fs w' = fs w /\ clock w' = clock w /\
                (forall num, num ∈ k :: rest ->
                   statuses' !! num =
                     if decide (num = k) then new
                     else status_after remote (clock w) (default None (ids !! num))
                            (statuses !! num)) /\
                (forall num, num ∉ k :: rest -> statuses' !! num = statuses !! num))
      as Hrest.
    { intros statuses1 b w1 new Hfs Hclock Hnew Hframe.
      destruct (IH Hnd Hids' statuses1 b w1)
        as (statuses' & w' & Hrun & Hfs' & Hclock' & Hin & Hout).
      exists statuses', w'. rewrite Hclock in Hrun, Hin.
      split; [exact Hrun|]. split; [congruence|]. split; [congruence|]. split.
      - intros num [->|Hnum]%elem_of_cons.
        + rewrite decide_True by done. by rewrite (Hout k Hk).
        + rewrite decide_False by (intros ->; done).
          rewrite (Hin num Hnum), Hframe; [done|]. by intros ->.
      - intros num Hnum. apply not_elem_of_cons in Hnum as [Hne Hnum].
        by rewrite (Hout num Hnum), Hframe. }
    assert (default None (ids !! k) = oid) as Hdefault by (by rewrite Hoid).
    destruct oid as [id|]; [destruct (truthy id) eqn:Htruthy|].
    + run_step.
      destruct (on_batches_retrieve remote id (clock w)) as [batch|] eqn:Hreply.
      * run_step.
        assert (forall statuses' : gmap Z Status,
                  (forall num, num ∈ k :: rest ->
                     statuses' !! num =
                       if decide (num = k) then Some (status batch)
                       else status_after remote (clock w) (default None (ids !! num))
                              (statuses !! num)) ->
                  forall num, num ∈ k :: rest ->
                    statuses' !! num =
                      status_after remote (clock w) (default None (ids !! num))
                        (statuses !! num)) as Hshape.
        { intros statuses' Hin num Hnum. rewrite (Hin num Hnum).
          destruct (decide (num = k)) as [->|Hne]; [|done].
          rewrite Hdefault. unfold status_after. by rewrite Htruthy, Hreply. }
        destruct (status batch) eqn:Hstatus;
          match goal with
          | |- context [check_round remote rest ids ?s1 ?b ?w1] =>
              destruct (Hrest s1 b w1 (Some (status batch)))
                as (statuses' & w' & Hrun & Hfs & Hclock & Hin & Hout);
                [done|done|by rewrite lookup_insert_eq, Hstatus
                |by intros num Hne; rewrite lookup_insert_ne|]
          end;
          exists statuses', w'; rewrite Hrun;
          first [ rewrite bool_decide_eq_true_2 by auto
                | rewrite bool_decide_eq_false_2 by (intros [?|?]; done) ];
          rewrite ?andb_false_r; cbn [andb];
          (split; [reflexivity|]); (split; [done|]); (split; [done|]);
          (split; [|done]); apply Hshape; by rewrite <- Hstatus.
      * run_step.
        match goal with
        | |- context [check_round remote rest ids ?s1 ?b ?w1] =>
            destruct (Hrest s1 b w1 (statuses !! k))
              as (statuses' & w' & Hrun & Hfs & Hclock & Hin & Hout);
              [done|done|done|done|]
        end.
        exists statuses', w'. rewrite Hrun, andb_false_r. cbn [andb].
        split; [reflexivity|]. split; [done|]. split; [done|]. split; [|done].
        intros num Hnum. rewrite (Hin num Hnum).
        destruct (decide (num = k)) as [->|Hne]; [|done].
        rewrite Hdefault. unfold status_after. by rewrite Htruthy, Hreply.
    + run_step.
      match goal with
      | |- context [check_round remote rest ids ?s1 ?b ?w1] =>
          destruct (Hrest s1 b w1 (Some failed))
            as (statuses' & w' & Hrun & Hfs & Hclock & Hin & Hout);
            [done|done|by rewrite lookup_insert_eq
            |by intros num Hne; rewrite lookup_insert_ne|]
      end.
      exists statuses', w'. rewrite Hrun. cbn [andb].
      split; [reflexivity|]. split; [done|]. split; [done|]. split; [|done].
      intros num Hnum. rewrite (Hin num Hnum).
      destruct (decide (num = k)) as [->|Hne]; [|done].
      rewrite Hdefault. unfold status_after. by rewrite Htruthy.
    + run_step.
      match goal with
      | |- context [check_round remote rest ids ?s1 ?b ?w1] =>
          destruct (Hrest s1 b w1 (Some failed))
            as (statuses' & w' & Hrun & Hfs & Hclock & Hin & Hout);
            [done|done|by rewrite lookup_insert_eq
            |by intros num Hne; rewrite lookup_insert_ne|]
      end.
      exists statuses', w'. rewrite Hrun. cbn [andb].
      split; [reflexivity|]. split; [done|]. split; [done|]. split; [|done].
      intros num Hnum. rewrite (Hin num Hnum).
      destruct (decide (num = k)) as [->|Hne]; [|done].
      by rewrite Hdefault.
Qed.

(** A batch that holds nothing back at time [t] ends the check
    [completed] or [failed]. *)
Lemma done_at_status_after t num batch_id before :
  done_at remote t (num, batch_id) = true ->
  status_after remote t batch_id before = Some completed \/
  status_after remote t batch_id before = Some failed.
Proof.
  unfold done_at, status_after. simpl.
  destruct batch_id as [id|]; [|by right].
  destruct (truthy id); [|by right].
  destruct (on_batches_retrieve remote id t) as [batch|]; [|done].
  intros [-> | ->]%bool_decide_eq_true; auto.
Qed.

(** The loop returns at the first check that nothing holds back; every
    batch then stands [completed] or [failed]. *)
Lemma monitor_halts (ids : gmap Z (option string)) batch_nums (k : nat) :
  NoDup batch_nums ->
  (forall num, num ∈ batch_nums -> is_Some (ids !! num)) ->
  forall fuel statuses w,
  (k < fuel)%nat ->
  (forall i : nat, (i < k)%nat ->
     forallb (fun num => done_at remote (clock w + 60 * Z.of_nat i)
                           (num, default None (ids !! num))) batch_nums = false) ->
  forallb (fun num => done_at remote (clock w + 60 * Z.of_nat k)
                        (num, default None (ids !! num))) batch_nums = true ->
  exists statuses' w',
    monitor remote fuel batch_nums ids statuses w = Returned statuses' w' /\
    clock w' = clock w + 60 * Z.of_nat k /\ fs w' = fs w /\
    (forall num, num ∈ batch_nums ->
       statuses' !! num = Some completed \/ statuses' !! num = Some failed) /\
    (forall num, num ∈ batch_nums -> default None (ids !! num) = None ->
       statuses' !! num = Some failed) /\
    (forall num, num ∉ batch_nums -> statuses' !! num = statuses !! num).
Proof.
  intros Hnd Hids. induction k as [|k IH]; intros fuel statuses w Hfuel Hbefore Hat.
  - destruct fuel as [|fuel]; [lia|]. cbn [monitor].
    replace (clock w + 60 * Z.of_nat 0) with (clock w) in * by lia.
    destruct (check_round_exact ids batch_nums Hnd Hids statuses true w)
      as (statuses' & w1 & Hcheck & Hfs & Hclock & Hin & Hout).
    rewrite (bind_returned _ _ _ _ _ Hcheck). cbn [snd fst]. rewrite Hat. cbn [andb].
    run_step. eexists _, _. split; [reflexivity|]. simpl.
    split; [lia|]. split; [done|]. split; [|split; [|done]].
    + intros num Hnum. rewrite (Hin num Hnum).
      apply (done_at_status_after _ num).
      rewrite forallb_forall in Hat. apply Hat. by apply list_elem_of_In.
    + intros num Hnum Hnone. rewrite (Hin num Hnum), Hnone. done.
  - destruct fuel as [|fuel]; [lia|]. cbn [monitor].
    destruct (check_round_exact ids batch_nums Hnd Hids statuses true w)
      as (statuses1 & w1 & Hcheck & Hfs & Hclock & Hin & Hout).
    rewrite (bind_returned _ _ _ _ _ Hcheck). cbn [snd fst].
    pose proof (Hbefore 0%nat ltac:(lia)) as H0.
    replace (clock w + 60 * Z.of_nat 0) with (clock w) in H0 by lia.
    rewrite H0. cbn [andb]. run_step.
    match goal with
    | |- context [monitor remote fuel batch_nums ids statuses1 ?w2] =>
        destruct (IH fuel statuses1 w2)
          as (statuses' & w' & Hrun & Hclock' & Hfs' & Hdone & Hnone & Hframe)
    end.
    + lia.
    + intros i Hi. cbn [clock]. specialize (Hbefore (S i) ltac:(lia)).
      by replace (clock w1 + 60 + 60 * Z.of_nat i)
        with (clock w + 60 * Z.of_nat (S i)) by lia.
    + cbn [clock].
      by replace (clock w1 + 60 + 60 * Z.of_nat k)
        with (clock w + 60 * Z.of_nat (S k)) by lia.
    + exists statuses', w'. split; [exact Hrun|]. cbn [clock fs] in *.
      split; [lia|]. split; [congruence|]. split; [done|]. split; [done|].
      intros num Hnum. by rewrite (Hframe num Hnum), (Hout num Hnum).
Qed.

Lemma forallb_stored_ids (ids : gmap Z (option string)) d t batch_nums :
  (forall num, num ∈ batch_nums ->
     ids !! num = Some (strip <$> World.batch_ids d !! id_path num)) ->
  forallb (fun num => done_at remote t (num, default None (ids !! num))) batch_nums
  = forallb (done_at remote t) (stored_ids d batch_nums).
Proof.
  induction batch_nums as [|k rest IH]; intros Hids; [done|].
  unfold stored_ids. rewrite fmap_cons. cbn [forallb].
  rewrite (Hids k) by (by left). cbn [default from_option Datatypes.id].
  f_equal. apply IH. intros num Hnum. apply Hids. by right.
Qed.

End ConcurrentFacts.

Section ConcurrentProperties.
Import PyStr Response World Monitor Concurrent Scenarios Stress.

(** X26: [check_all_batches_status] of the sequential script checks every
    60 seconds and returns at the first check at which every batch that has
    an id is reported [completed] or [failed]; the dictionary it returns
    then maps every batch number to [completed] or [failed], a batch
    without id file (or with an empty one) to [failed], and holds no other
    key.  No file changes. *)
Theorem concurrent_check_returns_completed_or_failed_for_every_batch
    (remote : Remote) (num_batches : Z) (k fuel : nat) (w : World) :
  let entries := stored_ids (fs w) (seqZ 1 num_batches) in
  (k < fuel)%nat ->
  (forall i : nat, (i < k)%nat ->
     forallb (done_at remote (clock w + 60 * Z.of_nat i)) entries = false) ->
  forallb (done_at remote (clock w + 60 * Z.of_nat k)) entries = true ->
  exists statuses w',
    check_all_batches_status remote fuel num_batches w = Returned statuses w' /\
    clock w' = clock w + 60 * Z.of_nat k /\ fs w' = fs w /\
    (forall num, 1 <= num <= num_batches ->
       statuses !! num = Some completed \/ statuses !! num = Some failed) /\
    (forall num, 1 <= num <= num_batches ->
       World.batch_ids (fs w) !! id_path num = None -> statuses !! num = Some failed) /\
    (forall num, ~ 1 <= num <= num_batches -> statuses !! num = None).
Proof.
  intros entries Hfuel Hbefore Hat. subst entries.
  unfold check_all_batches_status.
  destruct (load_batch_ids_spec (seqZ 1 num_batches) ∅ w)
    as (ids & w0 & Hload & Hfs0 & Hclock0 & _ & Hids & _).
  rewrite (bind_returned _ _ _ _ _ Hload).
  assert (forall num, num ∈ seqZ 1 num_batches -> is_Some (ids !! num)) as Hsome.
  { intros num Hnum. rewrite (Hids num Hnum). by eexists. }
  destruct (monitor_halts remote ids (seqZ 1 num_batches) k (NoDup_seqZ _ _) Hsome fuel
              (list_to_map ((fun num => (num, validating)) <$> seqZ 1 num_batches)) w0)
    as (statuses & w' & Hrun & Hclock & Hfs & Hdone & Hnone & Hframe).
  - done.
  - intros i Hi. rewrite Hclock0, (forallb_stored_ids remote ids (fs w)) by done.
    by apply Hbefore.
  - by rewrite Hclock0, (forallb_stored_ids remote ids (fs w)) by done.
  - exists statuses, w'. split; [exact Hrun|].
    split; [lia|]. split; [congruence|]. split; [|split].
    + intros num Hnum. apply Hdone. apply elem_of_seqZ. lia.
    + intros num Hnum Hmissing. apply Hnone; [apply elem_of_seqZ; lia|].
      rewrite Hids by (apply elem_of_seqZ; lia). by rewrite Hmissing.
    + intros num Hnum. rewrite Hframe by (rewrite elem_of_seqZ; lia).
      apply not_elem_of_list_to_map_1.
      rewrite <- list_fmap_compose. intros Hin.
      apply list_elem_of_fmap in Hin as (num' & -> & Hin).
      apply elem_of_seqZ in Hin. simpl in Hnum. lia.
Qed.

Lemma concurrent_check_returns_completed_or_failed_for_every_batch_witness :
  exists statuses w',
    check_all_batches_status slow_remote 3 2 (start completed_run_fs)
      = Returned statuses w' /\
    clock w' = 120 /\
    (statuses !! 1 = Some completed \/ statuses !! 1 = Some failed).
Proof.
  destruct (concurrent_check_returns_completed_or_failed_for_every_batch slow_remote
              2 2 3 (start completed_run_fs))
    as (statuses & w' & Hrun & Hclock & _ & Hdone & _).
  - lia.
  - intros [|[|i]] Hi; [vm_compute; reflexivity|vm_compute; reflexivity|lia].
  - vm_compute. reflexivity.
  - exists statuses, w'. split; [exact Hrun|]. split; [exact Hclock|].
    apply Hdone. lia.
Defined.

End ConcurrentProperties.

Section AnalysisSamples.
Import Comparator Analysis Tables MoreTables.

Lemma disagreements_split_into_the_two_patterns_witness :
  let binary := take 3 mixed in
  (both_not_short_ai no_parse (df_disagree no_parse binary)
   + both_ai_short_not no_parse (df_disagree no_parse binary)
   = length (df_disagree no_parse binary))%nat /\
  df_disagree no_parse (drop 3 mixed) = drop 3 mixed.
Proof.
  intros binary.
  destruct (disagreements_split_into_the_two_patterns no_parse binary)
    as (_ & _ & Hbinary & _).
  destruct (disagreements_split_into_the_two_patterns no_parse mixed)
    as (_ & _ & _ & Hnan).
  split.
  - apply Hbinary. unfold binary, mixed, binary_pair, binary_flag. simpl.
    repeat constructor; simpl; eexists; (split; [reflexivity|]);
      first [by left | by right].
  - apply Hnan. by right.
Defined.

End AnalysisSamples.


Section DatasetFacts.
Import PyStr Dataset.

Lemma has_text_present cell : has_text cell = true <-> present cell.
Proof.
  unfold present. destruct cell as [|v|]; simpl.
  - split; [done|]. intros [|(v & ? & _)]; done.
  - rewrite bool_decide_eq_true. split.
    + intros Hv. right. by exists v.
    + intros [|(v' & [= <-] & Hv)]; done.
  - split; [by left|done].
Qed.

(** The [.str] accessor is missing exactly on a column that has cells but
    no string among them. *)
Lemma str_accessor_false column :
  str_accessor column = false <->
  column <> [] /\ Forall (fun cell => is_str cell = false) column.
Proof.
  destruct column as [|c column]; [by split; [|intros []]|].
  unfold str_accessor. rewrite <- not_true_iff_false, existsb_exists.
  split.
  - intros Hnone. split; [done|]. apply Forall_forall. intros x Hx.
    apply not_true_iff_false. intros Hstr. apply Hnone. exists x.
    split; [by apply list_elem_of_In|done].
  - intros [_ Hall] (x & Hx%list_elem_of_In & Hstr).
    rewrite Forall_forall in Hall. specialize (Hall x Hx). congruence.
Qed.

End DatasetFacts.

Section DatasetProperties.
Import PyStr Dataset.

(** X6: how [prepare_dataset.py] ends, from the frame it loaded.  It raises
    [AttributeError], before it writes anything, exactly when the frame has
    rows and one of the two description columns holds no string at all, as
    when no record has a long description.  Otherwise it writes the
    records, in their order, whose two descriptions are both present (a
    text that is not blank once stripped, or a value that is not text), and
    then, when the frame has no rows, it raises [ZeroDivisionError] in the
    summary. *)
Theorem prepare_dataset_outcomes {Row : Type}
    (short_description Long_description : Row -> Cell) (df : list Row) :
  match prepare_dataset short_description Long_description df with
  | AttributeError =>
      df <> [] /\
      (Forall (fun row => is_str (short_description row) = false) df \/
       Forall (fun row => is_str (Long_description row) = false) df)
  | Saved_then_ZeroDivisionError df_both => df = [] /\ df_both = []
  | Saved df_both =>
      df <> [] /\
      (exists row, row ∈ df /\ is_str (short_description row) = true) /\
      (exists row, row ∈ df /\ is_str (Long_description row) = true) /\
      df_both `sublist_of` df /\
      forall row, row ∈ df_both <->
        row ∈ df /\ present (short_description row) /\ present (Long_description row)
  end /\
  (df <> [] ->
   Forall (fun row => short_description row = NaN) df \/
   Forall (fun row => Long_description row = NaN) df ->
   prepare_dataset short_description Long_description df = AttributeError).
Proof.
  assert (forall column : Row -> Cell,
            str_accessor (column <$> df) = true -> df <> [] ->
            exists row, row ∈ df /\ is_str (column row) = true) as Hstring.
  { intros column Hacc Hdf. destruct df as [|r df]; [done|].
    unfold str_accessor in Hacc. cbn [fmap list_fmap] in Hacc.
    apply existsb_exists in Hacc as (cell & Hin%list_elem_of_In & Hstr).
    change (cell ∈ column <$> r :: df) in Hin.
    apply list_elem_of_fmap in Hin as (row & -> & Hrow). by exists row. }
  assert (forall column : Row -> Cell,
            str_accessor (column <$> df) = false ->
            df <> [] /\ Forall (fun row => is_str (column row) = false) df) as Hnone.
  { intros column [Hne Hall]%str_accessor_false. split.
    - intros ->. done.
    - by apply Forall_fmap in Hall. }
  split.
  - unfold prepare_dataset.
    destruct (str_accessor (short_description <$> df)) eqn:Hshort; simpl.
    2: { destruct (Hnone _ Hshort). split; [done|by left]. }
    destruct (str_accessor (Long_description <$> df)) eqn:Hlong; simpl.
    2: { destruct (Hnone _ Hlong). split; [done|by right]. }
    destruct df as [|r rest]; [done|].
    assert (r :: rest <> []) as Hne by done.
    split; [done|]. split; [by apply Hstring|]. split; [by apply Hstring|].
    split; [apply sublist_filter|].
    intros row. rewrite list_elem_of_filter, andb_true_iff, !has_text_present.
    tauto.
  - intros Hne Hnan. unfold prepare_dataset.
    assert (forall column : Row -> Cell,
              Forall (fun row => column row = NaN) df ->
              str_accessor (column <$> df) = false) as Hmissing.
    { intros column Hall. apply str_accessor_false. split.
      - by destruct df.
      - apply Forall_fmap. eapply Forall_impl; [exact Hall|].
        simpl. by intros row ->. }
    destruct Hnan as [Hs|Hl].
    + by rewrite (Hmissing _ Hs).
    + rewrite (Hmissing _ Hl). by destruct (str_accessor (short_description <$> df)).
Qed.

Lemma prepare_dataset_outcomes_witness :
  prepare_dataset fst snd no_long_descriptions = AttributeError /\
  prepare_dataset fst snd mixed_frame
    = Saved [(Str " Robots for warehouses ", Str "Acme builds robots.")] /\
  prepare_dataset fst snd ([] : list (Cell * Cell)) = Saved_then_ZeroDivisionError [].
Proof.
  split; [|split; vm_compute; reflexivity].
  apply (prepare_dataset_outcomes fst snd no_long_descriptions).
  - unfold no_long_descriptions. discriminate.
  - right. unfold no_long_descriptions. constructor; [reflexivity|].
    constructor; [reflexivity|]. constructor.
Defined.

End DatasetProperties.


Section UploadLoopFacts.
Import PyStr Response World.
Variable remote : Remote.




End UploadLoopFacts.

Section UploadClaims.
Import Partitioner PyStr Response World Scenarios.



End UploadClaims.
